(** * DLNA renderer / media-server integration: a shallow embedding

    The development follows the two packages of the repository:
    [homeassistant/components/dlna_dmr] (event-notifier and device-updater
    registries, renderer entity, set-up and unloading of a config entry) and
    [homeassistant/components/dlna_dms] (media source: identifier parsing,
    path and object resolution, DIDL-Lite projection; set-up and unloading
    of a media server).

    Python values are embedded as follows: a [str] is a [string] (its
    characters stand for code points), a value that may be [None] is an
    [option], a dict is a [gmap] unless its order matters (the [sources]
    mapping is an association list), an exception is a value of [exn] and a
    call that may raise returns a [result]. Calls to a device are recorded
    in a log that is threaded through every coroutine; logger output is
    kept for the renderer entity only. *)

From Stdlib Require Import ZArith QArith String Ascii List Bool Lia.
From stdpp Require Import base option countable gmap strings list.

Local Open Scope string_scope.
Local Open Scope list_scope.

(** ** Python prelude: exceptions, results, string builtins *)
Module Py.

(** An exception object raised by one of the client libraries
    (async_upnp_client, aiohttp, asyncio). The three flags are the answers
    of [isinstance] against the classes the code names in its [except]
    clauses; one object may be an instance of several of them. *)
Record LibExn := mkLibExn {
  is_UpnpError : bool;
  is_TimeoutError : bool;      (* asyncio.TimeoutError *)
  is_ClientError : bool;       (* aiohttp.ClientError *)
  exn_str : string             (* str(err) *)
}.

Inductive exn :=
| Lib (e : LibExn)
| Unresolvable (msg : string)
| BrowseError (msg : string)
| ValueError (msg : string)
| TypeError (msg : string)
| AttributeError (msg : string)
| KeyError (msg : string)
| OtherError (class_name msg : string).   (* any other exception *)

Inductive result (A : Type) :=
| Ok (a : A)
| Raise (e : exn).
Global Arguments Ok {A} a.
Global Arguments Raise {A} e.

Definition is_ok {A} (r : result A) : bool :=
  match r with Ok _ => true | Raise _ => false end.

(** Truthiness of a [str]: [not s] holds for the empty string only. *)
Definition str_truthy (s : string) : bool :=
  match s with EmptyString => false | String _ _ => true end.

(** Truthiness of a value that is a [str] or [None]. *)
Definition opt_str_truthy (o : option string) : bool :=
  match o with None => false | Some s => str_truthy s end.

(** [s.split(sep)] for a one-character separator: every occurrence cuts,
    and the empty string yields one empty field. *)
Fixpoint str_split (sep : ascii) (s : string) : list string :=
  match s with
  | EmptyString => [EmptyString]
  | String c r =>
      if Ascii.eqb c sep then EmptyString :: str_split sep r
      else match str_split sep r with
           | h :: t => String c h :: t
           | [] => [String c EmptyString]
           end
  end.

(** Cut [s] at the first occurrence of [sep], if there is one. *)
Fixpoint str_cut (sep : ascii) (s : string) : option (string * string) :=
  match s with
  | EmptyString => None
  | String c r =>
      if Ascii.eqb c sep then Some (EmptyString, r)
      else match str_cut sep r with
           | Some (a, b) => Some (String c a, b)
           | None => None
           end
  end.

(** [s.split(sep, maxsplit)]: at most [maxsplit] cuts, leftmost first; the
    last field keeps whatever separators remain. *)
Fixpoint str_split_max (sep : ascii) (maxsplit : nat) (s : string)
  : list string :=
  match maxsplit with
  | O => [s]
  | S n =>
      match str_cut sep s with
      | None => [s]
      | Some (a, b) => a :: str_split_max sep n b
      end
  end.

(** [c in s] for a character. *)
Fixpoint str_mem (c : ascii) (s : string) : bool :=
  match s with
  | EmptyString => false
  | String d r => Ascii.eqb d c || str_mem c r
  end.

(** [x in (a, b, ...)] on strings. *)
Definition str_in (x : string) (l : list string) : bool :=
  existsb (String.eqb x) l.

End Py.

(** ** dlna_dms/const.py *)
Module DmsConst.
Definition ROOT_OBJECT_ID : string := "0".
Definition ACTION_OBJECT : string := "object".
Definition ACTION_PATH : string := "path".
Definition ACTION_SEARCH : string := "search".
Definition PATH_SEP : ascii := "/"%char.
Definition DLNA_BROWSE_FILTER : list string :=
  ["id"; "upnp:class"; "dc:title"; "res"; "@childCount"; "upnp:albumArtURI"].
Definition DLNA_RESOLVE_FILTER : list string := ["id"; "upnp:class"; "res"].
Definition DLNA_PATH_FILTER : list string := ["id"; "upnp:class"; "dc:title"].
End DmsConst.

(** ** dlna_dms/media_source.py: identifier parsing *)
Module Identifier.
Import Py DmsConst.

Record MediaSourceItem := mkItem { identifier : string }.

(** [async_parse_identifier]. *)
Definition async_parse_identifier (item : MediaSourceItem)
  : result (string * string * string) :=
  if negb (str_truthy (identifier item)) then
    Ok (EmptyString, EmptyString, EmptyString)
  else
    match str_split_max "/"%char 2 (identifier item) with
    | [server_id] => Ok (server_id, EmptyString, EmptyString)
    | [_; _] => Raise (BrowseError "Invalid parameters")
    | [server_id; action; parameters] =>
        if negb (str_in action [ACTION_OBJECT; ACTION_PATH; ACTION_SEARCH])
        then Raise (BrowseError "Invalid action")
        else Ok (server_id, action, parameters)
    | _ =>
        (* unpacking [parts] into three names fails otherwise; with
           maxsplit = 2 this branch is never taken *)
        Raise (ValueError "unpack")
    end.

End Identifier.

(** ** DIDL-Lite objects, as the media source reads them *)
Module Didl.
Import Py.

(** The classes of [didl_lite] that key [MEDIA_CLASS_MAP]; [OtherDidl] is
    any class the table does not list. *)
Inductive DidlType :=
| DidlObject_t | Item | ImageItem | Photo | AudioItem | MusicTrack
| AudioBroadcast | AudioBook | VideoItem | Movie | VideoBroadcast
| MusicVideoClip | PlaylistItem | TextItem | BookmarkItem | EpgItem
| AudioProgram | VideoProgram | Container | Person | MusicArtist
| PlaylistContainer | Album | MusicAlbum | PhotoAlbum | Genre | MusicGenre
| MovieGenre | ChannelGroup | AudioChannelGroup | VideoChannelGroup
| EpgContainer | StorageSystem | StorageVolume | StorageFolder
| BookmarkFolder
| OtherDidl (class_name : string).

(** What an attribute read from the DIDL-Lite XML may hold. *)
Inductive PyVal :=
| PyNone
| PyStr (s : string)
| PyInt (z : Z).

Record Resource := mkResource {
  uri : option string;
  protocol_info : option string
}.

(** A [didl_lite.DidlObject]. [child_count] and [album_art_uri] are
    attributes an object may not have at all ([None] here: reading raises
    AttributeError, [hasattr] is false); when present they hold a
    [PyVal], respectively a [str] or Python's [None]. *)
Record DidlObject := mkDidl {
  didl_type : DidlType;                    (* type(item) *)
  didl_id : string;                        (* item.id *)
  upnp_class : string;
  title : string;
  child_count : option PyVal;
  res : list Resource;
  album_art_uri : option (option string)
}.

(** *** The builtin [int] on the values above *)

(** The white space [int] skips around a literal: tab to carriage return
    and the space, and the two spaces above the ASCII range (next line,
    no-break space), which [int] first replaces by a space. The
    separators 28 to 31 are not skipped. *)
Definition is_space (c : ascii) : bool :=
  let n := nat_of_ascii c in
  ((9 <=? n) && (n <=? 13) || (n =? 32) || (n =? 133) || (n =? 160))%nat.

Definition digit_of (c : ascii) : option Z :=
  let n := nat_of_ascii c in
  if ((48 <=? n) && (n <=? 57))%nat then Some (Z.of_nat n - 48)%Z else None.

Fixpoint lstrip (s : string) : string :=
  match s with
  | String c r => if is_space c then lstrip r else s
  | EmptyString => s
  end.

(** Drop trailing white space. *)
Fixpoint rstrip (s : string) : string :=
  match s with
  | EmptyString => EmptyString
  | String c r =>
      match rstrip r with
      | EmptyString => if is_space c then EmptyString else String c EmptyString
      | r' => String c r'
      end
  end.

(** Digits with single underscores between them, most significant first.
    [acc] is the value read so far, [after_digit] tells whether the
    previous character was a digit (an underscore is accepted only
    there, and the literal may not end on one). *)
Fixpoint digits (s : string) (acc : Z) (after_digit : bool) : option Z :=
  match s with
  | EmptyString => if after_digit then Some acc else None
  | String c r =>
      match digit_of c with
      | Some d => digits r (10 * acc + d)%Z true
      | None =>
          if Ascii.eqb c "_"%char && after_digit then
            match r with
            | EmptyString => None
            | _ => digits r acc false
            end
          else None
      end
  end.

(** [int(s)] for a [str] in base 10: [None] stands for ValueError. *)
Definition int_of_str (s : string) : option Z :=
  match rstrip (lstrip s) with
  | String "-"%char r => Z.opp <$> digits r 0%Z false
  | String "+"%char r => digits r 0%Z false
  | t => digits t 0%Z false
  end.

(** [int(v)]. *)
Definition py_int (v : PyVal) : result Z :=
  match v with
  | PyNone => Raise (TypeError "int() argument must be a string, a bytes-like object or a number, not 'NoneType'")
  | PyStr s =>
      match int_of_str s with
      | Some n => Ok n
      | None => Raise (ValueError "invalid literal for int() with base 10")
      end
  | PyInt z => Ok z
  end.

End Didl.

(** ** dlna_dms/const.py: the two projection tables *)
Module DmsTables.
Import Didl.

(** Names of the constants of [homeassistant.components.media_player.const]
    that the tables refer to. Their string values belong to another
    package; a constant is recorded here by its name. *)
Inductive MpConst :=
| MEDIA_CLASS_URL | MEDIA_CLASS_IMAGE | MEDIA_CLASS_MUSIC
| MEDIA_CLASS_PODCAST | MEDIA_CLASS_VIDEO | MEDIA_CLASS_MOVIE
| MEDIA_CLASS_TV_SHOW | MEDIA_CLASS_TRACK | MEDIA_CLASS_EPISODE
| MEDIA_CLASS_DIRECTORY | MEDIA_CLASS_ARTIST | MEDIA_CLASS_PLAYLIST
| MEDIA_CLASS_ALBUM | MEDIA_CLASS_GENRE | MEDIA_CLASS_CHANNEL
| MEDIA_TYPE_URL | MEDIA_TYPE_IMAGE | MEDIA_TYPE_MUSIC | MEDIA_TYPE_PODCAST
| MEDIA_TYPE_VIDEO | MEDIA_TYPE_MOVIE | MEDIA_TYPE_PLAYLIST
| MEDIA_TYPE_EPISODE | MEDIA_TYPE_ARTIST | MEDIA_TYPE_ALBUM
| MEDIA_TYPE_GENRE | MEDIA_TYPE_CHANNELS | MEDIA_TYPE_TVSHOW.

(** [MEDIA_CLASS_MAP[t]]; [None] is a KeyError. *)
Definition MEDIA_CLASS_MAP (t : DidlType) : option MpConst :=
  match t with
  | DidlObject_t => Some MEDIA_CLASS_URL
  | Item => Some MEDIA_CLASS_URL
  | ImageItem => Some MEDIA_CLASS_IMAGE
  | Photo => Some MEDIA_CLASS_IMAGE
  | AudioItem => Some MEDIA_CLASS_MUSIC
  | MusicTrack => Some MEDIA_CLASS_MUSIC
  | AudioBroadcast => Some MEDIA_CLASS_MUSIC
  | AudioBook => Some MEDIA_CLASS_PODCAST
  | VideoItem => Some MEDIA_CLASS_VIDEO
  | Movie => Some MEDIA_CLASS_MOVIE
  | VideoBroadcast => Some MEDIA_CLASS_TV_SHOW
  | MusicVideoClip => Some MEDIA_CLASS_VIDEO
  | PlaylistItem => Some MEDIA_CLASS_TRACK
  | TextItem => Some MEDIA_CLASS_URL
  | BookmarkItem => Some MEDIA_CLASS_URL
  | EpgItem => Some MEDIA_CLASS_EPISODE
  | AudioProgram => Some MEDIA_CLASS_MUSIC
  | VideoProgram => Some MEDIA_CLASS_VIDEO
  | Container => Some MEDIA_CLASS_DIRECTORY
  | Person => Some MEDIA_CLASS_ARTIST
  | MusicArtist => Some MEDIA_CLASS_ARTIST
  | PlaylistContainer => Some MEDIA_CLASS_PLAYLIST
  | Album => Some MEDIA_CLASS_ALBUM
  | MusicAlbum => Some MEDIA_CLASS_ALBUM
  | PhotoAlbum => Some MEDIA_CLASS_ALBUM
  | Genre => Some MEDIA_CLASS_GENRE
  | MusicGenre => Some MEDIA_CLASS_GENRE
  | MovieGenre => Some MEDIA_CLASS_GENRE
  | ChannelGroup => Some MEDIA_CLASS_CHANNEL
  | AudioChannelGroup => Some MEDIA_TYPE_CHANNELS
  | VideoChannelGroup => Some MEDIA_TYPE_CHANNELS
  | EpgContainer => Some MEDIA_CLASS_DIRECTORY
  | StorageSystem => Some MEDIA_CLASS_DIRECTORY
  | StorageVolume => Some MEDIA_CLASS_DIRECTORY
  | StorageFolder => Some MEDIA_CLASS_DIRECTORY
  | BookmarkFolder => Some MEDIA_CLASS_DIRECTORY
  | OtherDidl _ => None
  end.

(** [MEDIA_TYPE_MAP], keyed by the UPnP class string (exact match). *)
Definition MEDIA_TYPE_MAP : gmap string MpConst :=
  list_to_map [
    ("object", MEDIA_TYPE_URL);
    ("object.item", MEDIA_TYPE_URL);
    ("object.item.imageItem", MEDIA_TYPE_IMAGE);
    ("object.item.imageItem.photo", MEDIA_TYPE_IMAGE);
    ("object.item.audioItem", MEDIA_TYPE_MUSIC);
    ("object.item.audioItem.musicTrack", MEDIA_TYPE_MUSIC);
    ("object.item.audioItem.audioBroadcast", MEDIA_TYPE_MUSIC);
    ("object.item.audioItem.audioBook", MEDIA_TYPE_PODCAST);
    ("object.item.videoItem", MEDIA_TYPE_VIDEO);
    ("object.item.videoItem.movie", MEDIA_TYPE_MOVIE);
    ("object.item.videoItem.videoBroadcast", MEDIA_TYPE_VIDEO);
    ("object.item.videoItem.musicVideoClip", MEDIA_TYPE_VIDEO);
    ("object.item.playlistItem", MEDIA_TYPE_PLAYLIST);
    ("object.item.textItem", MEDIA_TYPE_URL);
    ("object.item.bookmarkItem", MEDIA_TYPE_URL);
    ("object.item.epgItem", MEDIA_TYPE_EPISODE);
    ("object.item.epgItem.audioProgram", MEDIA_TYPE_EPISODE);
    ("object.item.epgItem.videoProgram", MEDIA_TYPE_EPISODE);
    ("object.container", MEDIA_TYPE_PLAYLIST);
    ("object.container.person", MEDIA_TYPE_ARTIST);
    ("object.container.person.musicArtist", MEDIA_TYPE_ARTIST);
    ("object.container.playlistContainer", MEDIA_TYPE_PLAYLIST);
    ("object.container.album", MEDIA_TYPE_ALBUM);
    ("object.container.album.musicAlbum", MEDIA_TYPE_ALBUM);
    ("object.container.album.photoAlbum", MEDIA_TYPE_ALBUM);
    ("object.container.genre", MEDIA_TYPE_GENRE);
    ("object.container.genre.musicGenre", MEDIA_TYPE_GENRE);
    ("object.container.genre.movieGenre", MEDIA_TYPE_GENRE);
    ("object.container.channelGroup", MEDIA_TYPE_CHANNELS);
    ("object.container.channelGroup.audioChannelGroup", MEDIA_TYPE_CHANNELS);
    ("object.container.channelGroup.videoChannelGroup", MEDIA_TYPE_CHANNELS);
    ("object.container.epgContainer", MEDIA_TYPE_TVSHOW);
    ("object.container.storageSystem", MEDIA_TYPE_PLAYLIST);
    ("object.container.storageVolume", MEDIA_TYPE_PLAYLIST);
    ("object.container.storageFolder", MEDIA_TYPE_PLAYLIST);
    ("object.container.bookmarkFolder", MEDIA_TYPE_PLAYLIST)
  ].

End DmsTables.

(** ** dlna_dms/media_source.py *)
Module MediaSource.
Import Py DmsConst Identifier Didl DmsTables.

Definition DOMAIN : string := "dlna_dms".

(** *** Devices and the log of calls made to them *)

Inductive Call :=
| BrowseMetadata (object_id : string) (metadata_filter : list string)
| SearchDirectory (object_id search_criteria : string)
                  (metadata_filter : list string)
| BrowseDirectChildren (object_id : string)
                       (metadata_filter sort_criteria : list string).

(** Every call is logged with the name of the device that received it. *)
Definition Log := list (string * Call).

(** A [DmsDevice] of async_upnp_client. What a call answers may depend on
    everything that happened before, so each coroutine reads the log. *)
Record DmsDevice := mkDms {
  name : string;
  icon : option string;
  get_absolute_url : option string -> string;
  async_browse_metadata :
    Log -> string -> list string -> result DidlObject;
  async_search_directory :
    Log -> string -> string -> list string -> result (list DidlObject);
  async_browse_direct_children :
    Log -> string -> list string -> list string -> result (list DidlObject)
}.

(** *** Coroutines: a result together with the extended log *)

Definition M (A : Type) : Type := Log -> result A * Log.

Definition ret {A} (a : A) : M A := fun log => (Ok a, log).
Definition raise {A} (e : exn) : M A := fun log => (Raise e, log).
Definition bind {A B} (m : M A) (k : A -> M B) : M B :=
  fun log =>
    match m log with
    | (Ok a, log') => k a log'
    | (Raise e, log') => (Raise e, log')
    end.
Definition lift {A} (r : result A) : M A := fun log => (r, log).

(** The same for code that calls no device. *)
Definition rbind {A B} (r : result A) (k : A -> result B) : result B :=
  match r with
  | Ok a => k a
  | Raise e => Raise e
  end.

Declare Scope dms_scope.
Delimit Scope dms_scope with dms.
Notation "'do' x <- m ;; k" := (bind m (fun x => k))
  (at level 10, x name, m at level 99, k at level 200, only parsing)
  : dms_scope.
Notation "'do' x <~ r ;; k" := (rbind r (fun x => k))
  (at level 10, x name, r at level 99, k at level 200, only parsing)
  : dms_scope.
Local Open Scope dms_scope.

(** [try: body  except UpnpError as err: handler]. *)
Definition except_UpnpError {A} (body : M A) (handler : LibExn -> M A)
  : M A :=
  fun log =>
    match body log with
    | (Raise (Lib err), log') =>
        if is_UpnpError err then handler err log'
        else (Raise (Lib err), log')
    | other => other
    end.

(** [try: body  except (...): value], for code that calls no device. *)
Definition except_value {A} (body : result A) (caught : exn -> bool)
  (value : A) : result A :=
  match body with
  | Ok a => Ok a
  | Raise e => if caught e then Ok value else Raise e
  end.

Definition browse_metadata (device : DmsDevice) (object_id : string)
  (metadata_filter : list string) : M DidlObject :=
  fun log =>
    (async_browse_metadata device log object_id metadata_filter,
     log ++ [(name device, BrowseMetadata object_id metadata_filter)]).

Definition search_directory (device : DmsDevice)
  (object_id search_criteria : string) (metadata_filter : list string)
  : M (list DidlObject) :=
  fun log =>
    (async_search_directory device log object_id search_criteria
       metadata_filter,
     log ++ [(name device,
              SearchDirectory object_id search_criteria metadata_filter)]).

Definition browse_direct_children (device : DmsDevice) (object_id : string)
  (metadata_filter sort_criteria : list string) : M (list DidlObject) :=
  fun log =>
    (async_browse_direct_children device log object_id metadata_filter
       sort_criteria,
     log ++ [(name device,
              BrowseDirectChildren object_id metadata_filter
                sort_criteria)]).

Definition DLNA_SORT_CRITERIA : list string :=
  ["+upnp:class"; "+upnp:originalTrackNumber"; "+dc:title"].

(** *** The registered servers: an insertion-ordered mapping *)

Definition Sources := list (string * DmsDevice).

(** [sources[key]]; [None] is a KeyError. *)
Fixpoint sources_get (sources : Sources) (key : string) : option DmsDevice :=
  match sources with
  | [] => None
  | (k, d) :: rest => if String.eqb k key then Some d else sources_get rest key
  end.

(** [next(iter(sources))] on a mapping known not to be empty. *)
Definition first_key (sources : Sources) : string :=
  match sources with
  | [] => EmptyString
  | (k, _) :: _ => k
  end.

Record PlayMedia := mkPlayMedia { url : string; mime_type : string }.

(** *** Object resolution *)

Definition _resource_mime_type (resource : Resource) : option string :=
  match protocol_info resource with
  | None => None                                 (* AttributeError *)
  | Some p => str_split ":"%char p !! 2%nat      (* IndexError *)
  end.

Definition _async_resolve_object (device : DmsDevice) (object_id : string)
  : M PlayMedia :=
  do item <- except_UpnpError
            (browse_metadata device object_id DLNA_RESOLVE_FILTER)
            (fun err =>
               raise (Unresolvable
                        ("Invalid object or server: " ++ exn_str err))) ;;
  match res item with
  | [] => raise (Unresolvable "Object has no resources")
  | resource :: _ =>
      let mime := _resource_mime_type resource in
      if negb (opt_str_truthy (uri resource)) || negb (opt_str_truthy mime)
      then raise (Unresolvable "Object resource has no URI or MIME type")
      else ret (mkPlayMedia (get_absolute_url device (uri resource))
                            (default EmptyString mime))
  end.

(** *** Path resolution *)

Definition dquote : string := String "034"%char EmptyString.

(** The f-string of [_async_resolve_path]. *)
Definition path_criteria (object_id node : string) : string :=
  "@parentID=" ++ dquote ++ object_id ++ dquote
    ++ " and dc:title=" ++ dquote ++ node ++ dquote.

(** The body of the [for node in ...] loop, over the nodes still to
    visit. *)
Fixpoint resolve_path_loop (device : DmsDevice) (path : string)
  (nodes : list string) (object_id : string) : M string :=
  match nodes with
  | [] => ret object_id
  | node :: rest =>
      do items <- except_UpnpError
                 (search_directory device object_id
                    (path_criteria object_id node) DLNA_BROWSE_FILTER)
                 (fun err =>
                    raise (Unresolvable
                             ("Path search failed: " ++ exn_str err))) ;;
      match items with
      | [] =>
          raise (Unresolvable
                   ("Nothing found for " ++ node ++ " in " ++ path))
      | [found] => resolve_path_loop device path rest (didl_id found)
      | _ :: _ :: _ =>
          raise (Unresolvable
                   ("Too many items found for " ++ node ++ " in " ++ path))
      end
  end.

Definition _async_resolve_path (device : DmsDevice) (path : string)
  : M string :=
  resolve_path_loop device path (str_split PATH_SEP path) ROOT_OBJECT_ID.

(** *** [DlnaDmsSource.async_resolve_media] *)

Definition async_resolve_media (sources : Sources) (item : MediaSourceItem)
  : M PlayMedia :=
  match sources with
  | [] => raise (Unresolvable "No servers available")
  | _ :: _ =>
      do parts <- lift (async_parse_identifier item) ;;
      let '(server_id, action, parameters) := parts in
      let server_id :=
        if negb (str_truthy server_id) then first_key sources
        else server_id in
      match sources_get sources server_id with
      | None => raise (Unresolvable "Unknown server")
      | Some device =>
          if String.eqb action ACTION_SEARCH then
            (* the class defines no _async_resolve_search *)
            raise (AttributeError "_async_resolve_search")
          else if String.eqb action ACTION_OBJECT then
            _async_resolve_object device parameters
          else if String.eqb action ACTION_PATH then
            do object_id <- _async_resolve_path device parameters ;;
            _async_resolve_object device object_id
          else
            raise (Unresolvable ("Invalid identifier " ++ identifier item))
      end
  end.

(** *** Browse nodes *)

(** [BrowseMediaSource] of the media-source package, with the fields the
    code sets. *)
#[warnings="-register-all"]
Inductive BrowseMediaSource := mkBrowse {
  bm_domain : string;
  bm_identifier : string;
  media_class : MpConst;
  media_content_type : option MpConst;
  bm_title : string;
  can_play : bool;
  can_expand : bool;
  children : option (list BrowseMediaSource);
  children_media_class : option MpConst;
  thumbnail : option string
}.

Definition set_title (t : string) (b : BrowseMediaSource)
  : BrowseMediaSource :=
  mkBrowse (bm_domain b) (bm_identifier b) (media_class b)
    (media_content_type b) t (can_play b) (can_expand b) (children b)
    (children_media_class b) (thumbnail b).

Definition set_children (c : option (list BrowseMediaSource))
  (b : BrowseMediaSource) : BrowseMediaSource :=
  mkBrowse (bm_domain b) (bm_identifier b) (media_class b)
    (media_content_type b) (bm_title b) (can_play b) (can_expand b) c
    (children_media_class b) (thumbnail b).

Definition set_children_media_class (c : option MpConst)
  (b : BrowseMediaSource) : BrowseMediaSource :=
  mkBrowse (bm_domain b) (bm_identifier b) (media_class b)
    (media_content_type b) (bm_title b) (can_play b) (can_expand b)
    (children b) c (thumbnail b).

(** A list comprehension whose element expression may raise: the first
    exception ends it. *)
Fixpoint comprehension {A B} (f : A -> result B) (l : list A)
  : result (list B) :=
  match l with
  | [] => Ok []
  | a :: rest =>
      do b <~ f a ;;
      do bs <~ comprehension f rest ;;
      Ok (b :: bs)
  end.

(** [DlnaDmsSource.name]. *)
Definition source_name : string := "DLNA Server".

(** [for server_id, device in ...] over a [str]: the target list takes
    the characters of the string, which must be exactly two. *)
Definition unpack_pair (key : string) : result (string * string) :=
  match key with
  | String c1 (String c2 EmptyString) =>
      Ok (String c1 EmptyString, String c2 EmptyString)
  | String _ (String _ (String _ _)) =>
      Raise (ValueError "too many values to unpack (expected 2)")
  | _ => Raise (ValueError "not enough values to unpack (expected 2)")
  end.

(** One element of the comprehension that lists the servers. Iterating
    the mapping yields its keys, so [device] is a one-character [str] and
    [title=device.name] cannot be evaluated. *)
Definition root_child (key : string) : result BrowseMediaSource :=
  do pair <~ unpack_pair key ;;
  let '(server_id, device) := pair in
  Raise (AttributeError "'str' object has no attribute 'name'").

(** The [base] node of [async_browse_media] with its children assigned. *)
Definition root_listing (sources : Sources) : result BrowseMediaSource :=
  let base :=
    mkBrowse DOMAIN EmptyString MEDIA_CLASS_DIRECTORY None source_name
      false true None (Some MEDIA_CLASS_DIRECTORY) None in
  do kids <~ comprehension root_child (map fst sources) ;;
  Ok (set_children (Some kids) base).

(** *** DIDL-Lite projection *)

(** The loop over [item.res] in [_didl_image_url]. *)
Fixpoint image_resource_url (device : DmsDevice) (resources : list Resource)
  : result (option string) :=
  match resources with
  | [] => Ok None
  | resource :: rest =>
      match protocol_info resource with
      | None => Raise (AttributeError "'NoneType' object has no attribute 'startswith'")
      | Some p =>
          if String.prefix "http-get:*:image/" p
          then Ok (Some (get_absolute_url device (uri resource)))
          else image_resource_url device rest
      end
  end.

Definition _didl_image_url (sources : Sources) (server_id : string)
  (item : DidlObject) : result (option string) :=
  match sources_get sources server_id with
  | None => Raise (KeyError server_id)
  | Some device =>
      match album_art_uri item with
      | Some art => Ok (Some (get_absolute_url device art))
      | None => image_resource_url device (res item)
      end
  end.

(** [item.child_count], an attribute that may be absent. *)
Definition get_child_count (item : DidlObject) : result PyVal :=
  match child_count item with
  | None => Raise (AttributeError "child_count")
  | Some v => Ok v
  end.

Definition is_AttributeError_or_ValueError (e : exn) : bool :=
  match e with
  | AttributeError _ | ValueError _ => true
  | _ => false
  end.

Section Projection.

(** [BrowseMedia.calculate_children_class] belongs to the media-player
    package: it assigns [children_media_class] and nothing else. The
    class it picks is a parameter. *)
Variable children_class_of : BrowseMediaSource -> option MpConst.

Definition calculate_children_class (b : BrowseMediaSource)
  : BrowseMediaSource :=
  set_children_media_class (children_class_of b) b.

(** [_didl_to_media_source] from the [try] on, [kids] being the value of
    [children] after the first [if]. *)
Definition didl_node (sources : Sources) (server_id : string)
  (item : DidlObject) (kids : option (list BrowseMediaSource))
  : result BrowseMediaSource :=
  do count <~ except_value
                (do v <~ get_child_count item ;; py_int v)
                is_AttributeError_or_ValueError 0%Z ;;
  let expand :=
    match kids with Some (_ :: _) => true | _ => false end
    || (0 <? count)%Z in
  do mclass <~ match MEDIA_CLASS_MAP (didl_type item) with
               | Some c => Ok c
               | None => Raise (KeyError "type(item)")
               end ;;
  do mtype <~ match MEDIA_TYPE_MAP !! upnp_class item with
              | Some c => Ok c
              | None => Raise (KeyError (upnp_class item))
              end ;;
  do thumb <~ _didl_image_url sources server_id item ;;
  Ok (calculate_children_class
        (mkBrowse DOMAIN (server_id ++ "/object/" ++ didl_id item)
           mclass (Some mtype) (title item)
           (match res item with [] => false | _ :: _ => true end)
           expand kids None thumb)).

(** [_didl_to_media_source]. The recursive call passes no children, so
    the recursion is one level deep. *)
Definition _didl_to_media_source (sources : Sources) (server_id : string)
  (item : DidlObject) (children : option (list DidlObject))
  : result BrowseMediaSource :=
  do kids <~ match children with
             | Some (c :: cs) =>
                 do l <~ comprehension
                           (fun child =>
                              didl_node sources server_id child None)
                           (c :: cs) ;;
                 Ok (Some l)
             | _ => Ok None
             end ;;
  didl_node sources server_id item kids.

Definition _async_browse_object (sources : Sources)
  (server_id object_id : string) : M BrowseMediaSource :=
  match sources_get sources server_id with
  | None => raise (KeyError server_id)
  | Some device =>
      do fetched <-
        except_UpnpError
          (do base_object <-
             browse_metadata device object_id DLNA_BROWSE_FILTER ;;
           do child_objects <-
             browse_direct_children device object_id DLNA_BROWSE_FILTER
               DLNA_SORT_CRITERIA ;;
           ret (base_object, child_objects))
          (fun err =>
             raise (BrowseError
                      ("Invalid object or server: " ++ exn_str err))) ;;
      lift (_didl_to_media_source sources server_id (fst fetched)
              (Some (snd fetched)))
  end.

(** [DlnaDmsSource.async_browse_media]. *)
Definition async_browse_media (sources : Sources) (item : MediaSourceItem)
  : M BrowseMediaSource :=
  match sources with
  | [] => raise (BrowseError "No servers available")
  | _ :: _ =>
      do parts <- lift (async_parse_identifier item) ;;
      let '(server_id, action, parameters) := parts in
      do _base <-
        (if negb (str_truthy server_id) && negb (str_truthy action)
            && (1 <? length sources)%nat
         then do base <- lift (root_listing sources) ;; ret (Some base)
         else ret None) ;;
      if String.eqb action ACTION_SEARCH then
        (* the class defines no _async_browse_search *)
        raise (AttributeError "_async_browse_search")
      else
        let server_id :=
          if negb (str_truthy server_id) then first_key sources
          else server_id in
        match sources_get sources server_id with
        | None => raise (BrowseError "Unknown server")
        | Some _ =>
            if negb (str_truthy action) then
              do media_source <-
                _async_browse_object sources server_id ROOT_OBJECT_ID ;;
              ret (set_title server_id media_source)
            else if String.eqb action ACTION_OBJECT then
              _async_browse_object sources server_id parameters
            else if String.eqb action ACTION_PATH then
              match sources_get sources server_id with
              | None => raise (KeyError server_id)
              | Some device =>
                  do object_id <- _async_resolve_path device parameters ;;
                  _async_browse_object sources server_id object_id
              end
            else
              raise (BrowseError
                       ("Invalid identifier " ++ identifier item))
        end
  end.

End Projection.

End MediaSource.

(** ** dlna_dmr/__init__.py and dlna_dmr/eventing.py: the notifier registry *)
Module Eventing.
Import Py.

(** [EventListenAddr], a named tuple: equality is component-wise. *)
Record EventListenAddr := mkAddr {
  ip : option string;
  port : option Z;
  callback_url_override : option string
}.

#[global] Instance EventListenAddr_eq_dec : EqDecision EventListenAddr.
Proof. solve_decision. Defined.

#[global] Instance EventListenAddr_countable : Countable EventListenAddr.
Proof.
  refine (inj_countable'
            (fun a => (ip a, port a, callback_url_override a))
            (fun t => mkAddr t.1.1 t.1.2 t.2) _).
  by intros [].
Defined.

(** An [AiohttpNotifyServer] object. [server_ref] is the identity of the
    object: every construction takes a fresh one. *)
Record AiohttpNotifyServer := mkServer {
  server_ref : nat;
  listen_port : Z;
  listen_host : option string;
  callback_url : option string
}.

(** The [UpnpEventHandler] a server owns, identified by its server. *)
Record UpnpEventHandler := mkHandler { handler_ref : nat }.

Definition event_handler (server : AiohttpNotifyServer) : UpnpEventHandler :=
  mkHandler (server_ref server).

(** The part of [DomainData] the registry uses, with what the process has
    done so far: [constructed] lists every server object built, in order
    ([start_server] is called on each right after its construction), and
    [stop_listeners] the keys whose shutdown callback was registered on
    the bus. *)
Record World := mkWorld {
  event_notifiers : gmap EventListenAddr AiohttpNotifyServer;
  next_ref : nat;
  constructed : list AiohttpNotifyServer;
  stop_listeners : list EventListenAddr
}.

(** [_create_domain_data]: both dicts start empty. *)
Definition initial_world : World := mkWorld ∅ 0 [] [].

(** What the [with] statement raises for an object that is no context
    manager. *)
Definition not_a_context_manager : exn :=
  TypeError "'Lock' object does not support the context manager protocol".

(** [with data_lock: body]. [data_lock] is [DomainData.lock], the
    [asyncio.Lock] that [_create_domain_data] builds. An [asyncio.Lock]
    is entered by [async with] only: the plain [with] statement finds no
    [__enter__] on it and raises, and [body] is not run. (Interpreters
    older than 3.11 raise AttributeError at the same place.) *)
Definition with_data_lock {S A : Type} (body : S -> result A * S)
  : S -> result A * S :=
  fun w => (Raise not_a_context_manager, w).

(** How the block under the lock ends: by the [return] in it, or by
    falling through with the server it has stored. *)
Inductive Locked :=
| Returned (handler : UpnpEventHandler)
| Stored (server : AiohttpNotifyServer).

Section Registry.

(** [server.start_server()]: whether binding succeeds is up to the
    operating system; [None] is success. It is told which servers were
    built before. *)
Variable start_server :
  list AiohttpNotifyServer -> AiohttpNotifyServer -> option exn.

(** The block of [async_get_or_create_event_notifier] under the lock. *)
Definition get_or_create_locked (listen_addr : EventListenAddr) (w : World)
  : result Locked * World :=
  match event_notifiers w !! listen_addr with
  | Some server => (Ok (Returned (event_handler server)), w)
  | None =>
      let server :=
        mkServer (next_ref w)
          (match port listen_addr with
           | Some p => if (p =? 0)%Z then 0%Z else p
           | None => 0%Z
           end)
          (ip listen_addr) (callback_url_override listen_addr) in
      let built := constructed w ++ [server] in
      match start_server (constructed w) server with
      | Some e =>
          (Raise e,
           mkWorld (event_notifiers w) (S (next_ref w)) built
             (stop_listeners w))
      | None =>
          (Ok (Stored server),
           mkWorld (<[listen_addr := server]> (event_notifiers w))
             (S (next_ref w)) built (stop_listeners w))
      end
  end.

(** [async_get_or_create_event_notifier]. Past the block, the closure
    [async_stop_server] is registered for the key. *)
Definition async_get_or_create_event_notifier
  (listen_ip : option string) (listen_port : option Z)
  (callback_url_override : option string) (w : World)
  : result UpnpEventHandler * World :=
  let listen_addr := mkAddr listen_ip listen_port callback_url_override in
  match with_data_lock (get_or_create_locked listen_addr) w with
  | (Raise e, w') => (Raise e, w')
  | (Ok (Returned handler), w') => (Ok handler, w')
  | (Ok (Stored server), w') =>
      (Ok (event_handler server),
       mkWorld (event_notifiers w') (next_ref w') (constructed w')
         (stop_listeners w' ++ [listen_addr]))
  end.

(** A series of calls, one per key, whatever each of them returns or
    raises. *)
Definition run_calls (keys : list EventListenAddr) (w : World) : World :=
  fold_left
    (fun w k =>
       snd (async_get_or_create_event_notifier (ip k) (port k)
              (callback_url_override k) w))
    keys w.

End Registry.

End Eventing.

(** ** dlna_dmr/media_player.py: the renderer entity *)
Module MediaPlayer.
Import Py.

(** Times are counted in microseconds, the resolution of [datetime]:
    a [datetime] from the epoch (UTC), a [timedelta] as a difference. *)
Definition datetime := Z.
Definition timedelta := Z.

(** Division of a [timedelta] rounds to the nearest microsecond, ties to
    the even one ([b] positive). *)
Definition divide_and_round (a b : Z) : Z :=
  let q := (a / b)%Z in
  let r := (a mod b)%Z in
  if (b <? 2 * r)%Z then (q + 1)%Z
  else if (2 * r =? b)%Z then (if Z.even q then q else (q + 1)%Z)
  else q.

Definition timedelta_truediv (t : timedelta) (n : Z) : timedelta :=
  divide_and_round t n.

(** [DeviceState] of async_upnp_client. *)
Inductive DeviceState := ON | PLAYING | PAUSED | IDLE.

(** Home Assistant's state strings. *)
Inductive HaState :=
| STATE_IDLE | STATE_OFF | STATE_ON | STATE_PAUSED | STATE_PLAYING.

(** The coroutines of [DmrDevice] the entity awaits. *)
Inductive Call :=
| Update
| SubscribeServices
| SetVolumeLevel (volume : Q)
| MuteVolume (desired_mute : bool)
| Pause
| Play
| Stop
| SeekRelTime (time : timedelta)
| SetTransportUri (media_url media_title : string)
| WaitForCanPlay
| Previous
| Next.

(** The interface of a [DmrDevice] together with the wall clock and the
    constructor of [timedelta]. [D] is the state of the world outside the
    entity: a property reads it, a coroutine and a reading of the clock
    may change it. [timedelta(seconds=position)] goes through floating
    point and raises OverflowError out of its range; what it gives for a
    position is left to the instance. The laws at the end are the
    library's: a command can be sent now only if the device declares the
    action. *)
Class DmrDevice (D : Type) := {
  has_volume_level : D -> bool;
  has_volume_mute : D -> bool;
  has_play : D -> bool;
  has_pause : D -> bool;
  has_stop : D -> bool;
  has_previous : D -> bool;
  has_next : D -> bool;
  has_play_media : D -> bool;
  has_seek_rel_time : D -> bool;
  can_pause : D -> bool;
  can_play : D -> bool;
  can_stop : D -> bool;
  can_seek_rel_time : D -> bool;
  can_previous : D -> bool;
  can_next : D -> bool;
  device_state : D -> option DeviceState;
  (** every coroutine but the subscription returns nothing *)
  await : Call -> D -> result unit * D;
  async_subscribe_services : D -> result timedelta * D;
  utcnow : D -> datetime * D;
  timedelta_of_seconds : Q -> result timedelta;
  can_pause_has : forall d, can_pause d = true -> has_pause d = true;
  can_play_has : forall d, can_play d = true -> has_play d = true;
  can_stop_has : forall d, can_stop d = true -> has_stop d = true;
  can_seek_rel_time_has :
    forall d, can_seek_rel_time d = true -> has_seek_rel_time d = true;
  can_previous_has : forall d, can_previous d = true -> has_previous d = true;
  can_next_has : forall d, can_next d = true -> has_next d = true
}.

Inductive Level := DEBUG | ERROR.

(** The attributes of [DlnaDmrEntity] that change. *)
Record Entity := mkEntity {
  _available : bool;
  _subscription_renew_time : option datetime
}.

(** [DlnaDmrEntity.__init__]. *)
Definition new_entity : Entity := mkEntity false None.

Section Entity.
Context {D : Type} `{DmrDevice D}.

(** The entity, the world around it, the calls sent to the device so
    far and what was written to the logger. *)
Record State := mkState {
  entity : Entity;
  device : D;
  calls : list Call;
  logger : list (Level * string)
}.

Definition P (A : Type) : Type := State -> result A * State.

Definition ret {A} (a : A) : P A := fun s => (Ok a, s).
Definition bind {A B} (m : P A) (k : A -> P B) : P B :=
  fun s =>
    match m s with
    | (Ok a, s') => k a s'
    | (Raise e, s') => (Raise e, s')
    end.

Notation "'do' x <- m ;; k" := (bind m (fun x => k))
  (at level 10, x name, m at level 99, k at level 200, only parsing).
Notation "m ;;; k" := (bind m (fun _ => k))
  (at level 99, k at level 200, only parsing, right associativity).

(** A computation that calls no device. *)
Definition lift {A} (r : result A) : P A := fun s => (r, s).

(** Reading a property of [self._device]. *)
Definition prop {A} (f : D -> A) : P A := fun s => (Ok (f (device s)), s).

(** The state with one more line in the logger. *)
Definition add_log (l : Level) (msg : string) (s : State) : State :=
  mkState (entity s) (device s) (calls s) (logger s ++ [(l, msg)]).

(** The state after [self._available = b]. *)
Definition mark_available (b : bool) (s : State) : State :=
  mkState (mkEntity b (_subscription_renew_time (entity s)))
    (device s) (calls s) (logger s).

(** The state after [self._subscription_renew_time = t]. *)
Definition with_renew_time (t : option datetime) (s : State) : State :=
  mkState (mkEntity (_available (entity s)) t)
    (device s) (calls s) (logger s).

Definition log (l : Level) (msg : string) : P unit :=
  fun s => (Ok tt, add_log l msg s).

(** [await self._device.<coroutine>(...)]. *)
Definition call (c : Call) : P unit :=
  fun s =>
    let (r, d) := await c (device s) in
    (r, mkState (entity s) d (calls s ++ [c]) (logger s)).

Definition subscribe_services : P timedelta :=
  fun s =>
    let (r, d) := async_subscribe_services (device s) in
    (r, mkState (entity s) d (calls s ++ [SubscribeServices]) (logger s)).

Definition now : P datetime :=
  fun s =>
    let (t, d) := utcnow (device s) in
    (Ok t, mkState (entity s) d (calls s) (logger s)).

Definition get_entity : P Entity := fun s => (Ok (entity s), s).

Definition set_available (b : bool) : P unit :=
  fun s => (Ok tt, mark_available b s).

Definition set_subscription_renew_time (t : option datetime) : P unit :=
  fun s => (Ok tt, with_renew_time t s).

(** [isinstance(e, (asyncio.TimeoutError, aiohttp.ClientError))]. *)
Definition is_request_error (e : exn) : bool :=
  match e with
  | Lib x => is_TimeoutError x || is_ClientError x
  | _ => false
  end.

(** [try: body  except (asyncio.TimeoutError, aiohttp.ClientError):
    handler]. *)
Definition except_request_errors {A} (body : P A) (handler : P A) : P A :=
  fun s =>
    match body s with
    | (Raise e, s') =>
        if is_request_error e then handler s' else (Raise e, s')
    | other => other
    end.

(** The decorator [catch_request_errors()], applied to the method named
    [func_name]. *)
Definition catch_request_errors (func_name : string) (func : P unit)
  : P unit :=
  except_request_errors func
    (log ERROR ("Error during call " ++ func_name)).

(** *** Commands *)

Definition async_set_volume_level (volume : Q) : P unit :=
  catch_request_errors "async_set_volume_level"
    (call (SetVolumeLevel volume)).

Definition async_mute_volume (mute : bool) : P unit :=
  catch_request_errors "async_mute_volume"
    (let desired_mute := mute in call (MuteVolume desired_mute)).

Definition async_media_pause : P unit :=
  catch_request_errors "async_media_pause"
    (do ok <- prop can_pause ;;
     if negb ok then log DEBUG "Cannot do Pause" else call Pause).

Definition async_media_play : P unit :=
  catch_request_errors "async_media_play"
    (do ok <- prop can_play ;;
     if negb ok then log DEBUG "Cannot do Play" else call Play).

Definition async_media_stop : P unit :=
  catch_request_errors "async_media_stop"
    (do ok <- prop can_stop ;;
     if negb ok then log DEBUG "Cannot do Stop" else call Stop).

Definition async_media_seek (position : Q) : P unit :=
  catch_request_errors "async_media_seek"
    (do ok <- prop can_seek_rel_time ;;
     if negb ok then log DEBUG "Cannot do Seek/rel_time"
     else
       do time <- lift (timedelta_of_seconds position) ;;
       call (SeekRelTime time)).

(** [kwargs] is the text of the keyword arguments, as [%s] prints the
    dict. *)
Definition async_play_media (media_type media_id kwargs : string)
  : P unit :=
  catch_request_errors "async_play_media"
    (log DEBUG ("Playing media: " ++ media_type ++ ", " ++ media_id
                ++ ", " ++ kwargs) ;;;
     let title := "Home Assistant" in
     do stoppable <- prop can_stop ;;
     (if stoppable then async_media_stop else ret tt) ;;;
     call (SetTransportUri media_id title) ;;;
     call WaitForCanPlay ;;;
     do st <- prop device_state ;;
     match st with
     | Some PLAYING => ret tt
     | _ => async_media_play
     end).

Definition async_media_previous_track : P unit :=
  catch_request_errors "async_media_previous_track"
    (do ok <- prop can_previous ;;
     if negb ok then log DEBUG "Cannot do Previous" else call Previous).

Definition async_media_next_track : P unit :=
  catch_request_errors "async_media_next_track"
    (do ok <- prop can_next ;;
     if negb ok then log DEBUG "Cannot do Next" else call Next).

(** *** Refresh *)

(** The inner [try] of [async_update]: subscribe, then store half of the
    granted time from the time read afterwards. *)
Definition resubscribe : P unit :=
  except_request_errors
    (do timeout <- subscribe_services ;;
     do t' <- now ;;
     set_subscription_renew_time
       (Some (t' + timedelta_truediv timeout 2)%Z))
    (set_available false ;;; log DEBUG "Could not (re)subscribe").

(** [async_update]. *)
Definition async_update : P unit :=
  do e <- get_entity ;;
  let was_available := _available e in
  do updated <-
    except_request_errors
      (call Update ;;; set_available true ;;; ret true)
      (set_available false ;;; log DEBUG "Device unavailable" ;;;
       ret false) ;;
  if negb updated then ret tt
  else
    do t <- now ;;
    do e <- get_entity ;;
    let should_renew :=
      match _subscription_renew_time e with
      | Some renew => (renew <=? t)%Z
      | None => false
      end in
    if should_renew || (negb was_available && _available e) then resubscribe
    else ret tt.

(** The property [state]. *)
Definition state (s : State) : HaState :=
  if negb (_available (entity s)) then STATE_OFF
  else
    match device_state (device s) with
    | None => STATE_ON
    | Some PLAYING => STATE_PLAYING
    | Some PAUSED => STATE_PAUSED
    | Some _ => STATE_IDLE
    end.

(** The renderer commands, by name. *)
Inductive Command :=
| SetVolume (volume : Q)
| Mute (mute : bool)
| MediaPause
| MediaPlay
| MediaStop
| SeekRelative (position : Q)
| PlayMedia (media_type media_id kwargs : string)
| PreviousTrack
| NextTrack.

Definition invoke (c : Command) : P unit :=
  match c with
  | SetVolume v => async_set_volume_level v
  | Mute m => async_mute_volume m
  | MediaPause => async_media_pause
  | MediaPlay => async_media_play
  | MediaStop => async_media_stop
  | SeekRelative p => async_media_seek p
  | PlayMedia t i k => async_play_media t i k
  | PreviousTrack => async_media_previous_track
  | NextTrack => async_media_next_track
  end.

(** The property a command reads before it sends anything, for the
    commands that read one. *)
Definition gate (c : Command) : option (D -> bool) :=
  match c with
  | MediaPause => Some can_pause
  | MediaPlay => Some can_play
  | MediaStop => Some can_stop
  | SeekRelative _ => Some can_seek_rel_time
  | PreviousTrack => Some can_previous
  | NextTrack => Some can_next
  | SetVolume _ | Mute _ | PlayMedia _ _ _ => None
  end.

(** A result that is a timeout or a transport error reaching the caller. *)
Definition raises_request_error {A} (r : result A) : bool :=
  match r with
  | Raise e => is_request_error e
  | Ok _ => false
  end.

(** *** Refresh, step by step

    Names for the stages of [async_update], used to state what it does. *)

(** The fetch of the device state succeeded. *)
Definition update_ok (s : State) : bool := is_ok (fst (call Update s)).

(** The state in which [async_update] decides about the subscription: the
    device was updated, the entity is available, the clock was read. *)
Definition after_update (s : State) : State :=
  snd (now (snd (set_available true (snd (call Update s))))).

(** The time read at that point. *)
Definition refresh_time (s : State) : datetime :=
  fst (utcnow (device (snd (set_available true (snd (call Update s)))))).

(** A renewal time is stored and the time read has reached it. *)
Definition renewal_due (s : State) : bool :=
  match _subscription_renew_time (entity s) with
  | Some renew => (renew <=? refresh_time s)%Z
  | None => false
  end.

(** The entity was unavailable when the refresh began. *)
Definition came_back (s : State) : bool := negb (_available (entity s)).

(** [grows m]: running [m] appends to the list of calls. *)
Definition grows {A} (m : P A) : Prop :=
  forall s, exists more, calls (snd (m s)) = calls s ++ more.

(** The capability that [supported_features] reports for a command. *)
Definition declared (c : Command) (d : D) : bool :=
  match c with
  | SetVolume _ => has_volume_level d
  | Mute _ => has_volume_mute d
  | MediaPause => has_pause d
  | MediaPlay => has_play d
  | MediaStop => has_stop d
  | SeekRelative _ => has_seek_rel_time d
  | PlayMedia _ _ _ => has_play_media d
  | PreviousTrack => has_previous d
  | NextTrack => has_next d
  end.

End Entity.

Arguments State D : clear implicits.
Arguments P D A : clear implicits.

End MediaPlayer.

(** ** The resolver as the specification words it

    Second definitions, written from the prose and compared below with the
    ones taken from the code. *)
Module ResolverSpec.
Import Py DmsConst Didl MediaSource.

(** The MIME type of a resource is field 2 of its protocol-info cut at
    colons; a missing protocol-info or one of fewer than three fields
    gives none. *)
Definition mime_field (info : option string) : option string :=
  match info with
  | None => None
  | Some p =>
      match str_split ":"%char p with
      | _ :: _ :: m :: _ => Some m
      | _ => None
      end
  end.

(** The child count an object declares, a missing or unparseable one
    counting as zero. *)
Definition declared_child_count (item : DidlObject) : Z :=
  match child_count item with
  | Some (PyInt z) => z
  | Some (PyStr text) => default 0%Z (int_of_str text)
  | Some PyNone | None => 0%Z
  end.

(** [@parentID="<current>" and dc:title="<segment>"], the quotes being
    the character 34 and nothing being escaped. *)
Definition criteria_text (current segment : string) : string :=
  String.concat EmptyString
    ["@parentID="; dquote; current; dquote; " and dc:title="; dquote;
     segment; dquote].

(** The log after one directory search under [current] for [segment]. *)
Definition searched (device : DmsDevice) (log : Log)
  (current segment : string) : Log :=
  log ++ [(name device,
           SearchDirectory current (criteria_text current segment)
             DLNA_BROWSE_FILTER)].

(** What the device answers to that search. *)
Definition answer (device : DmsDevice) (log : Log)
  (current segment : string) : result (list DidlObject) :=
  async_search_directory device log current
    (criteria_text current segment) DLNA_BROWSE_FILTER.

(** [PathWalk device path segments current log outcome log']: walking
    the remaining [segments] from object [current] ends in [outcome],
    the log having grown from [log] to [log']. One search is issued per
    segment visited; the walk stops at the first segment whose search
    does not return exactly one item. *)
Inductive PathWalk (device : DmsDevice) (path : string)
  : list string -> string -> Log -> result string -> Log -> Prop :=
| walk_end current log :
    PathWalk device path [] current log (Ok current) log
| walk_one segment rest current log found outcome log' :
    answer device log current segment = Ok [found] ->
    PathWalk device path rest (didl_id found)
      (searched device log current segment) outcome log' ->
    PathWalk device path (segment :: rest) current log outcome log'
| walk_nothing segment rest current log :
    answer device log current segment = Ok [] ->
    PathWalk device path (segment :: rest) current log
      (Raise (Unresolvable
                ("Nothing found for " ++ segment ++ " in " ++ path)))
      (searched device log current segment)
| walk_too_many segment rest current log x y more :
    answer device log current segment = Ok (x :: y :: more) ->
    PathWalk device path (segment :: rest) current log
      (Raise (Unresolvable
                ("Too many items found for " ++ segment ++ " in " ++ path)))
      (searched device log current segment)
| walk_search_failed segment rest current log err :
    answer device log current segment = Raise (Lib err) ->
    is_UpnpError err = true ->
    PathWalk device path (segment :: rest) current log
      (Raise (Unresolvable ("Path search failed: " ++ exn_str err)))
      (searched device log current segment)
| walk_other_error segment rest current log e :
    answer device log current segment = Raise e ->
    (forall err, e = Lib err -> is_UpnpError err = false) ->
    PathWalk device path (segment :: rest) current log (Raise e)
      (searched device log current segment).

End ResolverSpec.

(** ** Test doubles

    Small concrete devices on which the definitions above are run. *)
Module Fixtures.
Import Py DmsConst Identifier Didl DmsTables MediaSource.

(** One entry of a mock content directory. *)
Record Entry := mkEntry {
  e_parent : string;
  e_title : string;
  e_object : DidlObject
}.

Definition track (ident title : string) (resources : list Resource)
  : DidlObject :=
  mkDidl MusicTrack ident "object.item.audioItem.musicTrack" title None
    resources None.

Definition folder (ident title : string) (count : option PyVal)
  : DidlObject :=
  mkDidl StorageFolder ident "object.container.storageFolder" title count
    [] None.

(** A server that answers from a fixed directory, whatever happened
    before. A search matches on the criteria string it is sent. *)
Definition directory_device (dev_name base_url : string)
  (entries : list Entry) : DmsDevice :=
  mkDms dev_name None
    (fun u => base_url +:+ default EmptyString u)
    (fun _ object_id _ =>
       match filter (fun e => String.eqb (didl_id (e_object e)) object_id)
               entries with
       | e :: _ => Ok (e_object e)
       | [] =>
           Raise (Lib (mkLibExn true false false "No such object"))
       end)
    (fun _ object_id criteria _ =>
       Ok (map e_object
             (filter (fun e =>
                        String.eqb criteria
                          (path_criteria (e_parent e) (e_title e))
                        && String.eqb object_id (e_parent e))
                entries)))
    (fun _ object_id _ _ =>
       Ok (map e_object
             (filter (fun e => String.eqb (e_parent e) object_id)
                entries))).

Definition mp3 : Resource :=
  mkResource (Some "/media/song.mp3") (Some "http-get:*:audio/mpeg:*").

(** Root "0" holds "Music" (object "5"), two folders both titled "Dup",
    and a folder whose child count the server did not send. *)
Definition library : list Entry := [
  mkEntry "-1" "root" (folder "0" "root" (Some (PyStr "4")));
  mkEntry "0" "Music" (folder "5" "Music" (Some (PyStr "1")));
  mkEntry "0" "Dup" (folder "6" "Dup" (Some (PyStr "0")));
  mkEntry "0" "Dup" (folder "7" "Dup" (Some (PyStr "0")));
  mkEntry "0" "Bare" (folder "8" "Bare" (Some PyNone));
  mkEntry "5" "Song" (track "9" "Song" [mp3]);
  mkEntry "5" "Silent" (track "10" "Silent" [])
].

Definition nas : DmsDevice :=
  directory_device "NAS" "http://192.0.2.10:8200" library.

Definition laptop : DmsDevice :=
  directory_device "Laptop" "http://192.0.2.11:8200" [].

Definition one_server : Sources := [("nas", nas)].
Definition two_servers : Sources := [("nas", nas); ("laptop", laptop)].

(** No preference among the children's classes. *)
Definition no_children_class (b : BrowseMediaSource) : option MpConst :=
  None.

End Fixtures.

(** Doubles for the notifier registry. *)
Module EventingFixtures.
Import Py Eventing.

(** Every bind succeeds. *)
Definition always_binds
  (before : list AiohttpNotifyServer) (server : AiohttpNotifyServer)
  : option exn := None.

Definition lan : EventListenAddr := mkAddr (Some "192.0.2.1") (Some 8301%Z) None.

End EventingFixtures.

(** Doubles for the renderer. *)
Module RendererFixtures.
Import Py MediaPlayer.

(** A renderer that declares either every action or none, answers every
    coroutine the same way, and whose clock advances by one second with
    each coroutine. *)
Record Mock := mkMock {
  m_capable : bool;
  m_failure : option LibExn;
  m_clock : datetime;
  m_granted : timedelta
}.

Definition tick (d : Mock) : Mock :=
  mkMock (m_capable d) (m_failure d) (m_clock d + 1000000)%Z (m_granted d).

#[global] Instance Mock_device : DmrDevice Mock := {|
  has_volume_level := m_capable;
  has_volume_mute := m_capable;
  has_play := m_capable;
  has_pause := m_capable;
  has_stop := m_capable;
  has_previous := m_capable;
  has_next := m_capable;
  has_play_media := m_capable;
  has_seek_rel_time := m_capable;
  can_pause := m_capable;
  can_play := m_capable;
  can_stop := m_capable;
  can_seek_rel_time := m_capable;
  can_previous := m_capable;
  can_next := m_capable;
  device_state := fun _ => None;
  await := fun _ d =>
    (match m_failure d with Some e => Raise (Lib e) | None => Ok tt end,
     tick d);
  async_subscribe_services := fun d =>
    (match m_failure d with
     | Some e => Raise (Lib e)
     | None => Ok (m_granted d)
     end, tick d);
  utcnow := fun d => (m_clock d, d);
  timedelta_of_seconds := fun position =>
    Ok (divide_and_round (Qnum position * 1000000) (Zpos (Qden position)));
  can_pause_has := fun d capable => capable;
  can_play_has := fun d capable => capable;
  can_stop_has := fun d capable => capable;
  can_seek_rel_time_has := fun d capable => capable;
  can_previous_has := fun d capable => capable;
  can_next_has := fun d capable => capable
|}.

Definition timed_out : LibExn := mkLibExn false true false "timed out".

Definition half_hour : timedelta := (1800 * 1000000)%Z.

(** A fresh entity in front of a device. *)
Definition fresh (d : Mock) : State Mock := mkState new_entity d [] [].

Definition bare_renderer : Mock := mkMock false None 0%Z half_hour.
Definition full_renderer : Mock := mkMock true None 0%Z half_hour.
Definition unreachable_renderer : Mock :=
  mkMock true (Some timed_out) 0%Z half_hour.

(** An available entity whose renewal time has passed, in front of a
    renderer that times out. *)
Definition overdue_unreachable : State Mock :=
  mkState (mkEntity true (Some 0%Z))
    (mkMock true (Some timed_out) 5000000%Z half_hour) [] [].

End RendererFixtures.

(** ** Words for the properties of the media source *)
Module MediaSourceWords.
Import Py DmsConst Didl MediaSource.

(** A resource served over HTTP whose content format is an image. *)
Definition is_image_resource (resource : Resource) : bool :=
  match protocol_info resource with
  | Some info => String.prefix "http-get:*:image/" info
  | None => false
  end.

(** The entries of the log for the two requests of a browse. *)
Definition metadata_request (device : DmsDevice) (object_id : string)
  : string * Call :=
  (name device, BrowseMetadata object_id DLNA_BROWSE_FILTER).

Definition children_request (device : DmsDevice) (object_id : string)
  : string * Call :=
  (name device,
   BrowseDirectChildren object_id DLNA_BROWSE_FILTER DLNA_SORT_CRITERIA).

(** How [_async_browse_object] hands on an exception of the device. *)
Definition as_browse_error (e : exn) : exn :=
  match e with
  | Lib err =>
      if is_UpnpError err
      then BrowseError ("Invalid object or server: " ++ exn_str err)
      else e
  | _ => e
  end.

End MediaSourceWords.

(** A second server, every object of which can be projected. *)
Module BrowseFixtures.
Import Py DmsConst Identifier Didl DmsTables MediaSource Fixtures.

Definition cover : Resource :=
  mkResource (Some "/art/cover.jpg") (Some "http-get:*:image/jpeg:*").

Definition album : DidlObject :=
  mkDidl MusicAlbum "20" "object.container.album.musicAlbum" "Blue"
    (Some (PyStr "2")) [mp3; cover] None.

Definition shelf : list Entry := [
  mkEntry "-1" "root" (folder "0" "root" (Some (PyStr "1")));
  mkEntry "0" "Blue" album;
  mkEntry "20" "One" (track "21" "One" [mp3]);
  mkEntry "20" "Two" (track "22" "Two" [])
].

Definition den : DmsDevice :=
  directory_device "Den" "http://192.0.2.12:8200" shelf.

Definition den_only : Sources := [("den", den)].

End BrowseFixtures.

(** ** dlna_dmr/eventing.py: the device updaters *)
Module DeviceUpdaters.
Import Py.

Section Registry.

(** The addresses of the interfaces ([IPv4Address], [IPv6Address]); all
    the registry needs of them is equality and hashing. *)
Context {Ip : Type} `{Countable Ip}.

(** A [DeviceUpdater] object: its identity and the [source_ip] it was
    built with. *)
Record DeviceUpdater := mkUpdater {
  updater_ref : nat;
  source_ip : option Ip
}.

(** [DomainData.device_updaters] with the updaters built so far. *)
Record World := mkWorld {
  device_updaters : gmap (option Ip) DeviceUpdater;
  next_ref : nat;
  constructed : list DeviceUpdater
}.

Definition initial_world : World := mkWorld ∅ 0 [].

(** [updater.async_start()]; [None] is success. *)
Variable async_start : list DeviceUpdater -> DeviceUpdater -> option exn.

(** How the block under the lock ends: by the [return] in it, or by
    falling through with the updater it has stored. *)
Inductive Locked :=
| Returned (updater : DeviceUpdater)
| Stored (updater : DeviceUpdater).

(** The block of [async_get_or_create_device_updater] under the lock. *)
Definition get_or_create_locked (listen_ip : option Ip) (w : World)
  : result Locked * World :=
  match device_updaters w !! listen_ip with
  | Some updater => (Ok (Returned updater), w)
  | None =>
      let updater := mkUpdater (next_ref w) listen_ip in
      let built := constructed w ++ [updater] in
      match async_start (constructed w) updater with
      | Some e =>
          (Raise e, mkWorld (device_updaters w) (S (next_ref w)) built)
      | None =>
          (Ok (Stored updater),
           mkWorld (<[listen_ip := updater]> (device_updaters w))
             (S (next_ref w)) built)
      end
  end.

(** [async_get_or_create_device_updater]. The block runs under
    [with data_lock:], the same [asyncio.Lock]. The closure
    [async_stop_server] defined past the block is registered nowhere. *)
Definition async_get_or_create_device_updater
  (listen_ip : option Ip) (w : World) : result DeviceUpdater * World :=
  match Eventing.with_data_lock (get_or_create_locked listen_ip) w with
  | (Raise e, w') => (Raise e, w')
  | (Ok (Returned updater), w') => (Ok updater, w')
  | (Ok (Stored updater), w') => (Ok updater, w')
  end.

(** A series of calls, one per address. *)
Definition run_calls (ips : list (option Ip)) (w : World) : World :=
  fold_left (fun w ip => snd (async_get_or_create_device_updater ip w)) ips w.

End Registry.

Arguments DeviceUpdater Ip : clear implicits.
Arguments World Ip {_ _}.

End DeviceUpdaters.

(** ** Words for the properties of the renderer entity *)
Module RendererWords.
Import Py MediaPlayer.

Section Entity.
Context {D : Type} `{DmrDevice D}.

(** [keeps_entity m]: running [m] leaves the attributes of the entity as
    they were. *)
Definition keeps_entity {A} (m : P D A) : Prop :=
  forall s, entity (snd (m s)) = entity s.

(** What play_media sends to a device [d] once it is past the stop: the
    transport URI with the title "Home Assistant"; if that returned, the
    wait until the device can play; and if that returned too, Play,
    unless the device then reports PLAYING or cannot play. *)
Definition queued_calls (media_id : string) (d : D) : list Call :=
  let set_uri := SetTransportUri media_id "Home Assistant" in
  match await set_uri d with
  | (Raise _, _) => [set_uri]
  | (Ok _, d1) =>
      match await WaitForCanPlay d1 with
      | (Raise _, _) => [set_uri; WaitForCanPlay]
      | (Ok _, d2) =>
          match device_state d2 with
          | Some PLAYING => [set_uri; WaitForCanPlay]
          | _ =>
              if can_play d2 then [set_uri; WaitForCanPlay; Play]
              else [set_uri; WaitForCanPlay]
          end
      end
  end.

(** What play_media sends to a device [d]: Stop first when the device can
    stop; nothing more when the stop raised anything but a timeout or a
    transport error; else the calls above, to the device as the stop
    left it. *)
Definition play_media_calls (media_id : string) (d : D) : list Call :=
  if can_stop d then
    match await Stop d with
    | (Ok _, d1) => Stop :: queued_calls media_id d1
    | (Raise e, d1) =>
        if is_request_error e then Stop :: queued_calls media_id d1
        else [Stop]
    end
  else queued_calls media_id d.

End Entity.

(** A renderer that is always playing: it declares and allows every
    action, every coroutine returns normally, and its state is PLAYING. *)
Record Jukebox := mkJukebox { j_clock : datetime }.

#[global] Instance Jukebox_device : DmrDevice Jukebox := {|
  has_volume_level := fun _ => true;
  has_volume_mute := fun _ => true;
  has_play := fun _ => true;
  has_pause := fun _ => true;
  has_stop := fun _ => true;
  has_previous := fun _ => true;
  has_next := fun _ => true;
  has_play_media := fun _ => true;
  has_seek_rel_time := fun _ => true;
  can_pause := fun _ => true;
  can_play := fun _ => true;
  can_stop := fun _ => true;
  can_seek_rel_time := fun _ => true;
  can_previous := fun _ => true;
  can_next := fun _ => true;
  device_state := fun _ => Some PLAYING;
  await := fun _ d => (Ok tt, d);
  async_subscribe_services := fun d => (Ok 1800000000%Z, d);
  utcnow := fun d => (j_clock d, d);
  timedelta_of_seconds := fun position =>
    Ok (divide_and_round (Qnum position * 1000000) (Zpos (Qden position)));
  can_pause_has := fun d capable => capable;
  can_play_has := fun d capable => capable;
  can_stop_has := fun d capable => capable;
  can_seek_rel_time_has := fun d capable => capable;
  can_previous_has := fun d capable => capable;
  can_next_has := fun d capable => capable
|}.

End RendererWords.

(** ** dlna_dmr/media_player.py: the advertised features *)
Module Features.
Import Py MediaPlayer.

(** The flags of homeassistant/components/media_player/const.py: each is
    one bit of the value [supported_features] returns. *)
Definition SUPPORT_PAUSE : Z := 1.
Definition SUPPORT_SEEK : Z := 2.
Definition SUPPORT_VOLUME_SET : Z := 4.
Definition SUPPORT_VOLUME_MUTE : Z := 8.
Definition SUPPORT_PREVIOUS_TRACK : Z := 16.
Definition SUPPORT_NEXT_TRACK : Z := 32.
Definition SUPPORT_TURN_ON : Z := 128.
Definition SUPPORT_TURN_OFF : Z := 256.
Definition SUPPORT_PLAY_MEDIA : Z := 512.
Definition SUPPORT_VOLUME_STEP : Z := 1024.
Definition SUPPORT_SELECT_SOURCE : Z := 2048.
Definition SUPPORT_STOP : Z := 4096.
Definition SUPPORT_CLEAR_PLAYLIST : Z := 8192.
Definition SUPPORT_PLAY : Z := 16384.
Definition SUPPORT_SHUFFLE_SET : Z := 32768.
Definition SUPPORT_SELECT_SOUND_MODE : Z := 65536.

(** The flags of that file the entity never names. *)
Definition other_flags : list Z :=
  [SUPPORT_TURN_ON; SUPPORT_TURN_OFF; SUPPORT_VOLUME_STEP;
   SUPPORT_SELECT_SOURCE; SUPPORT_CLEAR_PLAYLIST; SUPPORT_SHUFFLE_SET;
   SUPPORT_SELECT_SOUND_MODE].

Section Entity.
Context {D : Type} `{DmrDevice D}.

(** [x |= flag] under [if condition:]. *)
Definition or_if (condition : bool) (x flag : Z) : Z :=
  if condition then Z.lor x flag else x.

(** The property [DlnaDmrEntity.supported_features]. *)
Definition supported_features (d : D) : Z :=
  let supported_features := 0%Z in
  let supported_features :=
    or_if (has_volume_level d) supported_features SUPPORT_VOLUME_SET in
  let supported_features :=
    or_if (has_volume_mute d) supported_features SUPPORT_VOLUME_MUTE in
  let supported_features :=
    or_if (has_play d) supported_features SUPPORT_PLAY in
  let supported_features :=
    or_if (has_pause d) supported_features SUPPORT_PAUSE in
  let supported_features :=
    or_if (has_stop d) supported_features SUPPORT_STOP in
  let supported_features :=
    or_if (has_previous d) supported_features SUPPORT_PREVIOUS_TRACK in
  let supported_features :=
    or_if (has_next d) supported_features SUPPORT_NEXT_TRACK in
  let supported_features :=
    or_if (has_play_media d) supported_features SUPPORT_PLAY_MEDIA in
  let supported_features :=
    or_if (has_seek_rel_time d) supported_features SUPPORT_SEEK in
  supported_features.

(** The flag under which Home Assistant offers a command; a caller tests
    [features & flag]. *)
Definition flag_of (c : Command) : Z :=
  match c with
  | SetVolume _ => SUPPORT_VOLUME_SET
  | Mute _ => SUPPORT_VOLUME_MUTE
  | MediaPause => SUPPORT_PAUSE
  | MediaPlay => SUPPORT_PLAY
  | MediaStop => SUPPORT_STOP
  | SeekRelative _ => SUPPORT_SEEK
  | PlayMedia _ _ _ => SUPPORT_PLAY_MEDIA
  | PreviousTrack => SUPPORT_PREVIOUS_TRACK
  | NextTrack => SUPPORT_NEXT_TRACK
  end.

(** [features & flag] is not zero. *)
Definition offers (features flag : Z) : bool :=
  negb (Z.land features flag =? 0)%Z.

End Entity.

End Features.


(** ** Coroutines over a state, and the dict operations of the set-up code *)
Module Coroutine.
Import Py.

Definition St (S A : Type) : Type := S -> result A * S.

Definition ret {S A} (a : A) : St S A := fun s => (Ok a, s).
Definition raise {S A} (e : exn) : St S A := fun s => (Raise e, s).
Definition bind {S A B} (m : St S A) (k : A -> St S B) : St S B :=
  fun s =>
    match m s with
    | (Ok a, s') => k a s'
    | (Raise e, s') => (Raise e, s')
    end.
Definition get {S} : St S S := fun s => (Ok s, s).
Definition put {S} (s : S) : St S unit := fun _ => (Ok tt, s).

(** [try: body  except <classes>: handler]; the handler runs outside the
    [try]. *)
Definition except {S A} (caught : exn -> bool) (body handler : St S A)
  : St S A :=
  fun s =>
    match body s with
    | (Raise e, s') => if caught e then handler s' else (Raise e, s')
    | other => other
    end.

(** [ConfigEntryNotReady] of homeassistant.exceptions. *)
Definition ConfigEntryNotReady : exn := OtherError "ConfigEntryNotReady" "".

(** homeassistant.const *)
Definition CONF_URL : string := "url".
Definition CONF_DEVICE_ID : string := "device_id".

(** [mapping[key]] on a mapping of strings. *)
Definition getitem {S V} (mapping : gmap string V) (key : string)
  : St S V :=
  match mapping !! key with
  | Some v => ret v
  | None => raise (KeyError key)
  end.

(** [list.remove(x)]: the first equal element goes; [None] stands for the
    ValueError of a list without it. *)
Fixpoint list_remove (x : string) (l : list string) : option (list string) :=
  match l with
  | [] => None
  | y :: rest =>
      if String.eqb y x then Some rest
      else match list_remove x rest with
           | Some rest' => Some (y :: rest')
           | None => None
           end
  end.

End Coroutine.

(** ** dlna_dmr/__init__.py: setting up and unloading a config entry *)
Module DmrSetup.
Import Py Coroutine.

Definition DOMAIN : string := "dlna_dmr".
Definition CONF_LISTEN_IP : string := "listen_ip".

(** The callable [ConfigEntry.add_update_listener] returns: called, it
    removes the listener from the entry's [update_listeners]. *)
Record Undo := mkUndo { removes : string }.

(** The config entry the functions are called with, an object they share
    with their caller. Of [options] only strings are read here. *)
Record ConfigEntry := mkEntry {
  entry_id : string;
  data : gmap string string;
  options : gmap string string;
  update_listeners : list string
}.

(** What the set-up code asks of the libraries and of Home Assistant. *)
Inductive Call :=
| CreateDevice (location : string)
| FindDevice (udn : string) (source_ip : option string)
| UpdateEntry (new_data : gmap string string)
| SetupPlatforms
| UnloadPlatforms.

Section Setup.

(** [Device] is an [UpnpDevice]; [W] is the network and the rest of Home
    Assistant. *)
Context {Device W : Type}.

(** [upnp_factory.async_create_device(location)]. *)
Variable async_create_device : string -> W -> result Device * W.
(** [async_find_device(udn, source_ip=...)]: the location found, if any. *)
Variable async_find_device :
  string -> option string -> W -> result (option string) * W.
(** [hass.config_entries.async_unload_platforms(entry, PLATFORMS)]. *)
Variable async_unload_platforms : W -> result bool * W.

(** The two dicts of [DomainData] these functions write. The lock, the
    requester and the factory never change, and the two registries of
    eventing.py are left alone here. *)
Record DomainData := mkDomainData {
  upnp_devices : gmap string Device;
  undo_update_listeners : gmap string Undo
}.

(** [hass.data] holds the domain data or has no [DOMAIN] key. *)
Record Hass := mkHass {
  domain_data : option DomainData;
  entry : ConfigEntry;
  world : W;
  calls : list Call
}.

Local Notation "'do' x <- m ;; k" := (bind m (fun x => k))
  (at level 10, x name, m at level 99, k at level 200, only parsing).

Definition set_domain_data (dd : DomainData) : St Hass unit :=
  fun h => (Ok tt, mkHass (Some dd) (entry h) (world h) (calls h)).

Definition set_entry (e : ConfigEntry) : St Hass unit :=
  fun h => (Ok tt, mkHass (domain_data h) e (world h) (calls h)).

(** A request to the outside, recorded. *)
Definition ask {A} (c : Call) (f : W -> result A * W) : St Hass A :=
  fun h =>
    let (r, w) := f (world h) in
    (r, mkHass (domain_data h) (entry h) w (calls h ++ [c])).

Definition tell (c : Call) : St Hass unit :=
  fun h => (Ok tt,
            mkHass (domain_data h) (entry h) (world h) (calls h ++ [c])).

(** [_create_domain_data]. *)
Definition _create_domain_data : St Hass DomainData :=
  do h <- get ;;
  match domain_data h with
  | Some dd => ret dd
  | None =>
      let dd := mkDomainData ∅ ∅ in
      do _ <- set_domain_data dd ;;
      ret dd
  end.

(** [get_domain_data]: [hass.data[DOMAIN]]. *)
Definition get_domain_data : St Hass DomainData :=
  do h <- get ;;
  match domain_data h with
  | Some dd => ret dd
  | None => raise (KeyError DOMAIN)
  end.

(** [except (asyncio.TimeoutError, aiohttp.ClientError, UpnpError)]. *)
Definition is_setup_error (e : exn) : bool :=
  match e with
  | Lib x => is_TimeoutError x || is_ClientError x || is_UpnpError x
  | _ => false
  end.

(** [hass.config_entries.async_update_entry(entry, data=...)]. *)
Definition async_update_entry (new_data : gmap string string)
  : St Hass unit :=
  do _ <- tell (UpdateEntry new_data) ;;
  do h <- get ;;
  set_entry (mkEntry (entry_id (entry h)) new_data (options (entry h))
               (update_listeners (entry h))).

(** [entry.add_update_listener(listener)]. *)
Definition add_update_listener (listener : string) : St Hass Undo :=
  do h <- get ;;
  do _ <- set_entry (mkEntry (entry_id (entry h)) (data (entry h))
                       (options (entry h))
                       (update_listeners (entry h) ++ [listener])) ;;
  ret (mkUndo listener).

(** Calling the callable [add_update_listener] returned. *)
Definition call_undo (undo : Undo) : St Hass unit :=
  do h <- get ;;
  match list_remove (removes undo) (update_listeners (entry h)) with
  | Some rest =>
      set_entry (mkEntry (entry_id (entry h)) (data (entry h))
                   (options (entry h)) rest)
  | None => raise (ValueError "list.remove(x): x not in list")
  end.

(** [domain_data.upnp_devices[key] = device]. *)
Definition store_device (key : string) (device : Device) : St Hass unit :=
  do dd <- get_domain_data ;;
  set_domain_data
    (mkDomainData (<[key := device]> (upnp_devices dd))
       (undo_update_listeners dd)).

(** [domain_data.undo_update_listeners[key] = undo]. *)
Definition store_undo (key : string) (undo : Undo) : St Hass unit :=
  do dd <- get_domain_data ;;
  set_domain_data
    (mkDomainData (upnp_devices dd)
       (<[key := undo]> (undo_update_listeners dd))).

(** [domain_data.undo_update_listeners.pop(key)]. *)
Definition pop_undo (key : string) : St Hass Undo :=
  do dd <- get_domain_data ;;
  match undo_update_listeners dd !! key with
  | Some undo =>
      do _ <- set_domain_data
                (mkDomainData (upnp_devices dd)
                   (delete key (undo_update_listeners dd))) ;;
      ret undo
  | None => raise (KeyError key)
  end.

(** [domain_data.upnp_devices.pop(key)]. *)
Definition pop_device (key : string) : St Hass Device :=
  do dd <- get_domain_data ;;
  match upnp_devices dd !! key with
  | Some device =>
      do _ <- set_domain_data
                (mkDomainData (delete key (upnp_devices dd))
                   (undo_update_listeners dd)) ;;
      ret device
  | None => raise (KeyError key)
  end.

Definition create_device (location : string) : St Hass Device :=
  ask (CreateDevice location) (async_create_device location).

(** The [except] branch of [async_setup_entry]: discovery, then a second
    attempt at the location found. *)
Definition rediscover (udn : string) (listen_ip : option string)
  : St Hass Device :=
  do location <- ask (FindDevice udn listen_ip)
                   (async_find_device udn listen_ip) ;;
  if negb (opt_str_truthy location) then raise ConfigEntryNotReady
  else
    let location := default EmptyString location in
    do upnp_device <- except is_setup_error (create_device location)
                        (raise ConfigEntryNotReady) ;;
    do h <- get ;;
    let updated_data := <[CONF_URL := location]> (data (entry h)) in
    do _ <- async_update_entry updated_data ;;
    ret upnp_device.

(** [async_setup_entry]. *)
Definition async_setup_entry : St Hass bool :=
  do _ <- _create_domain_data ;;
  do h <- get ;;
  do location <- getitem (data (entry h)) CONF_URL ;;
  do udn <- getitem (data (entry h)) CONF_DEVICE_ID ;;
  let listen_ip := options (entry h) !! CONF_LISTEN_IP in
  do upnp_device <- except is_setup_error (create_device location)
                      (rediscover udn listen_ip) ;;
  do _ <- store_device (entry_id (entry h)) upnp_device ;;
  do undo_listener <- add_update_listener "_update_listener" ;;
  do _ <- store_undo (entry_id (entry h)) undo_listener ;;
  do _ <- tell SetupPlatforms ;;
  ret true.

(** [async_unload_entry]. *)
Definition async_unload_entry : St Hass bool :=
  do _ <- get_domain_data ;;
  do h <- get ;;
  do unload_ok <- ask UnloadPlatforms async_unload_platforms ;;
  do undo_listener <- pop_undo (entry_id (entry h)) ;;
  do _ <- call_undo undo_listener ;;
  do _ <- pop_device (entry_id (entry h)) ;;
  ret unload_ok.

End Setup.

Arguments DomainData Device : clear implicits.
Arguments Hass Device W : clear implicits.

End DmrSetup.

(** ** Words for the properties of the renderer set-up *)
Module DmrSetupWords.
Import Py Coroutine DmrSetup.

(** The domain data [_create_domain_data] returns. *)
Definition created {Device} (dd : option (DomainData Device))
  : DomainData Device :=
  default (mkDomainData ∅ ∅) dd.

(** The entry with one more update listener. *)
Definition listening (e : ConfigEntry) : ConfigEntry :=
  mkEntry (entry_id e) (data e) (options e)
    (update_listeners e ++ ["_update_listener"]).

(** The entry with another location. *)
Definition relocated (location : string) (e : ConfigEntry) : ConfigEntry :=
  mkEntry (entry_id e) (<[CONF_URL := location]> (data e)) (options e)
    (update_listeners e).

(** The domain data with a device and an undo callable under a key. *)
Definition holding {Device} (key : string) (device : Device)
  (dd : DomainData Device) : DomainData Device :=
  mkDomainData (<[key := device]> (upnp_devices dd))
    (<[key := mkUndo "_update_listener"]> (undo_update_listeners dd)).

(** The domain data without a key. *)
Definition without {Device} (key : string) (dd : DomainData Device)
  : DomainData Device :=
  mkDomainData (delete key (upnp_devices dd))
    (delete key (undo_update_listeners dd)).

Section States.
Context {Device W : Type}.

(** The state once set-up has its device. *)
Definition ready (h : Hass Device W) (e : ConfigEntry) (device : Device)
  (w : W) (trace : list Call) : Hass Device W :=
  mkHass (Some (holding (entry_id e) device (created (domain_data h))))
    (listening e) w (calls h ++ trace).

(** The state when set-up gives up. *)
Definition given_up (h : Hass Device W) (w : W) (trace : list Call)
  : Hass Device W :=
  mkHass (Some (created (domain_data h))) (entry h) w (calls h ++ trace).

(** The entry has no undo callable stored: it was never set up, or it
    was unloaded. *)
Definition not_set_up (h : Hass Device W) : Prop :=
  match domain_data h with
  | Some dd => undo_update_listeners dd !! entry_id (entry h) = None
  | None => True
  end.

End States.

End DmrSetupWords.

(** A renderer that moved: the location stored in the entry times out,
    discovery finds the new one. *)
Module DmrSetupFixtures.
Import Py Coroutine DmrSetup.

Definition old_location : string := "http://192.0.2.3:8200/desc.xml".
Definition new_location : string := "http://192.0.2.7:8200/desc.xml".

(** A device is known by the location it was created from; the world
    counts the requests made. *)
Definition create_moved (location : string) (w : nat)
  : result string * nat :=
  (if String.eqb location new_location then Ok location
   else Raise (Lib (mkLibExn false true false "timed out")), S w).

Definition find_moved (udn : string) (source_ip : option string) (w : nat)
  : result (option string) * nat :=
  (Ok (Some new_location), S w).

Definition find_nothing (udn : string) (source_ip : option string) (w : nat)
  : result (option string) * nat :=
  (Ok None, S w).

Definition unload_fine (w : nat) : result bool * nat := (Ok true, S w).

Definition tv_entry : ConfigEntry :=
  mkEntry "entry1"
    (<[CONF_URL := old_location]> (<[CONF_DEVICE_ID := "uuid:tv"]> ∅))
    ∅ [].

Definition before_setup : Hass string nat := mkHass None tv_entry 0 [].

End DmrSetupFixtures.


(** ** dlna_dms/__init__.py: setting up and unloading a media server *)
Module DmsSetup.
Import Py MediaSource Coroutine.

Definition BY_NAME : string := "by_name".

(** A key of [hass.data[DOMAIN]] or of the table of names: a [str] or
    [None] (the unique id of an entry and the host name of a URL may be
    [None]). *)
Abbreviation Key := (option string).

(** [repr] of a key, for the KeyError that names it. *)
Definition key_text (key : Key) : string := default "None" key.

(** A dict that keeps the order of insertion. *)
Definition Dict (V : Type) := list (Key * V).

Fixpoint dict_get {V} (d : Dict V) (key : Key) : option V :=
  match d with
  | [] => None
  | (k, v) :: rest => if decide (k = key) then Some v else dict_get rest key
  end.

(** [d[key] = value]: a key already there keeps its place. *)
Fixpoint dict_set {V} (d : Dict V) (key : Key) (value : V) : Dict V :=
  match d with
  | [] => [(key, value)]
  | (k, v) :: rest =>
      if decide (k = key) then (k, value) :: rest
      else (k, v) :: dict_set rest key value
  end.

(** [del d[key]]; [None] is a KeyError. *)
Fixpoint dict_del {V} (d : Dict V) (key : Key) : option (Dict V) :=
  match d with
  | [] => None
  | (k, v) :: rest =>
      if decide (k = key) then Some rest
      else match dict_del rest key with
           | Some rest' => Some ((k, v) :: rest')
           | None => None
           end
  end.

(** A value of [hass.data[DOMAIN]]: the device of an entry under the
    entry's unique id, the table of names under [BY_NAME]. *)
Inductive Slot :=
| Server (device : DmsDevice)
| Names (by_name : Dict DmsDevice).

Record ConfigEntry := mkEntry {
  unique_id : Key;
  data : gmap string string
}.

Inductive Call :=
| CreateDevice (location : string)
| UpdateDevice (device_name : string).

Section Setup.

(** [W] is the network. *)
Context {W : Type}.

(** [factory.async_create_device(location)], wrapped in a [DmsDevice]. *)
Variable async_create_device : string -> W -> result DmsDevice * W.
(** [dms_device.async_update()]. *)
Variable async_update : DmsDevice -> W -> result unit * W.
(** [urlparse(device.device.device_url).hostname]. *)
Variable hostname : DmsDevice -> option string.

(** [hass.data] holds the dict of this domain or has no [DOMAIN] key. *)
Record Hass := mkHass {
  domain : option (gmap Key Slot);
  world : W;
  calls : list Call
}.

Local Notation "'do' x <- m ;; k" := (bind m (fun x => k))
  (at level 10, x name, m at level 99, k at level 200, only parsing).

Definition ask {A} (c : Call) (f : W -> result A * W) : St Hass A :=
  fun h =>
    let (r, w) := f (world h) in
    (r, mkHass (domain h) w (calls h ++ [c])).

(** [hass.data[DOMAIN]]. *)
Definition get_domain : St Hass (gmap Key Slot) :=
  do h <- get ;;
  match domain h with
  | Some d => ret d
  | None => raise (KeyError DOMAIN)
  end.

Definition set_domain (d : gmap Key Slot) : St Hass unit :=
  fun h => (Ok tt, mkHass (Some d) (world h) (calls h)).

(** [hass.data[DOMAIN][key]]. *)
Definition domain_getitem (key : Key) : St Hass Slot :=
  do d <- get_domain ;;
  match d !! key with
  | Some slot => ret slot
  | None => raise (KeyError (key_text key))
  end.

(** [hass.data[DOMAIN][key] = slot]. *)
Definition domain_setitem (key : Key) (slot : Slot) : St Hass unit :=
  do d <- get_domain ;;
  set_domain (<[key := slot]> d).

(** [hass.data[DOMAIN].pop(key)]. *)
Definition domain_pop (key : Key) : St Hass Slot :=
  do d <- get_domain ;;
  match d !! key with
  | Some slot =>
      do _ <- set_domain (delete key d) ;;
      ret slot
  | None => raise (KeyError (key_text key))
  end.

(** [hass.data.setdefault(DOMAIN, {BY_NAME: {}})]. *)
Definition setdefault_domain : St Hass unit :=
  do h <- get ;;
  match domain h with
  | Some _ => ret tt
  | None => set_domain {[Some BY_NAME := Names []]}
  end.

(** [device_name]: the friendly name, or else the host name. *)
Definition device_name (device : DmsDevice) : Key :=
  if str_truthy (name device) then Some (name device) else hostname device.

(** [device_name] applied to whatever was stored. *)
Definition slot_name (slot : Slot) : St Hass Key :=
  match slot with
  | Server device => ret (device_name device)
  | Names _ =>
      raise (AttributeError "'dict' object has no attribute 'device'")
  end.

(** [except (asyncio.TimeoutError, aiohttp.ClientError)]. *)
Definition is_request_error (e : exn) : bool :=
  match e with
  | Lib x => is_TimeoutError x || is_ClientError x
  | _ => false
  end.

(** [async_construct_device]. *)
Definition async_construct_device (location : string) : St Hass DmsDevice :=
  do upnp_device <-
    except is_request_error
      (ask (CreateDevice location) (async_create_device location))
      (raise ConfigEntryNotReady) ;;
  let dms_device := upnp_device in
  do _ <- ask (UpdateDevice (name dms_device)) (async_update dms_device) ;;
  ret dms_device.

(** [async_setup_entry]. *)
Definition async_setup_entry (entry : ConfigEntry) : St Hass bool :=
  do _ <- setdefault_domain ;;
  do location <- getitem (data entry) CONF_URL ;;
  do dms_device <- async_construct_device location ;;
  do _ <- domain_setitem (unique_id entry) (Server dms_device) ;;
  do names <- domain_getitem (Some BY_NAME) ;;
  do _ <-
    match names with
    | Names by_name =>
        domain_setitem (Some BY_NAME)
          (Names (dict_set by_name (device_name dms_device) dms_device))
    | Server _ =>
        raise (TypeError
                 "'DmsDevice' object does not support item assignment")
    end ;;
  ret true.

(** [async_unload_entry]. *)
Definition async_unload_entry (entry : ConfigEntry) : St Hass bool :=
  do dms_device <- domain_pop (unique_id entry) ;;
  do names <- domain_getitem (Some BY_NAME) ;;
  do key <- slot_name dms_device ;;
  do _ <-
    match names with
    | Names by_name =>
        match dict_del by_name key with
        | Some rest => domain_setitem (Some BY_NAME) (Names rest)
        | None => raise (KeyError (key_text key))
        end
    | Server _ =>
        raise (TypeError
                 "'DmsDevice' object does not support item deletion")
    end ;;
  ret true.

(** [async_get_media_source] of media_source.py: the media source is
    built on [hass.data[DOMAIN][BY_NAME]], the very dict the set-up
    writes. *)
Definition async_get_media_source : St Hass Slot :=
  domain_getitem (Some BY_NAME).

End Setup.

Arguments Hass W : clear implicits.

End DmsSetup.

(** ** Words for the properties of the media-server set-up *)
Module DmsSetupWords.
Import Py MediaSource Coroutine DmsSetup.

(** The table of names as the media source reads it, when every name is
    a [str]. *)
Definition str_keyed (sources : Sources) : Dict DmsDevice :=
  map (fun entry => (Some (fst entry), snd entry)) sources.

(** The table of names of a domain dict. *)
Definition names_of (d : gmap Key Slot) : option (Dict DmsDevice) :=
  match d !! Some BY_NAME with
  | Some (Names by_name) => Some by_name
  | _ => None
  end.

(** What [setdefault] leaves in [hass.data[DOMAIN]]. *)
Definition defaulted (d : option (gmap Key Slot)) : gmap Key Slot :=
  default {[Some BY_NAME := Names []]} d.

End DmsSetupWords.

Module DmsSetupFixtures.
Import Py MediaSource Coroutine DmsSetup Fixtures.

Definition url_of (location : string) : gmap string string :=
  <[CONF_URL := location]> ∅.

(** Two servers that answer at their locations; everything else times
    out. Both are called "nas" by their owners. *)
Definition attic : DmsDevice := nas.
Definition cellar : DmsDevice :=
  directory_device "NAS" "http://192.0.2.21:8200" [].

Definition create_at (location : string) (w : nat)
  : result DmsDevice * nat :=
  (if String.eqb location "http://192.0.2.20/dms.xml" then Ok attic
   else if String.eqb location "http://192.0.2.21/dms.xml" then Ok cellar
   else Raise (Lib (mkLibExn false true false "timed out")), S w).

Definition update_fine (device : DmsDevice) (w : nat) : result unit * nat :=
  (Ok tt, S w).

Definition no_hostname (device : DmsDevice) : option string := None.

Definition attic_entry : ConfigEntry :=
  DmsSetup.mkEntry (Some "uuid:attic") (url_of "http://192.0.2.20/dms.xml").
Definition cellar_entry : ConfigEntry :=
  DmsSetup.mkEntry (Some "uuid:cellar") (url_of "http://192.0.2.21/dms.xml").
Definition lost_entry : ConfigEntry :=
  DmsSetup.mkEntry (Some "uuid:lost") (url_of "http://192.0.2.99/dms.xml").

Definition empty_hass : Hass nat := mkHass None 0 [].

(** Both servers are set up; they share the name "NAS". *)
Definition both_set_up : Hass nat :=
  snd (async_setup_entry create_at update_fine no_hostname cellar_entry
         (snd (async_setup_entry create_at update_fine no_hostname
                 attic_entry empty_hass))).

End DmsSetupFixtures.

(** * Properties *)

(** ** String builtins *)
Module PyFacts.
Import Py.

Lemma str_cut_none sep s : str_mem sep s = false -> str_cut sep s = None.
Proof.
  induction s as [|c r IH]; simpl; [done|].
  destruct (Ascii.eqb c sep); simpl; [done|].
  intros Hr. by rewrite IH.
Qed.

Lemma str_cut_app sep a r :
  str_mem sep a = false ->
  str_cut sep (a ++ String sep r) = Some (a, r).
Proof.
  induction a as [|c a IH]; simpl.
  - by rewrite Ascii.eqb_refl.
  - destruct (Ascii.eqb c sep); simpl; [done|].
    intros Ha. by rewrite IH.
Qed.

Lemma str_split_max_none sep n s :
  str_mem sep s = false -> str_split_max sep n s = [s].
Proof. intros Hs. destruct n; simpl; [done|]. by rewrite str_cut_none. Qed.

Lemma str_split_max_app sep n a r :
  str_mem sep a = false ->
  str_split_max sep (S n) (a ++ String sep r) = a :: str_split_max sep n r.
Proof. intros Ha. simpl. by rewrite str_cut_app. Qed.

Lemma str_split_none sep s : str_mem sep s = false -> str_split sep s = [s].
Proof.
  induction s as [|c r IH]; simpl; [done|].
  destruct (Ascii.eqb c sep); simpl; [done|].
  intros Hr. by rewrite IH.
Qed.

Lemma str_split_app sep a r :
  str_mem sep a = false ->
  str_split sep (a ++ String sep r) = a :: str_split sep r.
Proof.
  induction a as [|c a IH]; simpl.
  - by rewrite Ascii.eqb_refl.
  - destruct (Ascii.eqb c sep); simpl; [done|].
    intros Ha. by rewrite IH.
Qed.

Lemma str_split_nonempty sep s : str_split sep s <> [].
Proof.
  destruct s as [|c r]; simpl; [done|].
  destruct (Ascii.eqb c sep); [done|].
  by destruct (str_split sep r).
Qed.

Lemma str_truthy_app_sep a c r : str_truthy (a ++ String c r) = true.
Proof. by destruct a. Qed.

Lemma char_app c r : String c EmptyString +:+ r = String c r.
Proof. reflexivity. Qed.

Lemma str_app_assoc (a b c : string) : (a +:+ b) +:+ c = a +:+ b +:+ c.
Proof.
  induction a as [|x a IH]; [done|].
  change (String x ((a +:+ b) +:+ c) = String x (a +:+ b +:+ c)).
  by rewrite IH.
Qed.

Lemma str_app_empty_r (a : string) : a +:+ EmptyString = a.
Proof.
  induction a as [|x a IH]; [done|].
  change (String x (a +:+ EmptyString) = String x a).
  by rewrite IH.
Qed.

End PyFacts.

(** ** Identifier parsing *)
Module IdentifierFacts.
Import Py DmsConst Identifier PyFacts.

Lemma parse_server_only (a : string) :
  str_mem "/" a = false ->
  async_parse_identifier (mkItem a) = Ok (a, "", "").
Proof.
  intros Ha. unfold async_parse_identifier; cbn [identifier].
  destruct a as [|x a']; [done|]. cbn [str_truthy negb].
  by rewrite str_split_max_none.
Qed.

Lemma parse_two_segments (a b : string) :
  str_mem "/" a = false ->
  str_mem "/" b = false ->
  async_parse_identifier (mkItem (a ++ "/" ++ b))
  = Raise (BrowseError "Invalid parameters").
Proof.
  intros Ha Hb. unfold async_parse_identifier; cbn [identifier].
  rewrite char_app, str_truthy_app_sep; cbn [negb].
  rewrite str_split_max_app by done.
  by rewrite str_split_max_none.
Qed.

Lemma parse_three_segments (a b c : string) :
  str_mem "/" a = false ->
  str_mem "/" b = false ->
  async_parse_identifier (mkItem (a ++ "/" ++ b ++ "/" ++ c))
  = if str_in b [ACTION_OBJECT; ACTION_PATH; ACTION_SEARCH]
    then Ok (a, b, c)
    else Raise (BrowseError "Invalid action").
Proof.
  intros Ha Hb. unfold async_parse_identifier; cbn [identifier].
  rewrite !char_app, str_truthy_app_sep; cbn [negb].
  rewrite str_split_max_app by done.
  rewrite str_split_max_app by done.
  cbn [str_split_max].
  by destruct (str_in b _).
Qed.

(** C2. The empty identifier parses to three empty strings; an identifier
    without a slash is a server name with empty action and parameters; an
    identifier of exactly two segments raises BrowseError ("Invalid
    parameters"); with three or more segments the first two are server and
    action and the remainder, slashes included, is the parameters, unless
    the action is not one of object, path and search, when BrowseError
    ("Invalid action") is raised. Segments [a] and [b] are slash-free,
    [c] is arbitrary. *)
Theorem parse_identifier_segments (a b c : string) :
  str_mem "/" a = false ->
  str_mem "/" b = false ->
  async_parse_identifier (mkItem "") = Ok ("", "", "")
  /\ async_parse_identifier (mkItem a) = Ok (a, "", "")
  /\ async_parse_identifier (mkItem (a ++ "/" ++ b))
     = Raise (BrowseError "Invalid parameters")
  /\ async_parse_identifier (mkItem (a ++ "/" ++ b ++ "/" ++ c))
     = if str_in b ["object"; "path"; "search"]
       then Ok (a, b, c)
       else Raise (BrowseError "Invalid action").
Proof.
  intros Ha Hb. split; [reflexivity|].
  split; [by apply parse_server_only|].
  split; [by apply parse_two_segments|].
  by apply parse_three_segments.
Qed.

Lemma parse_identifier_segments_witness :
  async_parse_identifier (mkItem "") = Ok ("", "", "")
  /\ async_parse_identifier (mkItem "srv") = Ok ("srv", "", "")
  /\ async_parse_identifier (mkItem "srv/path")
     = Raise (BrowseError "Invalid parameters")
  /\ async_parse_identifier (mkItem "srv/path/a/b/c")
     = Ok ("srv", "path", "a/b/c").
Proof.
  exact (parse_identifier_segments "srv" "path" "a/b/c" eq_refl eq_refl).
Defined.

End IdentifierFacts.

(** ** Media source: resolution *)
Module ResolveFacts.
Import Py DmsConst Identifier Didl DmsTables MediaSource ResolverSpec
       Fixtures PyFacts.

Lemma criteria_text_eq current segment :
  path_criteria current segment = criteria_text current segment.
Proof.
  reflexivity.
Qed.

Lemma resource_mime_type_field resource :
  _resource_mime_type resource = mime_field (protocol_info resource).
Proof.
  unfold _resource_mime_type, mime_field.
  destruct (protocol_info resource) as [p|]; [|done].
  by destruct (str_split ":" p) as [|? [|? [|? ?]]].
Qed.

(** C10. With no server registered, resolve raises Unresolvable and
    browse raises BrowseError, both with "No servers available", whatever
    the identifier is: the identifier is not looked at, and no device is
    called. *)
Theorem no_servers_error_precedes_parsing
  (children_class_of : BrowseMediaSource -> option MpConst)
  (item : MediaSourceItem) (log : Log) :
  async_resolve_media [] item log
  = (Raise (Unresolvable "No servers available"), log)
  /\ async_browse_media children_class_of [] item log
     = (Raise (BrowseError "No servers available"), log).
Proof. split; reflexivity. Qed.

(** With a server registered the same two-segment identifier is rejected
    by the parser instead. *)
Lemma malformed_identifier_with_servers
  (children_class_of : BrowseMediaSource -> option MpConst)
  (sources : Sources) (a b : string) (log : Log) :
  sources <> [] ->
  str_mem "/" a = false ->
  str_mem "/" b = false ->
  async_resolve_media sources (mkItem (a ++ "/" ++ b)) log
  = (Raise (BrowseError "Invalid parameters"), log)
  /\ async_browse_media children_class_of sources (mkItem (a ++ "/" ++ b)) log
     = (Raise (BrowseError "Invalid parameters"), log).
Proof.
  intros Hs Ha Hb.
  pose proof (IdentifierFacts.parse_two_segments a b Ha Hb) as Hparse.
  destruct sources as [|s0 rest]; [done|].
  unfold async_resolve_media, async_browse_media, bind, lift.
  by rewrite Hparse.
Qed.

(** *** Object resolution *)

(** A protocol-info of at least three colon-separated fields has the
    third as its MIME type; one without a second colon has none. *)
Lemma mime_field_third (f0 f1 f2 rest : string) :
  str_mem ":" f0 = false ->
  str_mem ":" f1 = false ->
  str_mem ":" f2 = false ->
  mime_field (Some (f0 +:+ ":" +:+ f1 +:+ ":" +:+ f2)) = Some f2
  /\ mime_field (Some (f0 +:+ ":" +:+ f1 +:+ ":" +:+ f2 +:+ ":" +:+ rest))
     = Some f2.
Proof.
  intros H0 H1 H2. unfold mime_field. rewrite !char_app.
  rewrite !str_split_app by done. split; [|done].
  by rewrite str_split_none.
Qed.

Lemma mime_field_short (f0 f1 : string) :
  str_mem ":" f0 = false ->
  str_mem ":" f1 = false ->
  mime_field None = None
  /\ mime_field (Some f0) = None
  /\ mime_field (Some (f0 +:+ ":" +:+ f1)) = None.
Proof.
  intros H0 H1. unfold mime_field. rewrite !char_app.
  rewrite str_split_app by done. by rewrite !str_split_none.
Qed.

(** C4. Resolving an object fetches its metadata once, with the resolve
    filter, and looks at the first resource only. It raises Unresolvable
    when the fetch fails with a UPnP error, when the resource list is
    empty, and when the first resource lacks a URI or a MIME type ([None]
    or empty), the MIME type being field 2 of the colon-split
    protocol-info. Otherwise it returns the device-absolute URL of that
    resource and that MIME type. *)
Theorem resolve_object_first_resource
  (device : DmsDevice) (object_id : string) (log : Log) :
  let fetched :=
    async_browse_metadata device log object_id DLNA_RESOLVE_FILTER in
  let out := _async_resolve_object device object_id log in
  snd out
  = log ++ [(name device, BrowseMetadata object_id DLNA_RESOLVE_FILTER)]
  /\ (forall err,
        fetched = Raise (Lib err) -> is_UpnpError err = true ->
        fst out
        = Raise (Unresolvable ("Invalid object or server: " ++ exn_str err)))
  /\ (forall item,
        fetched = Ok item -> res item = [] ->
        fst out = Raise (Unresolvable "Object has no resources"))
  /\ (forall item first rest,
        fetched = Ok item -> res item = first :: rest ->
        opt_str_truthy (uri first) = false
        \/ opt_str_truthy (mime_field (protocol_info first)) = false ->
        fst out
        = Raise (Unresolvable "Object resource has no URI or MIME type"))
  /\ (forall item first rest u m,
        fetched = Ok item -> res item = first :: rest ->
        uri first = Some u -> u <> "" ->
        mime_field (protocol_info first) = Some m -> m <> "" ->
        fst out = Ok (mkPlayMedia (get_absolute_url device (Some u)) m)).
Proof.
  cbv zeta.
  unfold _async_resolve_object, bind, except_UpnpError, browse_metadata,
    raise, ret.
  destruct (async_browse_metadata device log object_id DLNA_RESOLVE_FILTER)
    as [item|e] eqn:Hfetch.
  - split.
    { destruct (res item) as [|first rest]; [done|].
      by destruct (negb _ || negb _). }
    split; [done|].
    split; [by intros ? [= <-] ->|].
    split.
    + intros ? first rest [= <-] -> Hlack.
      rewrite resource_mime_type_field.
      by destruct Hlack as [-> | ->]; rewrite ?orb_true_r.
    + intros ? first rest u m [= <-] -> Hu Hune Hm Hmne.
      rewrite resource_mime_type_field, Hu, Hm.
      by destruct u, m.
  - split; [by destruct e as [err| | | | | | |]; try destruct (is_UpnpError err)|].
    split; [by intros err [= ->] ->|].
    by repeat split.
Qed.

Lemma resolve_object_first_resource_witness :
  fst (_async_resolve_object nas "9" [])
  = Ok (mkPlayMedia "http://192.0.2.10:8200/media/song.mp3" "audio/mpeg").
Proof.
  destruct (resolve_object_first_resource nas "9" [])
    as (_ & _ & _ & _ & Hok).
  by apply (Hok (track "9" "Song" [mp3]) mp3 [] "/media/song.mp3" "audio/mpeg").
Defined.

(** *** Path resolution *)

Lemma resolve_path_loop_walk device path nodes current log :
  PathWalk device path nodes current log
    (fst (resolve_path_loop device path nodes current log))
    (snd (resolve_path_loop device path nodes current log)).
Proof.
  revert current log.
  induction nodes as [|node rest IH]; intros current log.
  - constructor.
  - cbn [resolve_path_loop].
    unfold bind, except_UpnpError, search_directory, raise.
    rewrite criteria_text_eq.
    destruct (async_search_directory device log current
                (criteria_text current node) DLNA_BROWSE_FILTER)
      as [items|e] eqn:Hanswer.
    + destruct items as [|found [|second more]].
      * by apply walk_nothing.
      * eapply walk_one; [exact Hanswer|]. apply IH.
      * by eapply walk_too_many.
    + destruct e as [err| | | | | | |];
        try (apply walk_other_error; [exact Hanswer | by intros ? [=]]).
      destruct (is_UpnpError err) eqn:Hupnp.
      * by apply walk_search_failed.
      * apply walk_other_error; [exact Hanswer|]. by intros ? [= <-].
Qed.

(** The walk issues at most one search per segment, and exactly one per
    segment when it succeeds. *)
Lemma resolve_path_loop_searches device path nodes current log :
  let out := resolve_path_loop device path nodes current log in
  (length (snd out) <= length log + length nodes)%nat
  /\ (is_ok (fst out) = true ->
      length (snd out) = (length log + length nodes)%nat).
Proof.
  cbv zeta. revert current log.
  induction nodes as [|node rest IH]; intros current log.
  - cbn. split; lia.
  - cbn [resolve_path_loop].
    unfold bind, except_UpnpError, search_directory, raise.
    destruct (async_search_directory device log current _ _)
      as [items|e].
    + destruct items as [|found [|second more]]; cbn [fst snd is_ok].
      * rewrite length_app. cbn. split; [lia|done].
      * specialize (IH (didl_id found)
                      (log ++ [(name device,
                                SearchDirectory current
                                  (path_criteria current node)
                                  DLNA_BROWSE_FILTER)])).
        rewrite length_app in IH. cbn [length] in *. split; [lia|].
        intros Hok. destruct IH as [_ IH]. rewrite IH by done. lia.
      * rewrite length_app. cbn. split; [lia|done].
    + destruct e as [err| | | | | | |]; try destruct (is_UpnpError err);
        cbn [fst snd is_ok]; rewrite length_app; cbn; (split; [lia|done]).
Qed.

(** C3. Path resolution cuts the path at every slash and walks the
    segments from object "0" as [PathWalk] says: one directory search per
    segment visited, with criteria @parentID="<current>" and
    dc:title="<segment>" (no escaping); Unresolvable "Nothing found"
    when a search returns no item, "Too many items found" when it
    returns more than one; otherwise the identifier of the single item
    found for the last segment is the result. Resolving an identifier
    whose action is path runs this walk and passes its result to object
    resolution. *)
Theorem resolve_path_walks_segments
  (sources : Sources) (server : string) (device : DmsDevice)
  (path : string) (log : Log) :
  str_mem "/" server = false ->
  str_truthy server = true ->
  sources_get sources server = Some device ->
  let segments := str_split "/" path in
  let out := _async_resolve_path device path log in
  PathWalk device path segments "0" log (fst out) (snd out)
  /\ (length (snd out) <= length log + length segments)%nat
  /\ (is_ok (fst out) = true ->
      length (snd out) = (length log + length segments)%nat)
  /\ async_resolve_media sources (mkItem (server +:+ "/path/" +:+ path)) log
     = bind (_async_resolve_path device path)
         (fun object_id => _async_resolve_object device object_id) log.
Proof.
  intros Hslash Hserver Hget. cbv zeta.
  split; [apply resolve_path_loop_walk|].
  split; [apply resolve_path_loop_searches|].
  split; [apply resolve_path_loop_searches|].
  destruct sources as [|s0 more]; [done|].
  unfold async_resolve_media.
  set (srcs := s0 :: more) in *.
  unfold bind at 1, lift.
  change (server +:+ "/path/" +:+ path)
    with (server +:+ "/" +:+ "path" +:+ "/" +:+ path).
  rewrite (IdentifierFacts.parse_three_segments server "path" path)
    by done.
  change (str_in "path" [ACTION_OBJECT; ACTION_PATH; ACTION_SEARCH])
    with true.
  cbn iota beta. rewrite Hserver. cbn [negb]. by rewrite Hget.
Qed.

Lemma resolve_path_walks_segments_witness :
  fst (_async_resolve_path nas "Music" []) = Ok "5"
  /\ (exists msg,
        fst (_async_resolve_path nas "Music/Nothing" [])
        = Raise (Unresolvable msg))
  /\ fst (async_resolve_media one_server (mkItem "nas/path/Music/Song") [])
     = Ok (mkPlayMedia "http://192.0.2.10:8200/media/song.mp3"
             "audio/mpeg").
Proof.
  pose proof (resolve_path_walks_segments one_server "nas" nas "Music/Song"
                [] eq_refl eq_refl eq_refl) as (_ & _ & _ & Hresolve).
  split; [reflexivity|]. split; [by eexists|].
  change "nas/path/Music/Song" with ("nas" +:+ "/path/" +:+ "Music/Song").
  rewrite Hresolve. reflexivity.
Defined.

End ResolveFacts.

(** ** Media source: browsing *)
Module BrowseFacts.
Import Py DmsConst Identifier Didl DmsTables MediaSource ResolverSpec
       Fixtures PyFacts.

Section WithChildrenClass.
Variable children_class_of : BrowseMediaSource -> option MpConst.

Lemma root_child_raises key : is_ok (root_child key) = false.
Proof. by destruct key as [|c1 [|c2 [|c3 r]]]. Qed.

Lemma root_listing_raises sources :
  sources <> [] -> is_ok (root_listing sources) = false.
Proof.
  destruct sources as [|[k d] rest]; [done|]. intros _.
  unfold root_listing. cbn [map fst comprehension].
  pose proof (root_child_raises k) as Hk.
  by destruct (root_child k).
Qed.

(** Whenever more than one server is registered, browsing the empty
    identifier raises inside the comprehension that lists the servers,
    before any device is called. *)
Lemma browse_root_never_lists_servers sources log :
  (1 < length sources)%nat ->
  is_ok (fst (async_browse_media children_class_of sources (mkItem "") log))
  = false
  /\ snd (async_browse_media children_class_of sources (mkItem "") log)
     = log.
Proof.
  intros Hlen. destruct sources as [|s0 [|s1 rest]]; [cbn in Hlen; lia..|].
  unfold async_browse_media, bind, lift, ret.
  cbn [async_parse_identifier identifier str_truthy negb andb length].
  replace (1 <? S (S (length rest)))%nat with true
    by (symmetry; apply Nat.ltb_lt; lia).
  pose proof (root_listing_raises (s0 :: s1 :: rest)) as Hraise.
  by destruct (root_listing (s0 :: s1 :: rest)); [discriminate Hraise|].
Qed.

(** C8. With the two servers "nas" and "laptop" registered, browsing
    the empty identifier does not return a root node listing them: the
    loop over the mapping unpacks the key "nas" into two names and
    raises ValueError. No device is called. *)
Theorem browse_root_two_servers_raises (log : Log) :
  async_browse_media children_class_of two_servers (mkItem "") log
  = (Raise (ValueError "too many values to unpack (expected 2)"), log).
Proof. reflexivity. Qed.

(** *** Projection *)

Lemma comprehension_nonempty {A B} (f : A -> result B) a l bs :
  comprehension f (a :: l) = Ok bs -> bs <> [].
Proof.
  cbn. destruct (f a); [|done]. cbn.
  destruct (comprehension f l); [|done]. cbn. by intros [= <-].
Qed.

Lemma child_count_declared item n :
  except_value (rbind (get_child_count item) py_int)
    is_AttributeError_or_ValueError 0%Z = Ok n ->
  n = declared_child_count item.
Proof.
  unfold get_child_count, declared_child_count.
  destruct (child_count item) as [[|text|z]|]; cbn; try congruence.
  destruct (int_of_str text); cbn; congruence.
Qed.

Lemma didl_node_can_expand sources server item kids node :
  didl_node children_class_of sources server item kids = Ok node ->
  can_expand node
  = (match kids with Some (_ :: _) => true | _ => false end
     || (0 <? declared_child_count item)%Z)
  /\ children node = kids.
Proof.
  unfold didl_node.
  destruct (except_value _ _ _) as [n|] eqn:Hn; cbn [rbind]; [|discriminate].
  apply child_count_declared in Hn as ->.
  destruct (MEDIA_CLASS_MAP _) as [mc|]; cbn [rbind]; [|discriminate].
  destruct (MEDIA_TYPE_MAP !! _) as [mt|]; cbn [rbind]; [|discriminate].
  destruct (_didl_image_url _ _ _) as [th|]; cbn [rbind]; [|discriminate].
  intros [= <-]. split; reflexivity.
Qed.

(** Whenever the projection returns a node, the node can expand exactly
    when children were fetched and are not empty or the declared child
    count is positive. *)
Lemma projection_can_expand sources server item fetched node :
  _didl_to_media_source children_class_of sources server item fetched
  = Ok node ->
  can_expand node
  = (match fetched with Some (_ :: _) => true | _ => false end
     || (0 <? declared_child_count item)%Z).
Proof.
  unfold _didl_to_media_source.
  destruct fetched as [[|c cs]|]; cbn [rbind].
  - intros Hnode. by apply didl_node_can_expand in Hnode as [-> _].
  - destruct (comprehension _ (c :: cs)) as [kids|] eqn:Hkids;
      cbn [rbind]; [|done].
    intros Hnode. apply didl_node_can_expand in Hnode as [-> _].
    apply comprehension_nonempty in Hkids. by destruct kids.
  - intros Hnode. by apply didl_node_can_expand in Hnode as [-> _].
Qed.

(** An object whose [child_count] attribute holds [None] is never
    projected: [int(None)] raises TypeError, which the [except] clause
    does not name. *)
Lemma didl_node_child_count_none sources server item kids :
  child_count item = Some PyNone ->
  exists msg,
    didl_node children_class_of sources server item kids
    = Raise (TypeError msg).
Proof.
  intros Hnone. unfold didl_node, get_child_count. rewrite Hnone.
  by eexists.
Qed.

(** C9. A storage folder whose child count the server left out (the
    attribute holds [None]) is not projected with a count of zero: the
    projection raises TypeError, and so does browsing that object. *)
Theorem projection_fails_on_none_child_count :
  _didl_to_media_source children_class_of one_server "nas"
    (folder "8" "Bare" (Some PyNone)) (Some [])
  = Raise (TypeError "int() argument must be a string, a bytes-like object or a number, not 'NoneType'")
  /\ fst (async_browse_media children_class_of one_server
            (mkItem "nas/object/8") [])
     = Raise (TypeError "int() argument must be a string, a bytes-like object or a number, not 'NoneType'").
Proof. split; reflexivity. Qed.

End WithChildrenClass.

End BrowseFacts.

(** ** The event-notifier registry *)
Module EventingFacts.
Import Py Eventing EventingFixtures.

Section Registry.
Variable start_server :
  list AiohttpNotifyServer -> AiohttpNotifyServer -> option exn.

Lemma get_or_create_raises listen_ip listen_port callback_url_override
  (w : World) :
  async_get_or_create_event_notifier start_server listen_ip listen_port
    callback_url_override w
  = (Raise not_a_context_manager, w).
Proof. reflexivity. Qed.

Lemma run_calls_id (keys : list EventListenAddr) (w : World) :
  run_calls start_server keys w = w.
Proof. induction keys as [|k keys IH]; [reflexivity | exact IH]. Qed.

(** C1. No call to the event-notifier registry returns an endpoint. For
    every two calls, with equal keys or not, and whatever calls were made
    before and between them: each raises at [with data_lock:], before the
    key is looked up, so no server is constructed, started or stored, no
    shutdown callback is registered, and the registry stays as it was at
    start-up, empty. *)
Theorem event_notifier_calls_raise
  (before between : list EventListenAddr) (k k' : EventListenAddr) :
  let w0 := run_calls start_server before initial_world in
  let first :=
    async_get_or_create_event_notifier start_server
      (ip k) (port k) (callback_url_override k) w0 in
  let second :=
    async_get_or_create_event_notifier start_server
      (ip k') (port k') (callback_url_override k')
      (run_calls start_server between (snd first)) in
  fst first = Raise not_a_context_manager
  /\ fst second = Raise not_a_context_manager
  /\ snd second = initial_world.
Proof.
  cbv zeta. rewrite !get_or_create_raises. cbn [fst snd].
  by rewrite !run_calls_id.
Qed.

End Registry.

(** Two calls for the same address, with a server that would bind. *)
Example same_address_twice :
  let first :=
    async_get_or_create_event_notifier always_binds
      (ip lan) (port lan) (callback_url_override lan) initial_world in
  let second :=
    async_get_or_create_event_notifier always_binds
      (ip lan) (port lan) (callback_url_override lan) (snd first) in
  is_ok (fst first) = false /\ is_ok (fst second) = false
  /\ constructed (snd second) = [].
Proof. by cbv zeta. Qed.

End EventingFacts.

(** ** The renderer entity *)
Module RendererFacts.
Import Py MediaPlayer RendererFixtures.

Section Entity.
Context {D : Type} `{DmrDevice D}.

(** *** The decorator *)

Lemma except_request_errors_filters {A} (body handler : P D A) s :
  (forall s', raises_request_error (fst (handler s')) = false) ->
  raises_request_error (fst (except_request_errors body handler s)) = false.
Proof.
  intros Hhandler. unfold except_request_errors.
  destruct (body s) as [[a|e] s']; [done|].
  destruct (is_request_error e) eqn:He; [apply Hhandler|].
  cbn. exact He.
Qed.

Lemma catch_request_errors_filters name (func : P D unit) s :
  raises_request_error (fst (catch_request_errors name func s)) = false.
Proof. by apply except_request_errors_filters. Qed.

Lemma catch_request_errors_logs name (func : P D unit) s :
  raises_request_error (fst (func s)) = true ->
  catch_request_errors name func s
  = (Ok tt, add_log ERROR ("Error during call " +:+ name) (snd (func s))).
Proof.
  unfold catch_request_errors, except_request_errors, log.
  destruct (func s) as [[a|e] s']; cbn; [done|]. by intros ->.
Qed.

Lemma catch_request_errors_ok name (func : P D unit) s s' :
  func s = (Ok tt, s') -> catch_request_errors name func s = (Ok tt, s').
Proof.
  intros Hfunc. unfold catch_request_errors, except_request_errors.
  by rewrite Hfunc.
Qed.

Lemma invoke_filters (c : Command) (s : State D) :
  raises_request_error (fst (invoke c s)) = false.
Proof. destruct c; apply catch_request_errors_filters. Qed.

(** *** Gates *)

(** A command that reads a gate and finds it false logs a note and
    returns. *)
Lemma gated_noop (c : Command) (g : D -> bool) (s : State D) :
  gate c = Some g ->
  g (device s) = false ->
  exists note, invoke c s = (Ok tt, add_log DEBUG note s).
Proof.
  intros Hgate Hfalse.
  destruct c; cbn in Hgate; try discriminate; injection Hgate as <-;
    eexists; cbn [invoke];
    apply catch_request_errors_ok; unfold bind, prop, log;
    by rewrite Hfalse.
Qed.

(** By the library's laws an action the device does not declare cannot be
    sent now. *)
Lemma undeclared_gate_false (c : Command) (g : D -> bool) (d : D) :
  gate c = Some g -> declared c d = false -> g d = false.
Proof.
  intros Hgate Hdecl.
  destruct c; cbn in Hgate, Hdecl; try discriminate; injection Hgate as <-;
    apply not_true_is_false; intros Hcan.
  - apply can_pause_has in Hcan. congruence.
  - apply can_play_has in Hcan. congruence.
  - apply can_stop_has in Hcan. congruence.
  - apply can_seek_rel_time_has in Hcan. congruence.
  - apply can_previous_has in Hcan. congruence.
  - apply can_next_has in Hcan. congruence.
Qed.

(** C5, amended. Pause, play, stop, seekRelative, previous and next read
    the device's can-property first; when it is false (as it is when the
    device does not declare the action) the command sends nothing to the
    device, writes one debug line and returns without error. In particular
    a device without the seek action receives no seek call. *)
Theorem gated_commands_skip_device
  (c : Command) (g : D -> bool) (s : State D) :
  gate c = Some g ->
  g (device s) = false \/ declared c (device s) = false ->
  exists note,
    invoke c s = (Ok tt, add_log DEBUG note s)
    /\ calls (snd (invoke c s)) = calls s
    /\ device (snd (invoke c s)) = device s.
Proof.
  intros Hgate Hoff.
  assert (g (device s) = false) as Hfalse.
  { destruct Hoff as [|Hdecl]; [done|].
    by apply (undeclared_gate_false c). }
  destruct (gated_noop c g s Hgate Hfalse) as [note Hnote].
  exists note. by rewrite Hnote.
Qed.

(** *** Calls only accumulate *)

Lemma grows_ret {A} (a : A) : grows (D:=D) (ret a).
Proof. intros s. exists []. cbn. by rewrite app_nil_r. Qed.

Lemma grows_log l msg : grows (D:=D) (log l msg).
Proof. intros s. exists []. cbn. by rewrite app_nil_r. Qed.

Lemma grows_prop {A} (f : D -> A) : grows (D:=D) (prop f).
Proof. intros s. exists []. cbn. by rewrite app_nil_r. Qed.

Lemma grows_call c : grows (D:=D) (call c).
Proof.
  intros s. exists [c]. unfold call. by destruct (await c (device s)).
Qed.

Lemma grows_bind {A B} (m : P D A) (k : A -> P D B) :
  grows m -> (forall a, grows (k a)) -> grows (bind m k).
Proof.
  intros Hm Hk s. unfold bind. destruct (Hm s) as [more1 Hmore1].
  destruct (m s) as [[a|e] s1]; cbn in *; [|eauto].
  destruct (Hk a s1) as [more2 Hmore2]. exists (more1 ++ more2).
  by rewrite Hmore2, Hmore1, app_assoc.
Qed.

Lemma grows_except {A} (body handler : P D A) :
  grows body -> grows handler -> grows (except_request_errors body handler).
Proof.
  intros Hbody Hhandler s. unfold except_request_errors.
  destruct (Hbody s) as [more1 Hmore1].
  destruct (body s) as [[a|e] s1]; cbn in *; [eauto|].
  destruct (is_request_error e); [|eauto].
  destruct (Hhandler s1) as [more2 Hmore2]. exists (more1 ++ more2).
  by rewrite Hmore2, Hmore1, app_assoc.
Qed.

Lemma grows_catch name (func : P D unit) :
  grows func -> grows (catch_request_errors name func).
Proof. intros Hfunc. apply grows_except; [done|apply grows_log]. Qed.

Lemma catch_request_errors_calls name (func : P D unit) s :
  calls (snd (catch_request_errors name func s)) = calls (snd (func s)).
Proof.
  unfold catch_request_errors, except_request_errors, log.
  destruct (func s) as [[a|e] s']; [done|]. by destruct (is_request_error e).
Qed.

Lemma grows_async_media_play : grows (D:=D) async_media_play.
Proof.
  apply grows_catch, grows_bind; [apply grows_prop|].
  intros []; [apply grows_call|apply grows_log].
Qed.

(** The other three commands read no gate: the call goes out whatever the
    device declares. *)
Lemma ungated_commands_call (s : State D) :
  (forall volume,
     calls (snd (async_set_volume_level volume s))
     = calls s ++ [SetVolumeLevel volume])
  /\ (forall mute,
        calls (snd (async_mute_volume mute s)) = calls s ++ [MuteVolume mute])
  /\ (forall media_type media_id kwargs,
        can_stop (device s) = false ->
        exists more,
          calls (snd (async_play_media media_type media_id kwargs s))
          = calls s ++ SetTransportUri media_id "Home Assistant" :: more).
Proof.
  split; [|split].
  - intros volume. unfold async_set_volume_level.
    rewrite catch_request_errors_calls. unfold call.
    by destruct (await _ (device s)).
  - intros mute. unfold async_mute_volume.
    rewrite catch_request_errors_calls. unfold call.
    by destruct (await _ (device s)).
  - intros media_type media_id kwargs Hstop. unfold async_play_media.
    rewrite catch_request_errors_calls.
    unfold bind at 1. unfold log at 1.
    unfold bind at 1. unfold prop at 1. cbn [device add_log].
    rewrite Hstop.
    unfold bind at 1. unfold ret at 1.
    unfold bind at 1. unfold call at 1. cbn [device add_log entity calls logger].
    destruct (await (SetTransportUri _ _) (device s)) as [[[]|e] d];
      [|by exists []].
    match goal with
    | |- context [bind ?m ?k ?st] =>
        assert (grows (bind m k)) as Hgrows
    end.
    { apply grows_bind; [apply grows_call|]. intros _.
      apply grows_bind; [apply grows_prop|].
      intros [[]|]; first [apply grows_ret | apply grows_async_media_play]. }
    match goal with
    | |- context [bind _ _ ?st] => destruct (Hgrows st) as [more Hmore]
    end.
    exists more. rewrite Hmore. cbn [calls]. by rewrite <- app_assoc.
Qed.

(** *** Refresh *)

Lemma call_entity c (s : State D) : entity (snd (call c s)) = entity s.
Proof. unfold call. by destruct (await c (device s)). Qed.

Lemma call_calls c (s : State D) : calls (snd (call c s)) = calls s ++ [c].
Proof. unfold call. by destruct (await c (device s)). Qed.

Lemma now_eq (s : State D) :
  now s = (Ok (fst (utcnow (device s))), snd (now s))
  /\ entity (snd (now s)) = entity s
  /\ calls (snd (now s)) = calls s.
Proof. unfold now. by destruct (utcnow (device s)). Qed.

(** [async_update], case by case. *)
Lemma async_update_eq (s : State D) :
  async_update s
  = match call Update s with
    | (Ok _, _) =>
        if renewal_due s || came_back s then resubscribe (after_update s)
        else (Ok tt, after_update s)
    | (Raise e, s1) =>
        if is_request_error e
        then (Ok tt, add_log DEBUG "Device unavailable"
                       (mark_available false s1))
        else (Raise e, s1)
    end.
Proof.
  unfold async_update, renewal_due, came_back, after_update, refresh_time.
  unfold bind at 1. unfold get_entity at 1.
  unfold bind at 1. unfold except_request_errors at 1.
  unfold bind at 1.
  pose proof (call_entity Update s) as Hentity.
  destruct (call Update s) as [[[]|e] s1]; cbn [fst snd] in *.
  - unfold bind at 1. unfold set_available at 1. unfold ret at 1.
    cbn [negb]. unfold bind at 1.
    destruct (now_eq (mark_available true s1)) as (Hnow & Hent & _).
    rewrite Hnow. unfold bind at 1. unfold get_entity at 1.
    rewrite Hent. cbn [mark_available entity device _available
                         _subscription_renew_time].
    rewrite Hentity, andb_true_r.
    by destruct (_ || _).
  - destruct (is_request_error e); [|done].
    by cbn.
Qed.

Lemma resubscribe_eq (s : State D) :
  resubscribe s
  = match subscribe_services s with
    | (Ok granted, s1) =>
        (Ok tt,
         with_renew_time
           (Some (fst (utcnow (device s1)) + timedelta_truediv granted 2)%Z)
           (snd (now s1)))
    | (Raise e, s1) =>
        if is_request_error e
        then (Ok tt, add_log DEBUG "Could not (re)subscribe"
                       (mark_available false s1))
        else (Raise e, s1)
    end.
Proof.
  unfold resubscribe, except_request_errors. unfold bind at 1.
  destruct (subscribe_services s) as [[granted|e] s1].
  - unfold bind. destruct (now_eq s1) as (-> & _). done.
  - destruct (is_request_error e); [|done]. by cbn.
Qed.

Lemma subscribe_services_calls (s : State D) :
  calls (snd (subscribe_services s)) = calls s ++ [SubscribeServices]
  /\ entity (snd (subscribe_services s)) = entity s.
Proof.
  unfold subscribe_services. by destruct (async_subscribe_services (device s)).
Qed.

Lemma resubscribe_calls (s : State D) :
  calls (snd (resubscribe s)) = calls s ++ [SubscribeServices].
Proof.
  rewrite resubscribe_eq.
  destruct (subscribe_services_calls s) as [Hcalls _].
  destruct (subscribe_services s) as [[granted|e] s1]; cbn [snd] in *.
  - destruct (now_eq s1) as (_ & _ & Hnow). cbn. by rewrite Hnow.
  - by destruct (is_request_error e).
Qed.

Lemma after_update_calls (s : State D) :
  calls (after_update s) = calls s ++ [Update]
  /\ entity (after_update s)
     = mkEntity true (_subscription_renew_time (entity s)).
Proof.
  unfold after_update.
  destruct (now_eq (snd (set_available true (snd (call Update s)))))
    as (_ & -> & ->).
  cbn. by rewrite call_calls, call_entity.
Qed.

Lemma async_update_filters (s : State D) :
  raises_request_error (fst (async_update s)) = false.
Proof.
  rewrite async_update_eq.
  destruct (call Update s) as [[[]|e] s1].
  - destruct (_ || _); [|done]. rewrite resubscribe_eq.
    destruct (subscribe_services _) as [[granted|e] s2]; [done|].
    by destruct (is_request_error e) eqn:He.
  - by destruct (is_request_error e) eqn:He.
Qed.

(** C6. No timeout or transport error leaves a renderer command or the
    refresh. The decorator turns such an error of the method it wraps into
    a normal return and one error line in the log; the refresh turns a
    failed state fetch, and a failed subscription, into a normal return
    with the entity marked unavailable and a debug line. *)
Theorem request_errors_do_not_propagate (c : Command) (s : State D) :
  raises_request_error (fst (invoke c s)) = false
  /\ raises_request_error (fst (async_update s)) = false
  /\ (forall name (func : P D unit),
        raises_request_error (fst (func s)) = true ->
        catch_request_errors name func s
        = (Ok tt,
           add_log ERROR ("Error during call " +:+ name) (snd (func s))))
  /\ (raises_request_error (fst (call Update s)) = true ->
      async_update s
      = (Ok tt,
         add_log DEBUG "Device unavailable"
           (mark_available false (snd (call Update s)))))
  /\ (update_ok s = true ->
      renewal_due s || came_back s = true ->
      raises_request_error (fst (subscribe_services (after_update s))) = true ->
      async_update s
      = (Ok tt,
         add_log DEBUG "Could not (re)subscribe"
           (mark_available false
              (snd (subscribe_services (after_update s)))))).
Proof.
  split; [apply invoke_filters|].
  split; [apply async_update_filters|].
  split; [intros name func; apply catch_request_errors_logs|].
  split.
  - rewrite async_update_eq.
    destruct (call Update s) as [[[]|e] s1]; cbn; [done|]. by intros ->.
  - rewrite async_update_eq. unfold update_ok.
    destruct (call Update s) as [[[]|e] s1]; cbn [fst is_ok]; [|done].
    intros _ -> Hraises. rewrite resubscribe_eq.
    destruct (subscribe_services (after_update s)) as [[granted|e] s2];
      cbn in Hraises |- *; [done|].
    by rewrite Hraises.
Qed.

(** C7. A refresh sends the state fetch and, exactly when the fetch
    succeeded and either a stored renewal time has been reached by the time
    read after the fetch or the entity was unavailable before, one
    subscription request. Without a subscription the refresh leaves the
    renewal time as it was. A subscription that grants a duration sets the
    renewal time to the time read after the grant plus half the duration;
    one that fails with a timeout or transport error marks the entity
    unavailable. Half of 1800 seconds is 900 seconds. *)
Theorem refresh_resubscribes_when_due (s : State D) :
  calls (snd (async_update s))
  = calls s
    ++ (if update_ok s && (renewal_due s || came_back s)
        then [Update; SubscribeServices]
        else [Update])
  /\ (update_ok s = true ->
      renewal_due s || came_back s = false ->
      async_update s = (Ok tt, after_update s)
      /\ _subscription_renew_time (entity (after_update s))
         = _subscription_renew_time (entity s))
  /\ (forall granted s',
        update_ok s = true ->
        renewal_due s || came_back s = true ->
        subscribe_services (after_update s) = (Ok granted, s') ->
        fst (async_update s) = Ok tt
        /\ entity (snd (async_update s))
           = mkEntity true
               (Some (fst (utcnow (device s'))
                      + timedelta_truediv granted 2)%Z))
  /\ (update_ok s = true ->
      renewal_due s || came_back s = true ->
      raises_request_error (fst (subscribe_services (after_update s))) = true ->
      fst (async_update s) = Ok tt
      /\ _available (entity (snd (async_update s))) = false)
  /\ timedelta_truediv (1800 * 1000000)%Z 2%Z = (900 * 1000000)%Z.
Proof.
  split.
  { rewrite async_update_eq. unfold update_ok.
    pose proof (call_calls Update s) as Hcall.
    destruct (after_update_calls s) as [Hafter _].
    destruct (call Update s) as [[[]|e] s1]; cbn [fst snd is_ok andb] in *.
    - destruct (_ || _); cbn [snd].
      + rewrite resubscribe_calls, Hafter. by rewrite <- app_assoc.
      + done.
    - by destruct (is_request_error e). }
  split.
  { intros Hok Hwanted. rewrite async_update_eq. unfold update_ok in Hok.
    destruct (after_update_calls s) as [_ Hentity].
    destruct (call Update s) as [[[]|e] s1]; [|done].
    rewrite Hwanted. split; [done|]. by rewrite Hentity. }
  split.
  { intros granted s' Hok Hwanted Hsub. rewrite async_update_eq.
    unfold update_ok in Hok.
    destruct (subscribe_services_calls (after_update s)) as [_ Hentity].
    destruct (after_update_calls s) as [_ Hafter].
    destruct (call Update s) as [[[]|e] s1]; [|done].
    rewrite Hwanted, resubscribe_eq, Hsub. cbn [fst snd].
    split; [done|].
    destruct (now_eq s') as (_ & Hnow & _).
    unfold with_renew_time. cbn [entity]. rewrite Hnow.
    rewrite Hsub in Hentity. cbn [snd] in Hentity.
    by rewrite Hentity, Hafter. }
  split; [|reflexivity].
  intros Hok Hwanted Hraises. rewrite async_update_eq.
  unfold update_ok in Hok.
  destruct (call Update s) as [[[]|e] s1]; [|done].
  rewrite Hwanted, resubscribe_eq.
  destruct (subscribe_services (after_update s)) as [[granted|e] s2];
    cbn in Hraises |- *; [done|].
  by rewrite Hraises.
Qed.

End Entity.

(** C5 as stated fails: a renderer that declares no action at all still
    receives the volume call. *)
Lemma undeclared_set_volume_reaches_device :
  ~ (forall (c : Command) (s : State Mock),
       declared c (device s) = false ->
       fst (invoke c s) = Ok tt /\ calls (snd (invoke c s)) = calls s).
Proof.
  intros Hclaim.
  destruct (Hclaim (SetVolume (1 # 2)) (fresh bare_renderer) eq_refl)
    as [_ Hcalls].
  discriminate Hcalls.
Qed.

(** C7 as stated fails: when the state fetch times out, a renewal that is
    due is not requested. The entity was available and its renewal time
    has passed, yet the refresh sends the fetch and nothing else. *)
Lemma due_renewal_waits_for_fetch :
  ~ (forall s : State Mock,
       calls s = [] ->
       (SubscribeServices ∈ calls (snd (async_update s))
        <-> renewal_due s = true
            \/ (came_back s = true /\ update_ok s = true))).
Proof.
  intros Hclaim.
  destruct (Hclaim overdue_unreachable eq_refl) as [_ Hsent].
  assert (SubscribeServices ∈ calls (snd (async_update overdue_unreachable)))
    as Hin by (apply Hsent; left; reflexivity).
  change (SubscribeServices ∈ [Update]) in Hin.
  rewrite elem_of_cons, elem_of_nil in Hin. by destruct Hin.
Qed.

Lemma gated_commands_skip_device_witness :
  exists note,
    invoke (SeekRelative (3 # 2)) (fresh bare_renderer)
    = (Ok tt, add_log DEBUG note (fresh bare_renderer))
    /\ calls (snd (invoke (SeekRelative (3 # 2)) (fresh bare_renderer))) = []
    /\ device (snd (invoke (SeekRelative (3 # 2)) (fresh bare_renderer)))
       = bare_renderer.
Proof.
  exact (gated_commands_skip_device (SeekRelative (3 # 2)) can_seek_rel_time
           (fresh bare_renderer) eq_refl (or_intror eq_refl)).
Defined.

Lemma request_errors_do_not_propagate_witness :
  async_update (fresh unreachable_renderer)
  = (Ok tt,
     add_log DEBUG "Device unavailable"
       (mark_available false
          (snd (call Update (fresh unreachable_renderer)))))
  /\ invoke MediaPlay (fresh unreachable_renderer)
     = (Ok tt,
        add_log ERROR "Error during call async_media_play"
          (snd (call Play (fresh unreachable_renderer)))).
Proof.
  destruct (request_errors_do_not_propagate MediaPlay
              (fresh unreachable_renderer))
    as (_ & _ & Hcatch & Hupdate & _).
  split; [exact (Hupdate eq_refl)|].
  exact (Hcatch "async_media_play"
           (bind (prop can_play)
              (fun ok => if negb ok then log DEBUG "Cannot do Play"
                         else call Play))
           eq_refl).
Defined.

Lemma refresh_resubscribes_when_due_witness :
  fst (async_update (fresh full_renderer)) = Ok tt
  /\ entity (snd (async_update (fresh full_renderer)))
     = mkEntity true (Some (2000000 + 900 * 1000000)%Z).
Proof.
  destruct (refresh_resubscribes_when_due (fresh full_renderer))
    as (_ & _ & Hgrant & _).
  exact (Hgrant half_hour
           (snd (subscribe_services (after_update (fresh full_renderer))))
           eq_refl eq_refl eq_refl).
Defined.

End RendererFacts.

(** ** Identifier parsing, for every string *)
Module ParserFacts.
Import Py DmsConst Identifier PyFacts.

Lemma str_cut_some sep s a b :
  str_cut sep s = Some (a, b) ->
  s = a +:+ String sep b /\ str_mem sep a = false.
Proof.
  revert a. induction s as [|c r IH]; intros a; cbn; [done|].
  destruct (Ascii.eqb c sep) eqn:Hc.
  - apply Ascii.eqb_eq in Hc as ->. by intros [= <- <-].
  - destruct (str_cut sep r) as [[a' b']|]; [|done].
    intros [= <- <-]. destruct (IH a' eq_refl) as [-> Hmem].
    split; [done|]. cbn. by rewrite Hc.
Qed.

Lemma str_cut_none_mem sep s : str_cut sep s = None -> str_mem sep s = false.
Proof.
  induction s as [|c r IH]; cbn; [done|].
  destruct (Ascii.eqb c sep); [done|].
  destruct (str_cut sep r) as [[a b]|]; [done|]. auto.
Qed.

Lemma action_names_no_slash action :
  str_in action [ACTION_OBJECT; ACTION_PATH; ACTION_SEARCH] = true ->
  action = "object" \/ action = "path" \/ action = "search".
Proof.
  unfold str_in. cbn [existsb]. rewrite !orb_true_iff, !String.eqb_eq.
  unfold ACTION_OBJECT, ACTION_PATH, ACTION_SEARCH. intuition discriminate.
Qed.

(** Whatever the identifier, a successful parse can be put back together:
    the server part has no slash, the action is empty (and then the
    parameters are empty and the identifier is the server part) or one of
    object, path and search (and then the identifier is the three parts
    joined by slashes). *)
Theorem parse_identifier_decomposes
  (text server action parameters : string) :
  async_parse_identifier (mkItem text) = Ok (server, action, parameters) ->
  str_mem "/" server = false
  /\ ((action = "" /\ parameters = "" /\ text = server)
      \/ ((action = "object" \/ action = "path" \/ action = "search")
          /\ text = server +:+ "/" +:+ action +:+ "/" +:+ parameters)).
Proof.
  unfold async_parse_identifier. cbn [identifier].
  destruct text as [|c rest]; cbn [str_truthy negb].
  { intros [= <- <- <-]. split; [done|]. by left. }
  cbn [str_split_max].
  destruct (str_cut "/" (String c rest)) as [[a b]|] eqn:Hcut.
  - apply str_cut_some in Hcut as [Htext Ha].
    destruct (str_cut "/" b) as [[a' b']|] eqn:Hcut'; [|done].
    apply str_cut_some in Hcut' as [Hb Ha'].
    destruct (str_in a' _) eqn:Hin; cbn [negb]; [|done].
    intros [= <- <- <-]. split; [done|]. right.
    split; [by apply action_names_no_slash|].
    by rewrite Htext, Hb.
  - apply str_cut_none_mem in Hcut.
    intros [= <- <- <-]. split; [done|]. by left.
Qed.

Lemma parse_identifier_decomposes_witness :
  str_mem "/" "nas" = false
  /\ (("path" = "" /\ "Music/Song" = "" /\ "nas/path/Music/Song" = "nas")
      \/ (("path" = "object" \/ "path" = "path" \/ "path" = "search")
          /\ "nas/path/Music/Song"
             = "nas" +:+ "/" +:+ "path" +:+ "/" +:+ "Music/Song")).
Proof.
  exact (parse_identifier_decomposes "nas/path/Music/Song" "nas" "path"
           "Music/Song" eq_refl).
Defined.

(** The parser rejects with one of two BrowseErrors and nothing else:
    "Invalid parameters" when the identifier holds exactly one slash,
    "Invalid action" when it holds more and the second part is not an
    action. *)
Theorem parse_identifier_rejects (text : string) (e : exn) :
  async_parse_identifier (mkItem text) = Raise e ->
  (e = BrowseError "Invalid parameters"
   /\ exists a b, text = a +:+ "/" +:+ b
                  /\ str_mem "/" a = false /\ str_mem "/" b = false)
  \/ (e = BrowseError "Invalid action"
      /\ exists a b c, text = a +:+ "/" +:+ b +:+ "/" +:+ c
                       /\ str_mem "/" a = false /\ str_mem "/" b = false
                       /\ b <> "object" /\ b <> "path" /\ b <> "search").
Proof.
  unfold async_parse_identifier. cbn [identifier].
  destruct text as [|c rest]; cbn [str_truthy negb]; [done|].
  cbn [str_split_max].
  destruct (str_cut "/" (String c rest)) as [[a b]|] eqn:Hcut; [|done].
  apply str_cut_some in Hcut as [Htext Ha].
  destruct (str_cut "/" b) as [[a' b']|] eqn:Hcut'.
  - apply str_cut_some in Hcut' as [Hb Ha'].
    destruct (str_in a' _) eqn:Hin; cbn [negb]; [done|].
    intros [= <-]. right. split; [done|].
    exists a, a', b'. rewrite Htext, Hb. split; [done|].
    repeat split; try done; intros ->; discriminate Hin.
  - apply str_cut_none_mem in Hcut'.
    intros [= <-]. left. split; [done|]. by exists a, b.
Qed.

Lemma parse_identifier_rejects_witness :
  (BrowseError "Invalid action" = BrowseError "Invalid parameters"
   /\ exists a b, "nas/play/5" = a +:+ "/" +:+ b
                  /\ str_mem "/" a = false /\ str_mem "/" b = false)
  \/ (BrowseError "Invalid action" = BrowseError "Invalid action"
      /\ exists a b c, "nas/play/5" = a +:+ "/" +:+ b +:+ "/" +:+ c
                       /\ str_mem "/" a = false /\ str_mem "/" b = false
                       /\ b <> "object" /\ b <> "path" /\ b <> "search").
Proof.
  exact (parse_identifier_rejects "nas/play/5" (BrowseError "Invalid action")
           eq_refl).
Defined.

End ParserFacts.

(** ** Media source: what browse and resolve hand out *)
Module MediaSourceFacts.
Import Py DmsConst Identifier Didl DmsTables MediaSource MediaSourceWords
       Fixtures BrowseFixtures PyFacts.

(** *** Object resolution *)

(** The MIME type of a resource is the third colon-separated field of its
    protocol-info, whatever follows it; a protocol-info of one or two
    fields, or none at all, gives no MIME type. *)
Theorem resource_mime_type_is_third_field
  (location : option string) (f0 f1 f2 more : string) :
  str_mem ":" f0 = false ->
  str_mem ":" f1 = false ->
  str_mem ":" f2 = false ->
  _resource_mime_type
    (mkResource location (Some (f0 +:+ ":" +:+ f1 +:+ ":" +:+ f2)))
  = Some f2
  /\ _resource_mime_type
       (mkResource location
          (Some (f0 +:+ ":" +:+ f1 +:+ ":" +:+ f2 +:+ ":" +:+ more)))
     = Some f2
  /\ _resource_mime_type
       (mkResource location (Some (f0 +:+ ":" +:+ f1))) = None
  /\ _resource_mime_type (mkResource location (Some f0)) = None
  /\ _resource_mime_type (mkResource location None) = None.
Proof.
  intros H0 H1 H2. unfold _resource_mime_type. cbn [protocol_info].
  rewrite !char_app. rewrite !str_split_app by done.
  rewrite (str_split_none _ f0), (str_split_none _ f1),
    (str_split_none _ f2) by done.
  by repeat split.
Qed.

Lemma resource_mime_type_is_third_field_witness :
  _resource_mime_type
    (mkResource None (Some "http-get:*:video/mp4:DLNA.ORG_PN=AVC"))
  = Some "video/mp4"
  /\ _resource_mime_type (mkResource None (Some "bad")) = None.
Proof.
  destruct (resource_mime_type_is_third_field None "http-get" "*" "video/mp4"
              "DLNA.ORG_PN=AVC" eq_refl eq_refl eq_refl)
    as (_ & Hfour & _).
  destruct (resource_mime_type_is_third_field None "bad" "" "" ""
              eq_refl eq_refl eq_refl)
    as (_ & _ & _ & Hone & _).
  split; [exact Hfour | exact Hone].
Defined.

(** *** Servers *)

Lemma sources_get_first key device more :
  sources_get ((key, device) :: more) key = Some device.
Proof. cbn. by rewrite String.eqb_refl. Qed.

Lemma sources_get_nonempty sources key device :
  sources_get sources key = Some device -> sources <> [].
Proof. by destruct sources. Qed.

Section WithChildrenClass.
Variable children_class_of : BrowseMediaSource -> option MpConst.

Local Abbreviation browse := (async_browse_media children_class_of).
Local Abbreviation browse_object := (_async_browse_object children_class_of).
Local Abbreviation project := (_didl_to_media_source children_class_of).
Local Abbreviation node_of := (didl_node children_class_of).

(** What [async_browse_media] does once the identifier is parsed and the
    listing of all servers does not apply. *)
Lemma browse_parsed sources text server action parameters log :
  sources <> [] ->
  async_parse_identifier (mkItem text) = Ok (server, action, parameters) ->
  str_truthy server || str_truthy action = true ->
  browse sources (mkItem text) log
  = (if String.eqb action ACTION_SEARCH then
       raise (AttributeError "_async_browse_search")
     else
       let server_id :=
         if negb (str_truthy server) then first_key sources else server in
       match sources_get sources server_id with
       | None => raise (BrowseError "Unknown server")
       | Some _ =>
           if negb (str_truthy action) then
             bind (browse_object sources server_id ROOT_OBJECT_ID)
               (fun media_source => ret (set_title server_id media_source))
           else if String.eqb action ACTION_OBJECT then
             browse_object sources server_id parameters
           else if String.eqb action ACTION_PATH then
             match sources_get sources server_id with
             | None => raise (KeyError server_id)
             | Some device =>
                 bind (_async_resolve_path device parameters)
                   (fun object_id =>
                      browse_object sources server_id object_id)
             end
           else raise (BrowseError ("Invalid identifier " +:+ text))
       end) log.
Proof.
  intros Hsources Hparse Htruthy.
  destruct sources as [|s0 more]; [done|].
  unfold async_browse_media. unfold bind at 1. unfold lift.
  rewrite Hparse. cbn iota beta.
  unfold bind at 1.
  replace (negb (str_truthy server) && negb (str_truthy action)
           && (1 <? length (s0 :: more))%nat) with false.
  2:{ symmetry. apply orb_true_iff in Htruthy as [-> | ->]; cbn;
        by rewrite ?andb_false_r. }
  by unfold ret at 1.
Qed.

(** What [async_resolve_media] does once the identifier is parsed. *)
Lemma resolve_parsed sources text server action parameters log :
  sources <> [] ->
  async_parse_identifier (mkItem text) = Ok (server, action, parameters) ->
  async_resolve_media sources (mkItem text) log
  = (let server_id :=
       if negb (str_truthy server) then first_key sources else server in
     match sources_get sources server_id with
     | None => raise (Unresolvable "Unknown server")
     | Some device =>
         if String.eqb action ACTION_SEARCH then
           raise (AttributeError "_async_resolve_search")
         else if String.eqb action ACTION_OBJECT then
           _async_resolve_object device parameters
         else if String.eqb action ACTION_PATH then
           bind (_async_resolve_path device parameters)
             (fun object_id => _async_resolve_object device object_id)
         else raise (Unresolvable ("Invalid identifier " +:+ text))
     end) log.
Proof.
  intros Hsources Hparse.
  destruct sources as [|s0 more]; [done|].
  unfold async_resolve_media. unfold bind at 1. unfold lift.
  by rewrite Hparse.
Qed.

Lemma parse_action (server action parameters : string) :
  str_mem "/" server = false ->
  action = "object" \/ action = "path" \/ action = "search" ->
  async_parse_identifier
    (mkItem (server +:+ "/" +:+ action +:+ "/" +:+ parameters))
  = Ok (server, action, parameters).
Proof.
  intros Hserver Haction.
  rewrite IdentifierFacts.parse_three_segments;
    by destruct Haction as [-> | [-> | ->]].
Qed.

(** An identifier that names a server which is not registered is refused
    before any device is called: resolve raises Unresolvable, browse raises
    BrowseError, both "Unknown server". This holds for an identifier that
    is the server name alone and for one with the action object or
    path. *)
Theorem unknown_server_is_refused
  (sources : Sources) (server action parameters : string) (log : Log) :
  sources <> [] ->
  str_truthy server = true ->
  str_mem "/" server = false ->
  sources_get sources server = None ->
  action = "object" \/ action = "path" ->
  let scoped := mkItem (server +:+ "/" +:+ action +:+ "/" +:+ parameters) in
  async_resolve_media sources scoped log
  = (Raise (Unresolvable "Unknown server"), log)
  /\ browse sources scoped log = (Raise (BrowseError "Unknown server"), log)
  /\ async_resolve_media sources (mkItem server) log
     = (Raise (Unresolvable "Unknown server"), log)
  /\ browse sources (mkItem server) log
     = (Raise (BrowseError "Unknown server"), log).
Proof.
  intros Hsources Htruthy Hslash Hget Haction. cbv zeta.
  assert (async_parse_identifier
            (mkItem (server +:+ "/" +:+ action +:+ "/" +:+ parameters))
          = Ok (server, action, parameters)) as Hparse.
  { apply parse_action; [done|]. destruct Haction; auto. }
  pose proof (IdentifierFacts.parse_server_only server Hslash) as Hparse1.
  split; [|split; [|split]].
  - rewrite (resolve_parsed _ _ _ _ _ _ Hsources Hparse). cbv zeta.
    rewrite Htruthy. cbn [negb]. by rewrite Hget.
  - rewrite (browse_parsed _ _ _ _ _ _ Hsources Hparse)
      by (by rewrite Htruthy).
    replace (String.eqb action ACTION_SEARCH) with false
      by (by destruct Haction as [-> | ->]).
    cbv zeta. rewrite Htruthy. cbn [negb]. by rewrite Hget.
  - rewrite (resolve_parsed _ _ _ _ _ _ Hsources Hparse1). cbv zeta.
    rewrite Htruthy. cbn [negb]. by rewrite Hget.
  - rewrite (browse_parsed _ _ _ _ _ _ Hsources Hparse1)
      by (by rewrite Htruthy).
    cbv zeta. rewrite Htruthy. cbn [negb]. by rewrite Hget.
Qed.

(** The action search is accepted by the parser but leads nowhere: browse
    and resolve both raise AttributeError, the class having neither
    [_async_browse_search] nor [_async_resolve_search], and no device is
    called. *)
Theorem search_is_not_implemented
  (sources : Sources) (server criteria : string) (device : DmsDevice)
  (log : Log) :
  str_mem "/" server = false ->
  sources_get sources
    (if str_truthy server then server else first_key sources) = Some device ->
  let item := mkItem (server +:+ "/" +:+ "search" +:+ "/" +:+ criteria) in
  browse sources item log
  = (Raise (AttributeError "_async_browse_search"), log)
  /\ async_resolve_media sources item log
     = (Raise (AttributeError "_async_resolve_search"), log).
Proof.
  intros Hslash Hget. cbv zeta.
  pose proof (sources_get_nonempty _ _ _ Hget) as Hsources.
  assert (async_parse_identifier
            (mkItem (server +:+ "/" +:+ "search" +:+ "/" +:+ criteria))
          = Ok (server, "search", criteria)) as Hparse.
  { apply parse_action; auto. }
  split.
  - rewrite (browse_parsed _ _ _ _ _ _ Hsources Hparse); [done|].
    by rewrite orb_true_r.
  - rewrite (resolve_parsed _ _ _ _ _ _ Hsources Hparse). cbv zeta.
    destruct (str_truthy server); cbn [negb]; by rewrite Hget.
Qed.

(** An identifier whose server part is empty is served by the server that
    was registered first: with the action object or path it resolves and
    browses exactly as the identifier that names that server. *)
Theorem empty_server_means_first_registered
  (first : string) (device : DmsDevice) (more : Sources)
  (action parameters : string) (log : Log) :
  str_truthy first = true ->
  str_mem "/" first = false ->
  action = "object" \/ action = "path" ->
  let sources := (first, device) :: more in
  let unscoped := mkItem ("" +:+ "/" +:+ action +:+ "/" +:+ parameters) in
  let scoped := mkItem (first +:+ "/" +:+ action +:+ "/" +:+ parameters) in
  async_resolve_media sources unscoped log
  = async_resolve_media sources scoped log
  /\ browse sources unscoped log = browse sources scoped log.
Proof.
  intros Htruthy Hslash Haction. cbv zeta.
  assert (action = "object" \/ action = "path" \/ action = "search")
    as Haction' by (destruct Haction; auto).
  pose proof (parse_action "" action parameters eq_refl Haction') as Hp0.
  pose proof (parse_action first action parameters Hslash Haction') as Hp1.
  assert ((first, device) :: more <> []) as Hsources by done.
  split.
  - rewrite (resolve_parsed _ _ _ _ _ _ Hsources Hp0).
    rewrite (resolve_parsed _ _ _ _ _ _ Hsources Hp1).
    cbv zeta. rewrite Htruthy. cbn [str_truthy negb first_key].
    rewrite sources_get_first. by destruct Haction as [-> | ->].
  - rewrite (browse_parsed _ _ _ _ _ _ Hsources Hp0)
      by (by destruct Haction as [-> | ->]).
    rewrite (browse_parsed _ _ _ _ _ _ Hsources Hp1)
      by (by rewrite Htruthy).
    cbv zeta. rewrite Htruthy. cbn [str_truthy negb first_key].
    rewrite sources_get_first. by destruct Haction as [-> | ->].
Qed.

(** *** Browsing an object *)

Lemma browse_object_eq sources server device object_id log :
  sources_get sources server = Some device ->
  browse_object sources server object_id log
  = match async_browse_metadata device log object_id DLNA_BROWSE_FILTER with
    | Raise e =>
        (Raise (as_browse_error e), log ++ [metadata_request device object_id])
    | Ok base =>
        (match async_browse_direct_children device
                 (log ++ [metadata_request device object_id]) object_id
                 DLNA_BROWSE_FILTER DLNA_SORT_CRITERIA with
         | Raise e => Raise (as_browse_error e)
         | Ok objects => project sources server base (Some objects)
         end,
         (log ++ [metadata_request device object_id])
           ++ [children_request device object_id])
    end.
Proof.
  intros Hget. unfold _async_browse_object. rewrite Hget.
  unfold bind at 1. unfold except_UpnpError, bind, browse_metadata,
    browse_direct_children, raise, ret, lift, metadata_request,
    children_request, as_browse_error.
  destruct (async_browse_metadata device log object_id DLNA_BROWSE_FILTER)
    as [base|e].
  - destruct (async_browse_direct_children device _ object_id _ _)
      as [objects|e]; [done|].
    destruct e as [err| | | | | | |]; try done.
    by destruct (is_UpnpError err).
  - destruct e as [err| | | | | | |]; try done.
    by destruct (is_UpnpError err).
Qed.

(** Browsing an object asks the device for the object's metadata and
    then, only if that came back, for its direct children with the fixed
    sort order. A UPnP error of either request becomes a BrowseError; any
    other exception passes unchanged. When the metadata request fails the
    children are never requested. *)
Theorem browse_object_requests
  (sources : Sources) (server : string) (device : DmsDevice)
  (object_id : string) (log : Log) :
  sources_get sources server = Some device ->
  let out := browse_object sources server object_id log in
  let asked := log ++ [metadata_request device object_id] in
  (forall e,
     async_browse_metadata device log object_id DLNA_BROWSE_FILTER = Raise e ->
     out = (Raise (as_browse_error e), asked))
  /\ (forall base,
        async_browse_metadata device log object_id DLNA_BROWSE_FILTER
        = Ok base ->
        snd out = asked ++ [children_request device object_id]
        /\ (forall e,
              async_browse_direct_children device asked object_id
                DLNA_BROWSE_FILTER DLNA_SORT_CRITERIA = Raise e ->
              fst out = Raise (as_browse_error e))
        /\ (forall objects,
              async_browse_direct_children device asked object_id
                DLNA_BROWSE_FILTER DLNA_SORT_CRITERIA = Ok objects ->
              fst out = project sources server base (Some objects)))
  /\ (forall err,
        as_browse_error (Lib err)
        = if is_UpnpError err
          then BrowseError ("Invalid object or server: " +:+ exn_str err)
          else Lib err).
Proof.
  intros Hget. cbv zeta. rewrite (browse_object_eq _ _ _ _ _ Hget).
  split; [by intros e ->|]. split; [|done].
  intros base ->. cbn [fst snd]. split; [done|].
  split; [by intros e ->|by intros objects ->].
Qed.

Lemma browse_object_ok_log sources server device object_id log node log' :
  sources_get sources server = Some device ->
  browse_object sources server object_id log = (Ok node, log') ->
  log' = log ++ [metadata_request device object_id;
                 children_request device object_id].
Proof.
  intros Hget. rewrite (browse_object_eq _ _ _ _ _ Hget).
  destruct (async_browse_metadata _ _ _ _); [|done].
  intros [= _ <-]. by rewrite <- app_assoc.
Qed.

(** Browsing the root of a server, by an identifier that is the server's
    name alone or by the empty identifier when that server is the only
    one, fetches object "0" and its children from it and returns the node
    with the server's name as its title instead of the object's. *)
Theorem server_root_is_titled_by_server
  (sources : Sources) (server : string) (device : DmsDevice)
  (text : string) (log : Log) (node : BrowseMediaSource) :
  sources_get sources server = Some device ->
  (text = server /\ str_truthy server = true /\ str_mem "/" server = false)
  \/ (text = "" /\ sources = [(server, device)]) ->
  fst (browse sources (mkItem text) log) = Ok node ->
  bm_title node = server
  /\ snd (browse sources (mkItem text) log)
     = log ++ [metadata_request device "0"; children_request device "0"].
Proof.
  intros Hget Hshape.
  assert (browse sources (mkItem text) log
          = bind (browse_object sources server ROOT_OBJECT_ID)
              (fun media_source => ret (set_title server media_source)) log)
    as ->.
  { destruct Hshape as [(-> & Htruthy & Hslash) | (-> & ->)].
    - rewrite (browse_parsed _ _ server "" "");
        [|by eapply sources_get_nonempty
         |by apply IdentifierFacts.parse_server_only
         |by rewrite Htruthy].
      cbv zeta. change (String.eqb "" ACTION_SEARCH) with false.
      cbn iota. rewrite Htruthy. cbn [negb str_truthy]. by rewrite Hget.
    - unfold async_browse_media. unfold bind at 1. unfold lift.
      cbn [async_parse_identifier identifier str_truthy negb length
             andb Nat.ltb Nat.leb first_key].
      unfold bind at 1. unfold ret at 1.
      change (String.eqb "" ACTION_SEARCH) with false. cbn iota.
      by rewrite Hget. }
  unfold bind, ret.
  destruct (browse_object sources server ROOT_OBJECT_ID log)
    as [[media_source|e] log'] eqn:Hbrowse; [|done].
  cbn [fst snd]. intros [= <-]. split; [done|].
  by eapply browse_object_ok_log.
Qed.

(** *** Projection *)

Lemma comprehension_Forall2 {A B} (f : A -> result B) l bs :
  comprehension f l = Ok bs -> Forall2 (fun b a => f a = Ok b) bs l.
Proof.
  revert bs. induction l as [|a l IH]; intros bs; cbn.
  - intros [= <-]. constructor.
  - destruct (f a) as [b|] eqn:Hfa; cbn; [|done].
    destruct (comprehension f l) as [bs'|]; cbn; [|done].
    intros [= <-]. constructor; auto.
Qed.

Lemma didl_node_fields sources server item kids node :
  node_of sources server item kids = Ok node ->
  bm_domain node = DOMAIN
  /\ bm_identifier node = server +:+ "/object/" +:+ didl_id item
  /\ bm_title node = title item
  /\ can_play node = negb (bool_decide (res item = []))
  /\ children node = kids
  /\ _didl_image_url sources server item = Ok (thumbnail node).
Proof.
  unfold didl_node.
  destruct (except_value _ _ _) as [n|]; cbn [rbind]; [|discriminate].
  destruct (MEDIA_CLASS_MAP _) as [mc|]; cbn [rbind]; [|discriminate].
  destruct (MEDIA_TYPE_MAP !! _) as [mt|]; cbn [rbind]; [|discriminate].
  destruct (_didl_image_url _ _ _) as [th|]; cbn [rbind]; [|discriminate].
  intros [= <-]. cbn. by destruct (res item).
Qed.

(** A projected node can play exactly when the object has a resource. Its
    children are absent when none were fetched or the fetched list is
    empty; otherwise there is one child per fetched object, in the order
    fetched, each with the title of its object and without children of its
    own. *)
Theorem projection_children_follow_fetch
  (sources : Sources) (server : string) (item : DidlObject)
  (fetched : option (list DidlObject)) (node : BrowseMediaSource) :
  project sources server item fetched = Ok node ->
  can_play node = negb (bool_decide (res item = []))
  /\ bm_title node = title item
  /\ match fetched with
     | None | Some [] => children node = None
     | Some objects =>
         exists kids,
           children node = Some kids
           /\ Forall2
                (fun kid object =>
                   bm_title kid = title object
                   /\ can_play kid = negb (bool_decide (res object = []))
                   /\ children kid = None)
                kids objects
     end.
Proof.
  unfold _didl_to_media_source.
  destruct fetched as [[|c cs]|]; cbn [rbind].
  - intros Hnode. apply didl_node_fields in Hnode.
    by destruct Hnode as (_ & _ & ? & ? & ? & _).
  - destruct (comprehension _ (c :: cs)) as [kids|] eqn:Hkids;
      cbn [rbind]; [|done].
    intros Hnode. apply didl_node_fields in Hnode.
    destruct Hnode as (_ & _ & Htitle & Hplay & Hkids' & _).
    split; [done|]. split; [done|]. exists kids. split; [done|].
    apply comprehension_Forall2 in Hkids.
    eapply Forall2_impl; [exact Hkids|].
    intros kid object Hkid. apply didl_node_fields in Hkid.
    by destruct Hkid as (_ & _ & ? & ? & ? & _).
  - intros Hnode. apply didl_node_fields in Hnode.
    by destruct Hnode as (_ & _ & ? & ? & ? & _).
Qed.

(** Every identifier the projection hands out can be browsed again: for a
    server name without a slash, the identifier of the node and of each of
    its children parses to that server, the action object and the id of
    the object it stands for (an id may itself contain slashes). *)
Theorem projected_identifiers_parse_back
  (sources : Sources) (server : string) (item : DidlObject)
  (fetched : list DidlObject) (node : BrowseMediaSource) :
  str_mem "/" server = false ->
  project sources server item (Some fetched) = Ok node ->
  async_parse_identifier (mkItem (bm_identifier node))
  = Ok (server, "object", didl_id item)
  /\ Forall2
       (fun kid object =>
          async_parse_identifier (mkItem (bm_identifier kid))
          = Ok (server, "object", didl_id object))
       (default [] (children node)) fetched.
Proof.
  intros Hslash.
  assert (forall object kids kid,
            node_of sources server object kids = Ok kid ->
            async_parse_identifier (mkItem (bm_identifier kid))
            = Ok (server, "object", didl_id object)) as Hparse.
  { intros object kids kid Hkid. apply didl_node_fields in Hkid.
    destruct Hkid as (_ & -> & _).
    change (server +:+ "/object/" +:+ didl_id object)
      with (server +:+ "/" +:+ "object" +:+ "/" +:+ didl_id object).
    by rewrite IdentifierFacts.parse_three_segments. }
  unfold _didl_to_media_source.
  destruct fetched as [|c cs]; cbn [rbind].
  - intros Hnode. split; [by eapply Hparse|].
    apply didl_node_fields in Hnode.
    destruct Hnode as (_ & _ & _ & _ & -> & _). constructor.
  - destruct (comprehension _ (c :: cs)) as [kids|] eqn:Hkids;
      cbn [rbind]; [|done].
    intros Hnode. split; [by eapply Hparse|].
    apply didl_node_fields in Hnode.
    destruct Hnode as (_ & _ & _ & _ & -> & _). cbn [default].
    apply comprehension_Forall2 in Hkids.
    eapply Forall2_impl; [exact Hkids|]. intros kid object. apply Hparse.
Qed.

(** *** Thumbnails *)

Lemma image_resource_url_find device resources :
  Forall (fun r => protocol_info r <> None) resources ->
  image_resource_url device resources
  = Ok ((fun r => get_absolute_url device (uri r))
          <$> List.find is_image_resource resources).
Proof.
  induction 1 as [|r rest Hr _ IH]; cbn; [done|].
  unfold is_image_resource at 1.
  destruct (protocol_info r) as [info|]; [|done].
  by destruct (String.prefix _ info).
Qed.

(** The thumbnail of an object is its album art whenever the object has
    that attribute (even one holding None); otherwise it is the first
    resource served as http-get with an image content format, and there is
    none when no resource is one. A resource without protocol-info that is
    met before any image makes the lookup raise AttributeError. *)
Theorem thumbnail_prefers_album_art
  (sources : Sources) (server : string) (device : DmsDevice)
  (item : DidlObject) :
  sources_get sources server = Some device ->
  (forall art,
     album_art_uri item = Some art ->
     _didl_image_url sources server item
     = Ok (Some (get_absolute_url device art)))
  /\ (album_art_uri item = None ->
      Forall (fun r => protocol_info r <> None) (res item) ->
      _didl_image_url sources server item
      = Ok ((fun r => get_absolute_url device (uri r))
              <$> List.find is_image_resource (res item)))
  /\ (forall blind rest,
        album_art_uri item = None ->
        res item = blind :: rest ->
        protocol_info blind = None ->
        exists msg,
          _didl_image_url sources server item = Raise (AttributeError msg)).
Proof.
  intros Hget. unfold _didl_image_url. rewrite Hget.
  split; [by intros art ->|].
  split.
  - intros ->. apply image_resource_url_find.
  - intros blind rest -> -> Hblind. cbn. rewrite Hblind. by eexists.
Qed.

End WithChildrenClass.

Lemma unknown_server_is_refused_witness :
  async_resolve_media one_server (mkItem "attic/object/5") []
  = (Raise (Unresolvable "Unknown server"), [])
  /\ async_browse_media no_children_class one_server
       (mkItem "attic/object/5") []
     = (Raise (BrowseError "Unknown server"), []).
Proof.
  assert (one_server <> []) as Hsources by discriminate.
  destruct (unknown_server_is_refused no_children_class one_server "attic"
              "object" "5" [] Hsources eq_refl eq_refl eq_refl
              (or_introl eq_refl))
    as (Hresolve & Hbrowse & _).
  split; [exact Hresolve | exact Hbrowse].
Defined.

Lemma search_is_not_implemented_witness :
  async_browse_media no_children_class one_server
    (mkItem "nas/search/dc:title contains x") []
  = (Raise (AttributeError "_async_browse_search"), [])
  /\ async_resolve_media one_server
       (mkItem "nas/search/dc:title contains x") []
     = (Raise (AttributeError "_async_resolve_search"), []).
Proof.
  exact (search_is_not_implemented no_children_class one_server "nas"
           "dc:title contains x" nas [] eq_refl eq_refl).
Defined.

Lemma empty_server_means_first_registered_witness :
  async_resolve_media two_servers (mkItem "/object/9") []
  = async_resolve_media two_servers (mkItem "nas/object/9") []
  /\ async_browse_media no_children_class two_servers (mkItem "/object/9") []
     = async_browse_media no_children_class two_servers
         (mkItem "nas/object/9") [].
Proof.
  exact (empty_server_means_first_registered no_children_class "nas" nas
           [("laptop", laptop)] "object" "9" [] eq_refl eq_refl
           (or_introl eq_refl)).
Defined.

Lemma browse_object_requests_witness :
  _async_browse_object no_children_class den_only "den" "20" []
  = (_didl_to_media_source no_children_class den_only "den" album
       (Some [track "21" "One" [mp3]; track "22" "Two" []]),
     [metadata_request den "20"; children_request den "20"])
  /\ _async_browse_object no_children_class den_only "den" "99" []
     = (Raise (BrowseError "Invalid object or server: No such object"),
        [metadata_request den "99"]).
Proof.
  destruct (browse_object_requests no_children_class den_only "den" den "20"
              [] eq_refl) as (_ & Hok & _).
  destruct (Hok album eq_refl) as (Hlog & _ & Hnode).
  destruct (browse_object_requests no_children_class den_only "den" den "99"
              [] eq_refl) as (Hfail & _ & _).
  split.
  - rewrite (surjective_pairing (_async_browse_object _ _ _ _ _)).
    by rewrite Hlog, (Hnode _ eq_refl).
  - exact (Hfail _ eq_refl).
Defined.

Lemma server_root_is_titled_by_server_witness :
  (exists node,
     fst (async_browse_media no_children_class den_only (mkItem "den") [])
     = Ok node /\ bm_title node = "den")
  /\ snd (async_browse_media no_children_class den_only (mkItem "") [])
     = [metadata_request den "0"; children_request den "0"].
Proof.
  split.
  - eexists. split; [reflexivity|].
    eapply (server_root_is_titled_by_server no_children_class den_only "den"
              den "den" []); [reflexivity | by left | reflexivity].
  - eapply (server_root_is_titled_by_server no_children_class den_only "den"
              den "" []); [reflexivity | by right | reflexivity].
Defined.

Lemma projection_children_follow_fetch_witness :
  exists node kids,
    fst (async_browse_media no_children_class den_only
           (mkItem "den/object/20") []) = Ok node
    /\ can_play node = true
    /\ children node = Some kids
    /\ length kids = 2%nat.
Proof.
  eexists. 
  destruct (projection_children_follow_fetch no_children_class den_only "den"
              album (Some [track "21" "One" [mp3]; track "22" "Two" []])
              _ eq_refl) as (Hplay & _ & kids & Hkids & Hall).
  exists kids. split; [reflexivity|]. split; [exact Hplay|].
  split; [exact Hkids|]. by rewrite (Forall2_length _ _ _ Hall).
Defined.

Lemma projected_identifiers_parse_back_witness :
  exists node,
    _didl_to_media_source no_children_class den_only "den" album
      (Some [track "21" "One" [mp3]]) = Ok node
    /\ async_parse_identifier (mkItem (bm_identifier node))
       = Ok ("den", "object", "20").
Proof.
  eexists. split; [reflexivity|].
  eapply (projected_identifiers_parse_back no_children_class den_only "den"
            album [track "21" "One" [mp3]]); reflexivity.
Defined.

Lemma thumbnail_prefers_album_art_witness :
  _didl_image_url den_only "den" album
  = Ok (Some "http://192.0.2.12:8200/art/cover.jpg").
Proof.
  destruct (thumbnail_prefers_album_art den_only "den" den album eq_refl)
    as (_ & Hfind & _).
  rewrite Hfind; [reflexivity | reflexivity |].
  repeat constructor; discriminate.
Defined.

End MediaSourceFacts.

(** ** The device updaters *)
Module DeviceUpdaterFacts.
Import Py DeviceUpdaters.

Section Registry.
Context {Ip : Type} `{Countable Ip}.
Variable async_start :
  list (DeviceUpdater Ip) -> DeviceUpdater Ip -> option exn.

(** No call for a device updater returns one. Whatever the address and
    whatever the registry holds, the call raises at [with data_lock:],
    before it looks the address up: no updater is constructed, started or
    stored, and the world is left as it was. So it is after any series of
    calls. *)
Theorem device_updater_calls_raise
  (ips : list (option Ip)) (listen_ip : option Ip) (w : World Ip) :
  run_calls async_start ips w = w
  /\ async_get_or_create_device_updater async_start listen_ip w
     = (Raise Eventing.not_a_context_manager, w).
Proof.
  split; [|reflexivity].
  induction ips as [|ip ips IH]; [reflexivity|]. exact IH.
Qed.

End Registry.

End DeviceUpdaterFacts.

(** ** The renderer entity: commands and refresh, continued *)
Module EntityFacts.
Import Py MediaPlayer RendererFixtures RendererWords.

Section Entity.
Context {D : Type} `{DmrDevice D}.

(** *** Commands leave the entity alone *)

Lemma keeps_ret {A} (a : A) : keeps_entity (D:=D) (ret a).
Proof. by intros s. Qed.

Lemma keeps_log l msg : keeps_entity (D:=D) (log l msg).
Proof. by intros s. Qed.

Lemma keeps_prop {A} (f : D -> A) : keeps_entity (D:=D) (prop f).
Proof. by intros s. Qed.

Lemma keeps_call c : keeps_entity (D:=D) (call c).
Proof. intros s. unfold call. by destruct (await c (device s)). Qed.

Lemma keeps_bind {A B} (m : P D A) (k : A -> P D B) :
  keeps_entity m -> (forall a, keeps_entity (k a)) -> keeps_entity (bind m k).
Proof.
  intros Hm Hk s. unfold bind. specialize (Hm s).
  destruct (m s) as [[a|e] s1]; cbn in *; [|done].
  by rewrite Hk.
Qed.

Lemma keeps_catch name (func : P D unit) :
  keeps_entity func -> keeps_entity (catch_request_errors name func).
Proof.
  intros Hfunc s. unfold catch_request_errors, except_request_errors, log.
  specialize (Hfunc s).
  destruct (func s) as [[a|e] s1]; cbn in *; [done|].
  by destruct (is_request_error e).
Qed.

Lemma keeps_gated name (g : D -> bool) note c :
  keeps_entity
    (catch_request_errors name
       (bind (prop g)
          (fun ok => if negb ok then log DEBUG note else call c))).
Proof.
  apply keeps_catch, keeps_bind; [apply keeps_prop|].
  intros []; [apply keeps_call | apply keeps_log].
Qed.

(** No renderer command changes the entity's availability or its renewal
    time, whether the device answers, times out or raises: only the
    refresh writes them. *)
Theorem commands_leave_entity_alone (c : Command) (s : State D) :
  entity (snd (invoke c s)) = entity s.
Proof.
  revert s. change (keeps_entity (invoke c)).
  destruct c; cbn [invoke]; try apply keeps_gated.
  - apply keeps_catch, keeps_call.
  - apply keeps_catch, keeps_call.
  - apply keeps_catch, keeps_bind; [apply keeps_prop|].
    intros []; cbn [negb]; [|apply keeps_log].
    apply keeps_bind; [by intros s|]. intros time. apply keeps_call.
  - apply keeps_catch.
    apply keeps_bind; [apply keeps_log|]. intros _.
    apply keeps_bind; [apply keeps_prop|]. intros stoppable.
    apply keeps_bind.
    { destruct stoppable; [apply keeps_gated | apply keeps_ret]. }
    intros _. apply keeps_bind; [apply keeps_call|]. intros _.
    apply keeps_bind; [apply keeps_call|]. intros _.
    apply keeps_bind; [apply keeps_prop|].
    intros [[]|]; first [apply keeps_ret | apply keeps_gated].
Qed.

(** *** The order of the calls of play_media *)

Lemma gated_calls_any name (g : D -> bool) note c s :
  let out := catch_request_errors name
               (bind (prop g)
                  (fun ok => if negb ok then log DEBUG note else call c)) s in
  calls (snd out) = calls s ++ (if g (device s) then [c] else []).
Proof.
  cbv zeta. rewrite RendererFacts.catch_request_errors_calls.
  unfold bind, prop. destruct (g (device s)); cbn [negb].
  - apply RendererFacts.call_calls.
  - cbn. by rewrite app_nil_r.
Qed.

(** The part of [async_play_media] after the stop. *)
Lemma queued_calls_sent media_id (s : State D) :
  let rest :=
    bind (call (SetTransportUri media_id "Home Assistant")) (fun _ =>
    bind (call WaitForCanPlay) (fun _ =>
    bind (prop device_state) (fun st =>
      match st with
      | Some PLAYING => ret tt
      | _ => async_media_play
      end))) in
  calls (snd (rest s)) = calls s ++ queued_calls media_id (device s).
Proof.
  cbv zeta. unfold queued_calls.
  unfold bind at 1. unfold call at 1.
  destruct (await (SetTransportUri media_id "Home Assistant") (device s))
    as [[[]|e] d1]; [|done].
  unfold bind at 1. unfold call at 1. cbn [device entity calls logger].
  destruct (await WaitForCanPlay d1) as [[[]|e] d2];
    [|cbn; by rewrite <- app_assoc].
  unfold bind at 1. unfold prop at 1. cbn [device].
  pose proof (gated_calls_any "async_media_play" can_play "Cannot do Play"
                Play
                (mkState (entity s) d2
                   ((calls s ++ [SetTransportUri media_id "Home Assistant"])
                    ++ [WaitForCanPlay]) (logger s))) as Hplay.
  cbv zeta in Hplay.
  change (catch_request_errors _ _) with (async_media_play (D:=D)) in Hplay.
  cbn [device calls] in Hplay.
  destruct (device_state d2) as [[]|];
    try (rewrite Hplay; destruct (can_play d2));
    cbn; by rewrite <- !app_assoc.
Qed.

(** [async_media_stop] on a device that can stop. *)
Lemma stop_sent (s : State D) :
  can_stop (device s) = true ->
  let stopped :=
    mkState (entity s) (snd (await Stop (device s))) (calls s ++ [Stop])
      (logger s) in
  async_media_stop s
  = match fst (await Stop (device s)) with
    | Ok _ => (Ok tt, stopped)
    | Raise e =>
        if is_request_error e
        then (Ok tt,
              add_log ERROR "Error during call async_media_stop" stopped)
        else (Raise e, stopped)
    end.
Proof.
  intros Hstop. cbv zeta.
  unfold async_media_stop, catch_request_errors, except_request_errors,
    bind, prop, call, log.
  rewrite Hstop. cbn [negb].
  destruct (await Stop (device s)) as [[[]|e] d1]; cbn; [done|].
  by destruct (is_request_error e).
Qed.

(** The calls play_media sends, for every device: Stop first, exactly
    when the device can stop, and nothing after a stop that raised
    anything but a timeout or a transport error; then the transport URI
    with the given media id and the title "Home Assistant"; then, if that
    returned, the wait until the device can play; then, if that returned
    too, Play, unless the device then reports PLAYING or cannot play.
    Neither the media type nor the keyword arguments are passed on. *)
Theorem play_media_call_order
  (media_type media_id kwargs : string) (s : State D) :
  calls (snd (async_play_media media_type media_id kwargs s))
  = calls s ++ play_media_calls media_id (device s).
Proof.
  unfold async_play_media, play_media_calls.
  rewrite RendererFacts.catch_request_errors_calls.
  unfold bind at 1. unfold log at 1.
  unfold bind at 1. unfold prop at 1. cbn [device add_log].
  set (s0 := add_log DEBUG _ s).
  assert (calls s0 = calls s /\ device s0 = device s) as [Hcalls0 Hdev0]
    by done.
  destruct (can_stop (device s)) eqn:Hstop.
  - unfold bind at 1. rewrite stop_sent by (by rewrite Hdev0).
    rewrite Hdev0, Hcalls0.
    destruct (await Stop (device s)) as [[[]|e] d1]; cbn [fst snd].
    + rewrite queued_calls_sent. cbn. by rewrite <- app_assoc.
    + destruct (is_request_error e); [|done].
      rewrite queued_calls_sent. cbn. by rewrite <- app_assoc.
  - unfold bind at 1. unfold ret at 1.
    by rewrite queued_calls_sent, Hcalls0, Hdev0.
Qed.

(** *** Refresh: other exceptions, and the state reported afterwards *)

(** An exception that is neither a timeout nor a transport error leaves
    the refresh. From the state fetch it leaves the entity as it was. From
    the subscription it leaves the entity marked available with its old
    renewal time, since the flag was set once the fetch had succeeded. *)
Theorem other_errors_leave_refresh (s : State D) (e : exn) :
  is_request_error e = false ->
  (fst (call Update s) = Raise e ->
   async_update s = (Raise e, snd (call Update s))
   /\ entity (snd (async_update s)) = entity s)
  /\ (update_ok s = true ->
      renewal_due s || came_back s = true ->
      fst (subscribe_services (after_update s)) = Raise e ->
      async_update s = (Raise e, snd (subscribe_services (after_update s)))
      /\ entity (snd (async_update s))
         = mkEntity true (_subscription_renew_time (entity s))).
Proof.
  intros He. split.
  - intros Hraise. rewrite RendererFacts.async_update_eq.
    pose proof (RendererFacts.call_entity Update s) as Hentity.
    destruct (call Update s) as [[[]|e'] s1]; cbn in Hraise; [done|].
    injection Hraise as ->. rewrite He. by cbn in *.
  - intros Hok Hwanted Hraise. rewrite RendererFacts.async_update_eq.
    unfold update_ok in Hok.
    destruct (call Update s) as [[[]|e'] s1]; [|done].
    rewrite Hwanted, RendererFacts.resubscribe_eq.
    destruct (RendererFacts.subscribe_services_calls (after_update s))
      as [_ Hentity].
    destruct (RendererFacts.after_update_calls s) as [_ Hafter].
    destruct (subscribe_services (after_update s)) as [[granted|e'] s2];
      cbn in Hraise; [done|].
    injection Hraise as ->. rewrite He. cbn [fst snd] in *.
    split; [done|]. by rewrite Hentity, Hafter.
Qed.

(** An entity that is available but has no renewal time, as it is after a
    subscription raised such an exception on the first refresh, is not
    subscribed by later refreshes: each sends the state fetch alone, and
    as long as the fetch succeeds the entity stays as it is. *)
Theorem available_without_renewal_time_stays_unsubscribed (s : State D) :
  _available (entity s) = true ->
  _subscription_renew_time (entity s) = None ->
  calls (snd (async_update s)) = calls s ++ [Update]
  /\ (update_ok s = true ->
      async_update s = (Ok tt, after_update s)
      /\ entity (after_update s) = entity s).
Proof.
  intros Havailable Hrenew.
  assert (renewal_due s || came_back s = false) as Hwanted.
  { unfold renewal_due, came_back. by rewrite Havailable, Hrenew. }
  rewrite RendererFacts.async_update_eq, Hwanted.
  pose proof (RendererFacts.call_calls Update s) as Hcall.
  destruct (RendererFacts.after_update_calls s) as [Hafter Hentity].
  unfold update_ok.
  destruct (call Update s) as [[[]|e] s1]; cbn [fst snd is_ok] in *.
  - split; [done|]. intros _. split; [done|].
    rewrite Hentity. destruct (entity s) as [a r]. cbn in *. by subst.
  - split; [|done]. by destruct (is_request_error e).
Qed.

(** After a refresh that returned, the entity reports STATE_OFF exactly
    when the state fetch, or the subscription that the refresh went on to
    request, ended in a timeout or transport error. *)
Theorem refresh_reports_off_after_request_error (s : State D) :
  fst (async_update s) = Ok tt ->
  state (snd (async_update s)) = STATE_OFF
  <-> raises_request_error (fst (call Update s)) = true
      \/ (update_ok s && (renewal_due s || came_back s) = true
          /\ raises_request_error (fst (subscribe_services (after_update s)))
             = true).
Proof.
  assert (forall s' : State D,
            state s' = STATE_OFF <-> _available (entity s') = false)
    as Hstate.
  { intros s'. unfold state. destruct (_available (entity s')); cbn.
    - split; [|done]. by destruct (device_state (device s')) as [[]|].
    - done. }
  rewrite Hstate, RendererFacts.async_update_eq.
  unfold update_ok.
  destruct (RendererFacts.after_update_calls s) as [_ Hafter].
  destruct (call Update s) as [[[]|e] s1]; cbn [fst snd is_ok andb].
  - destruct (renewal_due s || came_back s).
    + rewrite RendererFacts.resubscribe_eq.
      destruct (RendererFacts.subscribe_services_calls (after_update s))
        as [_ Hentity].
      destruct (subscribe_services (after_update s)) as [[granted|e] s2];
        cbn [fst snd raises_request_error] in *.
      * intros _. destruct (RendererFacts.now_eq s2) as (_ & Hnow & _).
        unfold with_renew_time. cbn [entity _available].
        rewrite Hnow, Hentity, Hafter. cbn. intuition congruence.
      * destruct (is_request_error e); [|done]. intros _. cbn. intuition congruence.
    + intros _. cbn [snd]. rewrite Hafter. cbn. intuition congruence.
  - destruct (is_request_error e) eqn:He; [|done]. intros _. cbn.
    rewrite He. intuition congruence.
Qed.

End Entity.

(** A jukebox that is already playing is stopped, given the new URI and
    waited for, and not sent Play. *)
Example jukebox_play_media_calls :
  calls (snd (async_play_media "music" "http://192.0.2.10/song.mp3" "{}"
                (mkState new_entity (mkJukebox 0%Z) [] [])))
  = [Stop; SetTransportUri "http://192.0.2.10/song.mp3" "Home Assistant";
     WaitForCanPlay].
Proof. reflexivity. Qed.

Lemma other_errors_leave_refresh_witness :
  let refused := mkLibExn true false false "412 Precondition Failed" in
  let s := fresh (mkMock true (Some refused) 0%Z half_hour) in
  async_update s = (Raise (Lib refused), snd (call Update s))
  /\ entity (snd (async_update s)) = new_entity.
Proof.
  cbv zeta.
  destruct (other_errors_leave_refresh
              (fresh (mkMock true
                        (Some (mkLibExn true false false
                                 "412 Precondition Failed")) 0%Z half_hour))
              (Lib (mkLibExn true false false "412 Precondition Failed"))
              eq_refl) as [Hfetch _].
  exact (Hfetch eq_refl).
Defined.

Lemma available_without_renewal_time_stays_unsubscribed_witness :
  let s := mkState (mkEntity true None) full_renderer [] [] in
  calls (snd (async_update s)) = [Update]
  /\ entity (snd (async_update s)) = mkEntity true None.
Proof.
  cbv zeta.
  destruct (available_without_renewal_time_stays_unsubscribed
              (mkState (mkEntity true None) full_renderer [] [])
              eq_refl eq_refl) as [Hcalls Hstay].
  destruct (Hstay eq_refl) as [Heq Hentity].
  split; [exact Hcalls|]. rewrite Heq. exact Hentity.
Defined.

Lemma refresh_reports_off_after_request_error_witness :
  state (snd (async_update (fresh unreachable_renderer))) = STATE_OFF
  /\ state (snd (async_update (fresh full_renderer))) = STATE_ON.
Proof.
  split; [|reflexivity].
  apply refresh_reports_off_after_request_error; [reflexivity|].
  left. reflexivity.
Defined.

End EntityFacts.

Module FeatureFacts.
Import Py MediaPlayer Features.

Section Entity.
Context {D : Type} `{DmrDevice D}.

Lemma offers_or_if (condition : bool) (x flag g : Z) :
  offers (or_if condition x flag) g
  = offers x g || (condition && offers flag g).
Proof.
  unfold offers, or_if. destruct condition; [|by rewrite orb_false_r].
  rewrite Z.land_lor_distr_l. rewrite andb_true_l.
  destruct (Z.land x g =? 0)%Z eqn:Hx, (Z.land flag g =? 0)%Z eqn:Hf;
    cbn [negb orb];
    [apply negb_false_iff | apply negb_true_iff ..];
    rewrite ?Z.eqb_eq, ?Z.eqb_neq in *; rewrite ?Z.lor_eq_0_iff; tauto.
Qed.

Lemma offers_supported_features (d : D) (g : Z) :
  offers (supported_features d) g
  = (has_volume_level d && offers SUPPORT_VOLUME_SET g)
    || (has_volume_mute d && offers SUPPORT_VOLUME_MUTE g)
    || (has_play d && offers SUPPORT_PLAY g)
    || (has_pause d && offers SUPPORT_PAUSE g)
    || (has_stop d && offers SUPPORT_STOP g)
    || (has_previous d && offers SUPPORT_PREVIOUS_TRACK g)
    || (has_next d && offers SUPPORT_NEXT_TRACK g)
    || (has_play_media d && offers SUPPORT_PLAY_MEDIA g)
    || (has_seek_rel_time d && offers SUPPORT_SEEK g).
Proof.
  unfold supported_features. cbv zeta.
  rewrite !offers_or_if. reflexivity.
Qed.

Lemma offers_flag_of (c : Command) (d : D) :
  offers (supported_features d) (flag_of c) = declared c d.
Proof.
  rewrite offers_supported_features.
  destruct c; cbn [flag_of declared];
    repeat match goal with
           | |- context [offers ?a ?b] =>
               let v := eval vm_compute in (offers a b) in
               change (offers a b) with v
           end;
    rewrite ?andb_false_r, ?andb_true_r, ?orb_false_r, ?orb_false_l;
    reflexivity.
Qed.

(** The value of [supported_features] can be read back flag by flag: the
    flag of a command is set exactly when the device declares the
    command's action, whatever else it declares, and none of the flags
    the entity does not name is ever set. So a command that is let
    through to the device, its can-check being true, is one that Home
    Assistant offers. *)
Theorem features_tell_declared_actions (d : D) :
  (forall c, offers (supported_features d) (flag_of c) = declared c d)
  /\ (forall flag, flag ∈ other_flags ->
                   offers (supported_features d) flag = false)
  /\ (forall c can, gate c = Some can -> can d = true ->
                    offers (supported_features d) (flag_of c) = true).
Proof.
  split; [intros c; apply offers_flag_of|]. split.
  - intros flag Hflag. rewrite offers_supported_features.
    unfold other_flags in Hflag.
    repeat (apply elem_of_cons in Hflag as [-> | Hflag]);
      [..| by apply elem_of_nil in Hflag];
      repeat match goal with
             | |- context [offers ?a ?b] =>
                 let v := eval vm_compute in (offers a b) in
                 change (offers a b) with v
             end;
      rewrite ?andb_false_r; reflexivity.
  - intros c can Hgate Hcan. rewrite offers_flag_of.
    destruct c; cbn in Hgate; try discriminate;
      injection Hgate as <-; cbn [declared];
      eauto using can_pause_has, can_play_has, can_stop_has,
        can_seek_rel_time_has, can_previous_has, can_next_has.
Qed.

End Entity.

End FeatureFacts.

Module DmrSetupFacts.
Import Py Coroutine DmrSetup DmrSetupWords.

Lemma list_remove_last (x : string) (l : list string) :
  exists rest, list_remove x (l ++ [x]) = Some rest /\ rest ≡ₚ l.
Proof.
  induction l as [|y l IH]; cbn.
  - rewrite String.eqb_refl. by exists [].
  - destruct (String.eqb y x) eqn:Hy.
    + apply String.eqb_eq in Hy as ->. exists (l ++ [x]). split; [done|].
      by rewrite Permutation_app_comm.
    + destruct IH as (rest & -> & Hperm). exists (y :: rest).
      split; [done|]. by rewrite Hperm.
Qed.

Create HintDb setup.
#[local] Hint Unfold async_setup_entry async_unload_entry bind
  _create_domain_data get getitem set_domain_data ret raise except
  create_device ask tell rediscover async_update_entry set_entry
  store_device store_undo pop_undo pop_device call_undo
  add_update_listener get_domain_data created listening relocated holding
  without : setup.

Section Setup.
Context {Device W : Type}.
Variable async_create_device : string -> W -> result Device * W.
Variable async_find_device :
  string -> option string -> W -> result (option string) * W.
Variable async_unload_platforms : W -> result bool * W.

Local Abbreviation setup :=
  (async_setup_entry async_create_device async_find_device).
Local Abbreviation unload :=
  (async_unload_entry (Device:=Device) async_unload_platforms).

Lemma setup_cases (h : Hass Device W) :
  let listen_ip := options (entry h) !! CONF_LISTEN_IP in
  match data (entry h) !! CONF_URL, data (entry h) !! CONF_DEVICE_ID with
  | None, _ => setup h = (Raise (KeyError CONF_URL), given_up h (world h) [])
  | Some _, None =>
      setup h = (Raise (KeyError CONF_DEVICE_ID), given_up h (world h) [])
  | Some url, Some udn =>
      match async_create_device url (world h) with
      | (Ok device, w1) =>
          setup h
          = (Ok true,
             ready h (entry h) device w1 [CreateDevice url; SetupPlatforms])
      | (Raise e, w1) =>
          if is_setup_error e then
            match async_find_device udn listen_ip w1 with
            | (Raise e1, w2) =>
                setup h
                = (Raise e1,
                   given_up h w2 [CreateDevice url; FindDevice udn listen_ip])
            | (Ok found, w2) =>
                if opt_str_truthy found then
                  let location := default EmptyString found in
                  match async_create_device location w2 with
                  | (Ok device, w3) =>
                      setup h
                      = (Ok true,
                         ready h (relocated location (entry h)) device w3
                           [CreateDevice url; FindDevice udn listen_ip;
                            CreateDevice location;
                            UpdateEntry
                              (<[CONF_URL := location]> (data (entry h)));
                            SetupPlatforms])
                  | (Raise e2, w3) =>
                      setup h
                      = (Raise (if is_setup_error e2
                                then ConfigEntryNotReady else e2),
                         given_up h w3
                           [CreateDevice url; FindDevice udn listen_ip;
                            CreateDevice location])
                  end
                else
                  setup h
                  = (Raise ConfigEntryNotReady,
                     given_up h w2
                       [CreateDevice url; FindDevice udn listen_ip])
            end
          else setup h = (Raise e, given_up h w1 [CreateDevice url])
      end
  end.
Proof.
  destruct h as [dd0 e w cs].
  unfold given_up, ready.
  cbn [entry data options world calls domain_data].
  destruct (data e !! CONF_URL) as [url|] eqn:Hurl;
    [destruct (data e !! CONF_DEVICE_ID) as [udn|] eqn:Hudn;
     [destruct (async_create_device url w) as [[device|e1] w1] eqn:Hc1;
      [|destruct (is_setup_error e1) eqn:He1;
        [destruct (async_find_device udn (options e !! CONF_LISTEN_IP) w1)
           as [[found|e2] w2] eqn:Hf;
         [destruct (opt_str_truthy found) eqn:Hfound;
          [destruct (async_create_device (default EmptyString found) w2)
             as [[device|e3] w3] eqn:Hc2;
           [|destruct (is_setup_error e3) eqn:He3]|]|]|]]|]|];
    destruct dd0 as [dd|];
    repeat (progress (autounfold with setup; cbn;
                      rewrite ?Hurl, ?Hudn, ?Hc1, ?He1, ?Hf, ?Hfound, ?Hc2,
                        ?He3));
    rewrite ?app_nil_r, <- ?app_assoc;
    try reflexivity.
Qed.

Lemma unload_cases (h : Hass Device W) :
  let key := entry_id (entry h) in
  match domain_data h with
  | None => unload h = (Raise (KeyError DOMAIN), h)
  | Some dd =>
      let (unloaded, w) := async_unload_platforms (world h) in
      let asked := calls h ++ [UnloadPlatforms] in
      match unloaded with
      | Raise e => unload h = (Raise e, mkHass (Some dd) (entry h) w asked)
      | Ok unload_ok =>
          match undo_update_listeners dd !! key with
          | None =>
              unload h
              = (Raise (KeyError key), mkHass (Some dd) (entry h) w asked)
          | Some undo =>
              let dd1 :=
                mkDomainData (upnp_devices dd)
                  (delete key (undo_update_listeners dd)) in
              match list_remove (removes undo) (update_listeners (entry h))
              with
              | None =>
                  unload h
                  = (Raise (ValueError "list.remove(x): x not in list"),
                     mkHass (Some dd1) (entry h) w asked)
              | Some rest =>
                  let e1 :=
                    mkEntry key (data (entry h)) (options (entry h)) rest in
                  match upnp_devices dd !! key with
                  | None =>
                      unload h
                      = (Raise (KeyError key), mkHass (Some dd1) e1 w asked)
                  | Some _ =>
                      unload h
                      = (Ok unload_ok,
                         mkHass (Some (without key dd)) e1 w asked)
                  end
              end
          end
      end
  end.
Proof.
  destruct h as [dd0 e w cs].
  cbn [entry data options world calls domain_data].
  destruct dd0 as [dd|]; [|reflexivity].
  destruct (async_unload_platforms w) as [[unload_ok|e1] w1] eqn:Hu;
    [destruct (undo_update_listeners dd !! entry_id e) as [undo|] eqn:Hundo;
     [destruct (list_remove (removes undo) (update_listeners e))
        as [rest|] eqn:Hrest;
      [destruct (upnp_devices dd !! entry_id e) as [device|] eqn:Hdev|]|]|];
    repeat (progress (autounfold with setup; cbn;
                      rewrite ?Hu, ?Hundo, ?Hrest, ?Hdev));
    reflexivity.
Qed.

(** A set-up that raises has stored nothing: the domain data is what
    [_create_domain_data] returned, the entry is as it was, and neither
    the entry was updated nor the platforms were set up. *)
Theorem failed_setup_stores_nothing (h : Hass Device W) (e : exn) :
  fst (setup h) = Raise e ->
  domain_data (snd (setup h)) = Some (created (domain_data h))
  /\ entry (snd (setup h)) = entry h
  /\ exists trace,
       calls (snd (setup h)) = calls h ++ trace
       /\ (SetupPlatforms ∉ trace)
       /\ (forall new_data, UpdateEntry new_data ∉ trace).
Proof.
  pose proof (setup_cases h) as Hcases. cbv zeta in Hcases.
  assert (forall w trace,
            SetupPlatforms ∉ trace ->
            (forall new_data, UpdateEntry new_data ∉ trace) ->
            setup h = (Raise e, given_up h w trace) ->
            domain_data (snd (setup h)) = Some (created (domain_data h))
            /\ entry (snd (setup h)) = entry h
            /\ exists trace,
                 calls (snd (setup h)) = calls h ++ trace
                 /\ (SetupPlatforms ∉ trace)
                 /\ (forall new_data, UpdateEntry new_data ∉ trace))
    as Hgiven.
  { intros w trace Hno_setup Hno_update ->. cbn.
    split; [done|]. split; [done|]. by exists trace. }
  assert (forall trace : list Call,
            Forall (fun c => match c with
                             | CreateDevice _ | FindDevice _ _ => True
                             | _ => False
                             end) trace ->
            (SetupPlatforms ∉ trace)
            /\ (forall new_data, UpdateEntry new_data ∉ trace)) as Hquiet.
  { intros trace Hall. rewrite Forall_forall in Hall.
    split; [|intros new_data]; intros Hin; by apply Hall in Hin. }
  intros Hraise.
  destruct (data (entry h) !! CONF_URL) as [url|];
    [destruct (data (entry h) !! CONF_DEVICE_ID) as [udn|];
     [destruct (async_create_device url (world h)) as [[device|e1] w1];
      [|destruct (is_setup_error e1);
        [destruct (async_find_device udn _ w1) as [[found|e2] w2];
         [destruct (opt_str_truthy found);
          [destruct (async_create_device _ w2) as [[device|e3] w3]|]|]|]]|]|];
    rewrite Hcases in Hraise; cbn [fst] in Hraise; try discriminate;
    injection Hraise as <-;
    (eapply Hgiven; [..|exact Hcases]; apply Hquiet; repeat constructor).
Qed.

(** After a set-up that returned, the entry records the location the
    stored device was created from, whether that was the location it had
    or the one discovery found; one update listener was added, and its
    undo callable is stored next to the device. Discovery is asked only
    after the first attempt, and a device is created at most twice. *)
Theorem setup_records_location_of_device (h : Hass Device W) (b : bool) :
  fst (setup h) = Ok b ->
  b = true
  /\ exists location device w w',
       async_create_device location w = (Ok device, w')
       /\ domain_data (snd (setup h))
          = Some (holding (entry_id (entry h)) device
                    (created (domain_data h)))
       /\ data (entry (snd (setup h)))
          = <[CONF_URL := location]> (data (entry h))
       /\ update_listeners (entry (snd (setup h)))
          = update_listeners (entry h) ++ ["_update_listener"]
       /\ (calls (snd (setup h))
           = calls h ++ [CreateDevice location; SetupPlatforms]
           \/ exists url udn,
                data (entry h) !! CONF_URL = Some url
                /\ data (entry h) !! CONF_DEVICE_ID = Some udn
                /\ calls (snd (setup h))
                   = calls h
                     ++ [CreateDevice url;
                         FindDevice udn (options (entry h) !! CONF_LISTEN_IP);
                         CreateDevice location;
                         UpdateEntry (data (entry (snd (setup h))));
                         SetupPlatforms]).
Proof.
  pose proof (setup_cases h) as Hcases. cbv zeta in Hcases.
  intros Hok.
  destruct (data (entry h) !! CONF_URL) as [url|] eqn:Hurl;
    [destruct (data (entry h) !! CONF_DEVICE_ID) as [udn|] eqn:Hudn;
     [destruct (async_create_device url (world h)) as [[device|e1] w1]
        eqn:Hc1;
      [|destruct (is_setup_error e1);
        [destruct (async_find_device udn _ w1) as [[found|e2] w2];
         [destruct (opt_str_truthy found);
          [destruct (async_create_device _ w2) as [[device|e3] w3] eqn:Hc2
          |]|]|]]|]|];
    rewrite Hcases in Hok |- *; cbn [fst] in Hok; try discriminate;
    injection Hok as <-; (split; [reflexivity|]).
  - exists url, device, (world h), w1. cbn.
    split; [done|]. split; [done|].
    split; [by rewrite insert_id|]. split; [done|]. by left.
  - eexists _, device, w2, w3. cbn.
    split; [exact Hc2|]. split; [done|]. split; [done|]. split; [done|].
    right. by exists url, udn.
Qed.

(** A renderer whose stored location fails with a timeout, a transport
    error or a UPnP error is looked for once. ConfigEntryNotReady is
    raised when discovery finds nothing, and when the location found
    fails with one of those errors too. An error of the discovery itself
    is not converted, whatever its class. *)
Theorem unreachable_renderer_is_not_ready
  (h : Hass Device W) (url udn : string) (e : exn) (w1 : W) :
  data (entry h) !! CONF_URL = Some url ->
  data (entry h) !! CONF_DEVICE_ID = Some udn ->
  async_create_device url (world h) = (Raise e, w1) ->
  is_setup_error e = true ->
  let listen_ip := options (entry h) !! CONF_LISTEN_IP in
  let asked := [CreateDevice url; FindDevice udn listen_ip] in
  match async_find_device udn listen_ip w1 with
  | (Raise e1, _) =>
      fst (setup h) = Raise e1 /\ calls (snd (setup h)) = calls h ++ asked
  | (Ok found, w2) =>
      if opt_str_truthy found then
        let location := default EmptyString found in
        match fst (async_create_device location w2) with
        | Ok _ => fst (setup h) = Ok true
        | Raise e2 =>
            fst (setup h)
            = Raise (if is_setup_error e2 then ConfigEntryNotReady else e2)
            /\ calls (snd (setup h))
               = calls h ++ asked ++ [CreateDevice location]
        end
      else
        fst (setup h) = Raise ConfigEntryNotReady
        /\ calls (snd (setup h)) = calls h ++ asked
  end.
Proof.
  intros Hurl Hudn Hc1 He.
  pose proof (setup_cases h) as Hcases. cbv zeta in Hcases.
  rewrite Hurl, Hudn, Hc1, He in Hcases. cbv zeta.
  destruct (async_find_device udn _ w1) as [[found|e2] w2];
    [destruct (opt_str_truthy found);
     [destruct (async_create_device _ w2) as [[device|e3] w3]|]|];
    rewrite Hcases; by cbn.
Qed.

(** Unloading an entry right after its set-up returns what the platforms
    answered and takes the device and the undo callable out again; the
    entry has the update listeners it had before the set-up, and keeps
    the location the set-up recorded. *)
Theorem unload_undoes_setup (h : Hass Device W) (unload_ok : bool) (w : W) :
  fst (setup h) = Ok true ->
  async_unload_platforms (world (snd (setup h))) = (Ok unload_ok, w) ->
  let key := entry_id (entry h) in
  let h1 := snd (setup h) in
  let h2 := snd (unload h1) in
  fst (unload h1) = Ok unload_ok
  /\ domain_data h2 = Some (without key (created (domain_data h)))
  /\ update_listeners (entry h2) ≡ₚ update_listeners (entry h)
  /\ data (entry h2) = data (entry h1)
  /\ calls h2 = calls h1 ++ [UnloadPlatforms].
Proof.
  intros Hok Hunload. cbv zeta.
  assert (exists e device w1 trace,
            snd (setup h) = ready h e device w1 trace
            /\ entry_id e = entry_id (entry h)
            /\ update_listeners e = update_listeners (entry h))
    as (e & device & w1 & trace & Hready & Hid & Hlisteners).
  { pose proof (setup_cases h) as Hcases. cbv zeta in Hcases.
    destruct (data (entry h) !! CONF_URL) as [url|];
      [destruct (data (entry h) !! CONF_DEVICE_ID) as [udn|];
       [destruct (async_create_device url (world h)) as [[device|e1] w1];
        [|destruct (is_setup_error e1);
          [destruct (async_find_device udn _ w1) as [[found|e2] w2];
           [destruct (opt_str_truthy found);
            [destruct (async_create_device _ w2) as [[device|e3] w3]
            |]|]|]]|]|];
      rewrite Hcases in Hok |- *; cbn [fst] in Hok; try discriminate;
      cbn [snd]; by eexists _, _, _, _. }
  rewrite Hready in Hunload |- *.
  pose proof (unload_cases (ready h e device w1 trace)) as Hcases.
  cbv zeta in Hcases. unfold ready in Hcases at 1 2 3 4 5.
  cbn [domain_data world entry entry_id calls update_listeners listening
         holding undo_update_listeners upnp_devices removes data options]
    in Hcases.
  unfold ready in Hunload. cbn [world] in Hunload.
  rewrite Hunload in Hcases.
  rewrite !lookup_insert_eq in Hcases. cbn [removes] in Hcases.
  destruct (list_remove_last "_update_listener" (update_listeners e))
    as (rest & Hrest & Hperm).
  rewrite Hrest in Hcases. rewrite Hcases. cbn.
  split; [done|]. split.
  - unfold without, holding. cbn.
    by rewrite !delete_insert_eq, Hid.
  - split; [by rewrite Hperm, Hlisteners|]. done.
Qed.

(** Unloading an entry that is not set up raises KeyError and takes
    nothing out. With domain data in place the platforms have been asked
    to unload by then, and a device stored for the entry stays stored. *)
Theorem unload_needs_setup (h : Hass Device W) (unload_ok : bool) (w : W) :
  not_set_up h ->
  async_unload_platforms (world h) = (Ok unload_ok, w) ->
  (exists key, fst (unload h) = Raise (KeyError key))
  /\ domain_data (snd (unload h)) = domain_data h
  /\ entry (snd (unload h)) = entry h
  /\ calls (snd (unload h))
     = calls h ++ match domain_data h with
                  | Some _ => [UnloadPlatforms]
                  | None => []
                  end.
Proof.
  intros Hnot Hunload.
  pose proof (unload_cases h) as Hcases. cbv zeta in Hcases.
  unfold not_set_up in Hnot.
  destruct (domain_data h) as [dd|] eqn:Hdd.
  - rewrite Hunload, Hnot in Hcases. rewrite Hcases. cbn. eauto.
  - rewrite Hcases. cbn. rewrite app_nil_r. eauto.
Qed.

End Setup.

Import DmrSetupFixtures.

Lemma failed_setup_stores_nothing_witness :
  let run := async_setup_entry create_moved find_nothing before_setup in
  fst run = Raise ConfigEntryNotReady
  /\ domain_data (snd run) = Some (mkDomainData ∅ ∅)
  /\ entry (snd run) = tv_entry.
Proof.
  split; [reflexivity|].
  destruct (failed_setup_stores_nothing create_moved find_nothing
              before_setup ConfigEntryNotReady eq_refl)
    as (Hdata & Hentry & _).
  split; [exact Hdata | exact Hentry].
Defined.

Lemma setup_records_location_of_device_witness :
  let run := async_setup_entry create_moved find_moved before_setup in
  fst run = Ok true
  /\ data (entry (snd run)) !! CONF_URL = Some new_location.
Proof.
  split; [reflexivity|].
  destruct (setup_records_location_of_device create_moved find_moved
              before_setup true eq_refl)
    as (_ & location & device & w & w' & Hcreated & _ & Hdata & _).
  cbv zeta. rewrite Hdata, lookup_insert_eq. f_equal.
  unfold create_moved in Hcreated.
  destruct (String.eqb location new_location) eqn:Hlocation;
    [by apply String.eqb_eq in Hlocation | discriminate].
Defined.

Lemma unreachable_renderer_is_not_ready_witness :
  fst (async_setup_entry create_moved find_nothing before_setup)
  = Raise ConfigEntryNotReady
  /\ calls (snd (async_setup_entry create_moved find_nothing before_setup))
     = [CreateDevice old_location; FindDevice "uuid:tv" None].
Proof.
  exact (unreachable_renderer_is_not_ready create_moved find_nothing
           before_setup old_location "uuid:tv"
           (Lib (mkLibExn false true false "timed out")) 1
           eq_refl eq_refl eq_refl eq_refl).
Defined.

Lemma unload_undoes_setup_witness :
  let h1 := snd (async_setup_entry create_moved find_moved before_setup) in
  let h2 := snd (async_unload_entry unload_fine h1) in
  fst (async_unload_entry unload_fine h1) = Ok true
  /\ domain_data h2 = Some (without "entry1" (created None))
  /\ update_listeners (entry h2) ≡ₚ []
  /\ data (entry h2) = data (entry h1)
  /\ calls h2 = calls h1 ++ [UnloadPlatforms].
Proof.
  exact (unload_undoes_setup create_moved find_moved unload_fine
           before_setup true 4 eq_refl eq_refl).
Defined.

Lemma unload_needs_setup_witness :
  fst (async_unload_entry unload_fine before_setup)
  = Raise (KeyError DOMAIN)
  /\ calls (snd (async_unload_entry unload_fine before_setup)) = [].
Proof.
  destruct (unload_needs_setup unload_fine before_setup true 1 I eq_refl)
    as (_ & _ & _ & Hcalls).
  split; [reflexivity | exact Hcalls].
Defined.

End DmrSetupFacts.

Module DmsSetupFacts.
Import Py MediaSource Coroutine DmsSetup DmsSetupWords.

Lemma dict_get_set_eq {V} (d : Dict V) key value :
  dict_get (dict_set d key value) key = Some value.
Proof.
  induction d as [|[k v] d IH]; cbn.
  - by rewrite decide_True.
  - destruct (decide (k = key)) as [->|Hne]; cbn.
    + by rewrite decide_True.
    + by rewrite decide_False.
Qed.

Lemma dict_get_set_ne {V} (d : Dict V) key value other :
  other <> key ->
  dict_get (dict_set d key value) other = dict_get d other.
Proof.
  intros Hne. induction d as [|[k v] d IH]; cbn.
  - by rewrite decide_False.
  - destruct (decide (k = key)) as [->|Hk]; cbn.
    + by rewrite !decide_False.
    + by rewrite IH.
Qed.

Lemma dict_del_set_fresh {V} (d : Dict V) key value :
  dict_get d key = None ->
  dict_del (dict_set d key value) key = Some d.
Proof.
  induction d as [|[k v] d IH]; cbn.
  - by rewrite decide_True.
  - destruct (decide (k = key)) as [->|Hk]; [done|].
    intros Hget. cbn. rewrite decide_False by done. by rewrite IH.
Qed.

Lemma dict_get_keys {V} (d : Dict V) key :
  dict_get d key = None <-> key ∉ map fst d.
Proof.
  induction d as [|[k v] d IH]; cbn.
  - split; [intros _; apply not_elem_of_nil | done].
  - rewrite not_elem_of_cons.
    destruct (decide (k = key)) as [->|Hk]; [by intuition|].
    rewrite IH. intuition congruence.
Qed.

Lemma dict_del_gone {V} (d rest : Dict V) key :
  NoDup (map fst d) -> dict_del d key = Some rest ->
  dict_get rest key = None
  /\ forall other, other <> key -> dict_get rest other = dict_get d other.
Proof.
  revert rest. induction d as [|[k v] d IH]; intros rest Hnodup; [done|].
  cbn in *. apply NoDup_cons in Hnodup as [Hk Hnodup].
  destruct (decide (k = key)) as [->|Hne].
  - intros [= <-]. split; [by apply dict_get_keys|].
    intros other Hother. by rewrite decide_False.
  - destruct (dict_del d key) as [rest'|] eqn:Hdel; [|done].
    intros [= <-]. destruct (IH rest' Hnodup eq_refl) as [Hgone Hothers].
    cbn. rewrite decide_False by done. split; [done|].
    intros other Hother. destruct (decide (k = other)); [done|].
    by apply Hothers.
Qed.

Lemma dict_del_some {V} (d : Dict V) key :
  dict_get d key <> None -> is_Some (dict_del d key).
Proof.
  induction d as [|[k v] d IH]; cbn; [done|].
  destruct (decide (k = key)); [by eexists|].
  intros Hget. destruct (IH Hget) as [rest ->]. by eexists.
Qed.

Lemma dict_del_none {V} (d : Dict V) key :
  dict_get d key = None -> dict_del d key = None.
Proof.
  induction d as [|[k v] d IH]; cbn; [done|].
  destruct (decide (k = key)); [done|].
  intros Hget. by rewrite IH.
Qed.

Lemma dict_set_first {V} (d : Dict V) key value :
  d <> [] -> head (map fst (dict_set d key value)) = head (map fst d).
Proof.
  destruct d as [|[k v] d]; [done|]. intros _. cbn.
  by destruct (decide (k = key)).
Qed.

Lemma dict_get_str_keyed (sources : Sources) (key : string) :
  dict_get (str_keyed sources) (Some key) = sources_get sources key.
Proof.
  induction sources as [|[k d] sources IH]; [done|]. cbn.
  destruct (String.eqb k key) eqn:Hk.
  - apply String.eqb_eq in Hk as ->. by rewrite decide_True.
  - apply String.eqb_neq in Hk. rewrite decide_False; [exact IH | congruence].
Qed.

Lemma dict_set_str_keyed (sources : Sources) (key : string) device :
  exists sources',
    dict_set (str_keyed sources) (Some key) device = str_keyed sources'
    /\ (sources <> [] -> first_key sources' = first_key sources).
Proof.
  induction sources as [|[k d] sources IH].
  - by exists [(key, device)].
  - change (str_keyed ((k, d) :: sources))
      with ((Some k, d) :: str_keyed sources).
    cbn [dict_set].
    case_decide as Hk.
    + exists ((k, device) :: sources). split; [|done].
      injection Hk as ->. reflexivity.
    + destruct IH as (sources' & -> & _).
      by exists ((k, d) :: sources').
Qed.

Create HintDb dms_setup.
#[local] Hint Unfold async_setup_entry async_unload_entry
  async_construct_device async_get_media_source bind get getitem ret raise
  except ask get_domain set_domain domain_getitem domain_setitem domain_pop
  setdefault_domain slot_name : dms_setup.

Section Setup.
Context {W : Type}.
Variable async_create_device : string -> W -> result DmsDevice * W.
Variable async_update : DmsDevice -> W -> result unit * W.
Variable hostname : DmsDevice -> option string.

Local Abbreviation setup :=
  (async_setup_entry async_create_device async_update hostname).
Local Abbreviation unload := (async_unload_entry (W:=W) hostname).
Local Abbreviation device_name := (DmsSetup.device_name hostname).

Lemma server_setup_cases (entry : ConfigEntry) (h : Hass W) :
  let d0 := defaulted (domain h) in
  match data entry !! CONF_URL with
  | None =>
      setup entry h
      = (Raise (KeyError CONF_URL), mkHass (Some d0) (world h) (calls h))
  | Some location =>
      match async_create_device location (world h) with
      | (Raise e, w1) =>
          setup entry h
          = (Raise (if is_request_error e then ConfigEntryNotReady else e),
             mkHass (Some d0) w1 (calls h ++ [CreateDevice location]))
      | (Ok device, w1) =>
          let asked :=
            calls h ++ [CreateDevice location; UpdateDevice (name device)] in
          match async_update device w1 with
          | (Raise e, w2) =>
              setup entry h = (Raise e, mkHass (Some d0) w2 asked)
          | (Ok _, w2) =>
              let d1 := <[unique_id entry := Server device]> d0 in
              match d1 !! Some BY_NAME with
              | None =>
                  setup entry h
                  = (Raise (KeyError BY_NAME), mkHass (Some d1) w2 asked)
              | Some (Server _) =>
                  setup entry h
                  = (Raise
                       (TypeError
                          "'DmsDevice' object does not support item assignment"),
                     mkHass (Some d1) w2 asked)
              | Some (Names by_name) =>
                  setup entry h
                  = (Ok true,
                     mkHass
                       (Some (<[Some BY_NAME :=
                                  Names (dict_set by_name (device_name device)
                                           device)]> d1))
                       w2 asked)
              end
          end
      end
  end.
Proof.
  destruct h as [d w cs]. cbn [domain world calls].
  cbv zeta.
  assert (exists d0, defaulted d = d0
                     /\ d0 = match d with
                             | Some d => d
                             | None => {[Some BY_NAME := Names []]}
                             end) as (d0 & -> & Hd0).
  { eexists. split; [reflexivity|]. by destruct d. }
  destruct (data entry !! CONF_URL) as [location|] eqn:Hurl;
    [destruct (async_create_device location w) as [[device|e1] w1] eqn:Hc;
     [destruct (async_update device w1) as [[[]|e2] w2] eqn:Hu;
      [destruct (<[unique_id entry := Server device]> d0 !! Some BY_NAME)
         as [[other|by_name]|] eqn:Hnames|]
     |destruct (is_request_error e1) eqn:He1]|];
    destruct d as [d|]; subst d0;
    repeat (progress (autounfold with dms_setup; cbn;
                      rewrite ?Hurl, ?Hc, ?Hu, ?Hnames, ?He1));
    rewrite <- ?app_assoc; reflexivity.
Qed.

Lemma server_unload_cases (entry : ConfigEntry) (h : Hass W) :
  match domain h with
  | None => unload entry h = (Raise (KeyError DOMAIN), h)
  | Some d =>
      match d !! unique_id entry with
      | None =>
          unload entry h = (Raise (KeyError (key_text (unique_id entry))), h)
      | Some slot =>
          let d1 := delete (unique_id entry) d in
          let h1 := mkHass (Some d1) (world h) (calls h) in
          match d1 !! Some BY_NAME with
          | None => unload entry h = (Raise (KeyError BY_NAME), h1)
          | Some names =>
              match slot with
              | Names _ =>
                  unload entry h
                  = (Raise
                       (AttributeError
                          "'dict' object has no attribute 'device'"), h1)
              | Server device =>
                  match names with
                  | Server _ =>
                      unload entry h
                      = (Raise
                           (TypeError
                              "'DmsDevice' object does not support item deletion"),
                         h1)
                  | Names by_name =>
                      match dict_del by_name (device_name device) with
                      | None =>
                          unload entry h
                          = (Raise
                               (KeyError (key_text (device_name device))),
                             h1)
                      | Some rest =>
                          unload entry h
                          = (Ok true,
                             mkHass
                               (Some (<[Some BY_NAME := Names rest]> d1))
                               (world h) (calls h))
                      end
                  end
              end
          end
      end
  end.
Proof.
  destruct h as [d w cs]. cbn [domain world calls].
  destruct d as [d|]; [|reflexivity].
  destruct (d !! unique_id entry) as [slot|] eqn:Hslot;
    [cbv zeta;
     destruct (delete (unique_id entry) d !! Some BY_NAME)
       as [names|] eqn:Hnames;
     [destruct slot as [device|table];
      [destruct names as [other|by_name];
       [|destruct (dict_del by_name (device_name device))
           as [rest|] eqn:Hdel]|]|]|];
    repeat (progress (autounfold with dms_setup; cbn;
                      rewrite ?Hslot, ?Hnames, ?Hdel));
    reflexivity.
Qed.

(** Once an entry is set up, the media source finds its device under
    the device's name: the device is stored under the entry's unique id
    and in the table of names the media source reads, where it replaces
    whatever had that name. The other names keep their devices, and the
    first name of the table, the server an identifier without a server
    stands for, stays the first. *)
Theorem setup_makes_server_browsable
  (entry : ConfigEntry) (h : Hass W) (location : string)
  (device : DmsDevice) (w1 w2 : W) (by_name : Dict DmsDevice) :
  data entry !! CONF_URL = Some location ->
  unique_id entry <> Some BY_NAME ->
  names_of (defaulted (domain h)) = Some by_name ->
  async_create_device location (world h) = (Ok device, w1) ->
  async_update device w1 = (Ok tt, w2) ->
  let h' := snd (setup entry h) in
  fst (setup entry h) = Ok true
  /\ domain h' ≫= (.!! unique_id entry) = Some (Server device)
  /\ exists by_name',
       fst (async_get_media_source h') = Ok (Names by_name')
       /\ dict_get by_name' (device_name device) = Some device
       /\ (forall other, other <> device_name device ->
                         dict_get by_name' other = dict_get by_name other)
       /\ (by_name <> [] ->
           head (map fst by_name') = head (map fst by_name))
       /\ forall sources,
            by_name = str_keyed sources ->
            str_truthy (name device) = true ->
            exists sources',
              by_name' = str_keyed sources'
              /\ sources_get sources' (name device) = Some device
              /\ (sources <> [] -> first_key sources' = first_key sources).
Proof.
  intros Hurl Hid Hnames Hcreate Hupdate.
  pose proof (server_setup_cases entry h) as Hcases. cbv zeta in Hcases.
  rewrite Hurl, Hcreate, Hupdate in Hcases.
  unfold names_of in Hnames.
  rewrite lookup_insert_ne in Hcases by done.
  destruct (defaulted (domain h) !! Some BY_NAME) as [[other|table]|];
    try discriminate.
  injection Hnames as ->. cbv zeta. rewrite Hcases. cbn [fst snd domain].
  split; [done|]. split.
  { cbn. rewrite lookup_insert_ne by done. by rewrite lookup_insert_eq. }
  exists (dict_set by_name (device_name device) device).
  split.
  { unfold async_get_media_source, domain_getitem, get_domain, bind, get,
      ret. cbn. by rewrite lookup_insert_eq. }
  split; [apply dict_get_set_eq|].
  split; [intros other Hother; by apply dict_get_set_ne|].
  split; [apply dict_set_first|].
  intros sources -> Hname.
  unfold DmsSetup.device_name. rewrite Hname.
  destruct (dict_set_str_keyed sources (name device) device)
    as (sources' & Hset & Hfirst).
  exists sources'. split; [done|]. split; [|done].
  rewrite <- dict_get_str_keyed, <- Hset. apply dict_get_set_eq.
Qed.

(** The table of names holds one device per name. When two entries that
    are set up have devices of one name, unloading the first removes the
    name, so the media source no longer finds the second although it is
    still set up; unloading the second then raises KeyError for the name,
    after its device has been taken out. *)
Theorem shared_name_is_lost_on_unload
  (first second : ConfigEntry) (a b : DmsDevice) (h : Hass W)
  (d : gmap Key Slot) (by_name : Dict DmsDevice) :
  domain h = Some d ->
  d !! unique_id first = Some (Server a) ->
  d !! unique_id second = Some (Server b) ->
  unique_id first <> unique_id second ->
  names_of d = Some by_name ->
  NoDup (map fst by_name) ->
  dict_get by_name (device_name a) <> None ->
  device_name a = device_name b ->
  let h1 := snd (unload first h) in
  let h2 := snd (unload second h1) in
  fst (unload first h) = Ok true
  /\ domain h1 ≫= (.!! unique_id second) = Some (Server b)
  /\ (exists rest,
        fst (async_get_media_source h1) = Ok (Names rest)
        /\ dict_get rest (device_name b) = None)
  /\ fst (unload second h1) = Raise (KeyError (key_text (device_name b)))
  /\ domain h2 ≫= (.!! unique_id second) = None.
Proof.
  intros Hd Ha Hb Hids Hnames Hnodup Hnamed Hsame.
  unfold names_of in Hnames.
  destruct (d !! Some BY_NAME) as [[other|table]|] eqn:Htable;
    try discriminate.
  injection Hnames as ->.
  assert (unique_id first <> Some BY_NAME) as Hfirst by congruence.
  assert (unique_id second <> Some BY_NAME) as Hsecond by congruence.
  destruct (dict_del_some by_name (device_name a) Hnamed) as [rest Hdel].
  destruct (dict_del_gone by_name rest (device_name a) Hnodup Hdel)
    as [Hgone _].
  pose proof (server_unload_cases first h) as Hcases.
  cbv zeta in Hcases.
  rewrite Hd, Ha in Hcases.
  rewrite lookup_delete_ne, Htable, Hdel in Hcases by done.
  cbv zeta. rewrite Hcases. cbn [fst snd].
  pose proof (server_unload_cases second
                (mkHass (Some (<[Some BY_NAME := Names rest]>
                                 (delete (unique_id first) d)))
                   (world h) (calls h))) as Hcases2.
  cbv zeta in Hcases2. cbn [domain world calls] in Hcases2.
  rewrite lookup_insert_ne, lookup_delete_ne, Hb in Hcases2 by done.
  rewrite lookup_delete_ne, lookup_insert_eq in Hcases2 by done.
  rewrite Hsame in Hgone.
  rewrite (dict_del_none rest _ Hgone) in Hcases2.
  rewrite Hcases2. cbn [fst snd domain].
  split; [done|]. split.
  { cbn. by rewrite lookup_insert_ne, lookup_delete_ne. }
  split.
  { exists rest. split; [|done].
    unfold async_get_media_source, domain_getitem, get_domain, bind, get,
      ret. cbn. by rewrite lookup_insert_eq. }
  split; [done|].
  cbn. apply lookup_delete_eq.
Qed.

(** Unloading an entry right after its set-up leaves [hass.data[DOMAIN]]
    as it was, when the unique id and the device's name were not in use
    before. *)
Theorem unload_undoes_server_setup
  (entry : ConfigEntry) (h : Hass W) (location : string)
  (device : DmsDevice) (w1 w2 : W) (by_name : Dict DmsDevice) :
  data entry !! CONF_URL = Some location ->
  defaulted (domain h) !! unique_id entry = None ->
  names_of (defaulted (domain h)) = Some by_name ->
  dict_get by_name (device_name device) = None ->
  async_create_device location (world h) = (Ok device, w1) ->
  async_update device w1 = (Ok tt, w2) ->
  let h1 := snd (setup entry h) in
  fst (setup entry h) = Ok true
  /\ fst (unload entry h1) = Ok true
  /\ domain (snd (unload entry h1)) = Some (defaulted (domain h))
  /\ calls (snd (unload entry h1)) = calls h1.
Proof.
  intros Hurl Hfresh Hnames Hname Hcreate Hupdate.
  pose proof (server_setup_cases entry h) as Hcases. cbv zeta in Hcases.
  rewrite Hurl, Hcreate, Hupdate in Hcases.
  unfold names_of in Hnames.
  destruct (defaulted (domain h) !! Some BY_NAME) as [[other|table]|]
    eqn:Htable; try discriminate.
  injection Hnames as ->.
  assert (unique_id entry <> Some BY_NAME) as Hid by congruence.
  rewrite lookup_insert_ne, Htable in Hcases by done.
  cbv zeta. rewrite Hcases. cbn [fst snd].
  match goal with
  | |- context [unload entry ?h1] =>
      pose proof (server_unload_cases entry h1) as Hcases2
  end.
  cbv zeta in Hcases2. cbn [domain world calls] in Hcases2.
  rewrite lookup_insert_ne, lookup_insert_eq in Hcases2 by done.
  rewrite lookup_delete_ne, lookup_insert_eq in Hcases2 by done.
  rewrite (dict_del_set_fresh by_name _ device Hname) in Hcases2.
  rewrite Hcases2. cbn [fst snd domain calls].
  split; [done|]. split; [done|]. split; [|done].
  f_equal. apply map_eq. intros key.
  destruct (decide (key = Some BY_NAME)) as [->|Hkey].
  - by rewrite lookup_insert_eq.
  - rewrite lookup_insert_ne by done.
    destruct (decide (key = unique_id entry)) as [->|Hother].
    + by rewrite lookup_delete_eq.
    + by rewrite lookup_delete_ne, !lookup_insert_ne.
Qed.

(** A server that cannot be constructed registers nothing. A timeout or
    transport error of the description request becomes
    ConfigEntryNotReady and the device's properties are not requested;
    any other error of that request, a UPnP error among them, and every
    error of the request for the properties leave the set-up as they
    are. *)
Theorem unreachable_server_registers_nothing
  (entry : ConfigEntry) (h : Hass W) (location : string) (e : exn) :
  data entry !! CONF_URL = Some location ->
  fst (async_construct_device async_create_device async_update location
         (mkHass (Some (defaulted (domain h))) (world h) (calls h)))
  = Raise e ->
  fst (setup entry h) = Raise e
  /\ domain (snd (setup entry h)) = Some (defaulted (domain h))
  /\ match async_create_device location (world h) with
     | (Raise e1, _) =>
         e = (if is_request_error e1 then ConfigEntryNotReady else e1)
         /\ calls (snd (setup entry h)) = calls h ++ [CreateDevice location]
     | (Ok device, w1) =>
         fst (async_update device w1) = Raise e
         /\ calls (snd (setup entry h))
            = calls h ++ [CreateDevice location; UpdateDevice (name device)]
     end.
Proof.
  intros Hurl Hraise.
  pose proof (server_setup_cases entry h) as Hcases. cbv zeta in Hcases.
  rewrite Hurl in Hcases.
  unfold async_construct_device, bind, except, ask, raise, ret in Hraise.
  cbn [world domain calls] in Hraise.
  destruct (async_create_device location (world h)) as [[device|e1] w1].
  - cbn in Hraise.
    destruct (async_update device w1) as [[[]|e2] w2]; cbn in Hraise;
      [discriminate|].
    injection Hraise as ->. rewrite Hcases. by cbn.
  - rewrite Hcases. cbn [fst snd domain calls].
    destruct (is_request_error e1); cbn in Hraise; injection Hraise as ->;
      done.
Qed.

End Setup.

Import Fixtures DmsSetupFixtures.

Lemma setup_makes_server_browsable_witness :
  let h' :=
    snd (async_setup_entry create_at update_fine no_hostname attic_entry
           empty_hass) in
  fst (async_setup_entry create_at update_fine no_hostname attic_entry
         empty_hass) = Ok true
  /\ domain h' ≫= (.!! Some "uuid:attic") = Some (Server attic).
Proof.
  destruct (setup_makes_server_browsable create_at update_fine no_hostname
              attic_entry empty_hass "http://192.0.2.20/dms.xml" attic 1 2 [])
    as (Hok & Hstored & _); [reflexivity | discriminate | reflexivity..|].
  split; [exact Hok | exact Hstored].
Defined.

Lemma shared_name_is_lost_on_unload_witness :
  let h1 := snd (async_unload_entry no_hostname attic_entry both_set_up) in
  fst (async_unload_entry no_hostname attic_entry both_set_up) = Ok true
  /\ fst (async_unload_entry no_hostname cellar_entry h1)
     = Raise (KeyError "NAS").
Proof.
  destruct (shared_name_is_lost_on_unload no_hostname attic_entry
              cellar_entry attic cellar both_set_up
              (<[Some BY_NAME := Names [(Some "NAS", cellar)]]>
                 (<[Some "uuid:cellar" := Server cellar]>
                    (<[Some "uuid:attic" := Server attic]>
                       {[Some BY_NAME := Names []]})))
              [(Some "NAS", cellar)])
    as (Hfirst & _ & _ & Hsecond & _).
  - reflexivity.
  - reflexivity.
  - reflexivity.
  - discriminate.
  - reflexivity.
  - repeat constructor. apply not_elem_of_nil.
  - discriminate.
  - reflexivity.
  - split; [exact Hfirst | exact Hsecond].
Defined.

Lemma unload_undoes_server_setup_witness :
  let h1 :=
    snd (async_setup_entry create_at update_fine no_hostname attic_entry
           empty_hass) in
  fst (async_unload_entry no_hostname attic_entry h1) = Ok true
  /\ domain (snd (async_unload_entry no_hostname attic_entry h1))
     = Some {[Some BY_NAME := Names []]}.
Proof.
  destruct (unload_undoes_server_setup create_at update_fine no_hostname
              attic_entry empty_hass "http://192.0.2.20/dms.xml" attic 1 2 [])
    as (_ & Hok & Hdomain & _); [reflexivity..|].
  split; [exact Hok | exact Hdomain].
Defined.

Lemma unreachable_server_registers_nothing_witness :
  fst (async_setup_entry create_at update_fine no_hostname lost_entry
         empty_hass) = Raise ConfigEntryNotReady
  /\ domain (snd (async_setup_entry create_at update_fine no_hostname
                    lost_entry empty_hass))
     = Some {[Some BY_NAME := Names []]}.
Proof.
  destruct (unreachable_server_registers_nothing create_at update_fine
              no_hostname lost_entry empty_hass "http://192.0.2.99/dms.xml"
              ConfigEntryNotReady)
    as (Hraise & Hdomain & _); [reflexivity..|].
  split; [exact Hraise | exact Hdomain].
Defined.

End DmsSetupFacts.
